(** * face-attendance: the attendance ledger, the embedding registry,
      the cooldown guard and the frame-throttled camera loop.

    The development embeds, function by function,
      - [v3_web_app/database.py]               (attendance table, [record_attendance]),
      - [v3_web_app/face_recognition_module.py] ([load_known_faces],
        [_compute_similarity], [_compute_similarities_batch], [detect_faces],
        [recognize_faces]),
      - [v1_basic_local/main.py]               ([_process_attendance], [_update_camera]),
      - [v2_google_sheet_pc/main.py]           ([_process_attendance]),
    and then states and proves the properties of the specification over
    these definitions.

    Conventions.  Python exceptions are values of [exn]; a call that may raise
    returns [res A].  A method that mutates [self] takes the old object and
    returns the new one next to its result.  Python [float] and numpy
    [float64] are Rocq's primitive binary64 floats, so comparisons, NaN and
    division by zero behave as IEEE 754 prescribes; the [float32] arithmetic
    numpy would use on a [float32] query embedding is not distinguished from
    it, and no general statement below depends on how a sum is rounded.
    Wall-clock readings
    ([date.today()], [datetime.now()], [time.time()]) and the output of the
    external face detector are inputs of the functions that consume them. *)

From Stdlib Require Import ZArith List String Ascii Bool Lia.
From Stdlib Require Import Floats.
From stdpp Require Import base option list gmap strings.

Set Warnings "-inexact-float".
Local Open Scope string_scope.
Local Open Scope Z_scope.

(* ===================================================================== *)
(** * Python runtime: exceptions and results                              *)
(* ===================================================================== *)

Inductive exn : Type :=
| AttributeError
| ValueError
| IndexError
| OverflowError
| ZeroDivisionError
| IntegrityError
| Cv2Error.

Inductive res (A : Type) : Type :=
| Ok (a : A)
| Raise (e : exn).
Arguments Ok {A} a.
Arguments Raise {A} e.

Definition res_bind {A B : Type} (r : res A) (k : A -> res B) : res B :=
  match r with
  | Ok a => k a
  | Raise e => Raise e
  end.

#[global] Instance res_mbind : MBind res := fun A B k r => res_bind r k.
#[global] Instance res_mret : MRet res := fun A a => Ok a.

(** [for x in xs: ys.append(f x)] where [f] may raise: the first exception
    leaves the loop. *)
Fixpoint res_map {A B : Type} (f : A -> res B) (xs : list A) : res (list B) :=
  match xs with
  | [] => Ok []
  | x :: xs' => y ← f x; ys ← res_map f xs'; Ok (y :: ys)
  end.

(** [xs[i]] on a Python list, for a non-negative index. *)
Definition py_index {A : Type} (xs : list A) (i : nat) : res A :=
  match xs !! i with
  | Some x => Ok x
  | None => Raise IndexError
  end.

(* ===================================================================== *)
(** * datetime                                                            *)
(* ===================================================================== *)

Record date : Type := mkDate {
  d_year : Z;
  d_month : Z;
  d_day : Z
}.

Record datetime : Type := mkDatetime {
  dt_date : date;
  dt_hour : Z;
  dt_minute : Z;
  dt_second : Z;
  dt_microsecond : Z
}.

#[global] Instance date_eq_dec : EqDecision date.
Proof. solve_decision. Defined.

#[global] Instance datetime_eq_dec : EqDecision datetime.
Proof. solve_decision. Defined.

Definition digit (n : Z) : ascii := ascii_of_nat (48 + Z.to_nat (n mod 10)).

(** [%H], [%M], [%S]: two digits, zero padded. *)
Definition two_digits (n : Z) : string :=
  String (digit (n / 10)) (String (digit n) EmptyString).

(** [now.strftime('%H:%M:%S')] *)
Definition strftime_HMS (now : datetime) : string :=
  (two_digits (dt_hour now) ++ ":" ++ two_digits (dt_minute now) ++ ":"
     ++ two_digits (dt_second now))%string.

(* ===================================================================== *)
(** * database.py: the attendance table                                   *)
(* ===================================================================== *)

Module Database.

(** One row of
    [attendance(id INTEGER PRIMARY KEY AUTOINCREMENT, user_id, check_in_time,
                check_out_time, date, status DEFAULT 'present',
                UNIQUE(user_id, date))].
    A timestamp column holds SQL NULL ([None]) or the stored time; read back
    through the cursor, a stored time is a non-empty string and so is truthy. *)
Record attendance_row : Type := mkRow {
  att_id : Z;
  att_user_id : Z;
  att_check_in_time : option datetime;
  att_check_out_time : option datetime;
  att_date : date;
  att_status : string
}.

(** The part of [DatabaseManager] that [record_attendance] touches: the rows
    of the table in rowid order and the AUTOINCREMENT counter. *)
Record DatabaseManager : Type := mkDb {
  attendance : list attendance_row;
  attendance_seq : Z
}.

Definition row_matches (user_id : Z) (today : date) (r : attendance_row) : bool :=
  (att_user_id r =? user_id) && bool_decide (att_date r = today).

(** [SELECT id, check_in_time, check_out_time FROM attendance
     WHERE user_id = ? AND date = ?] followed by [fetchone()]. *)
Definition select_existing (db : DatabaseManager) (user_id : Z) (today : date)
  : option attendance_row :=
  List.find (row_matches user_id today) (attendance db).

(** [INSERT INTO attendance (user_id, date, check_in_time) VALUES (?, ?, ?)];
    the UNIQUE(user_id, date) constraint raises [IntegrityError]. *)
Definition insert_attendance (db : DatabaseManager) (user_id : Z) (today : date)
    (now : datetime) : res DatabaseManager :=
  if existsb (row_matches user_id today) (attendance db) then Raise IntegrityError
  else
    let new_id := attendance_seq db + 1 in
    Ok {| attendance := (attendance db ++
            [ {| att_id := new_id; att_user_id := user_id;
                 att_check_in_time := Some now; att_check_out_time := None;
                 att_date := today; att_status := "present" |} ])%list;
          attendance_seq := new_id |}.

(** [UPDATE attendance SET check_out_time = ? WHERE id = ?] *)
Definition update_check_out (db : DatabaseManager) (now : datetime) (id : Z)
  : DatabaseManager :=
  {| attendance :=
       map (fun r => if att_id r =? id
                     then {| att_id := att_id r; att_user_id := att_user_id r;
                             att_check_in_time := att_check_in_time r;
                             att_check_out_time := Some now;
                             att_date := att_date r; att_status := att_status r |}
                     else r)
           (attendance db);
     attendance_seq := attendance_seq db |}.

(** Truth value of a fetched timestamp column ([if existing[2]:]). *)
Definition truthy (c : option datetime) : bool :=
  match c with
  | Some _ => true
  | None => false
  end.

(** [DatabaseManager.record_attendance(user_id, check_type)].  [today] and
    [now] are the values of [date.today()] and [datetime.now()] read at the
    top of the method. *)
Definition record_attendance (db : DatabaseManager) (user_id : Z)
    (check_type : string) (today : date) (now : datetime)
  : DatabaseManager * res (bool * string) :=
  let existing := select_existing db user_id today in
  if String.eqb check_type "in" then
    match existing with
    | Some _ => (db, Ok (false, "이미 오늘 출석 체크를 하셨습니다."))
    | None =>
        match insert_attendance db user_id today now with
        | Ok db' => (db', Ok (true, ("출근 체크 완료! (" ++ strftime_HMS now ++ ")")%string))
        | Raise e => (db, Raise e)
        end
    end
  else
    match existing with
    | None => (db, Ok (false, "먼저 출근 체크를 해주세요."))
    | Some row =>
        if truthy (att_check_out_time row)
        then (db, Ok (false, "이미 퇴근 체크를 하셨습니다."))
        else (update_check_out db now (att_id row),
              Ok (true, ("퇴근 체크 완료! (" ++ strftime_HMS now ++ ")")%string))
    end.

(** The three ledger rejections of the specification and the result the
    method returns for each. *)
Inductive ledger_rejection : Type :=
| AlreadyCheckedIn
| NotCheckedIn
| AlreadyCheckedOut.

Definition rejected (e : ledger_rejection) : res (bool * string) :=
  match e with
  | AlreadyCheckedIn => Ok (false, "이미 오늘 출석 체크를 하셨습니다.")
  | NotCheckedIn => Ok (false, "먼저 출근 체크를 해주세요.")
  | AlreadyCheckedOut => Ok (false, "이미 퇴근 체크를 하셨습니다.")
  end.

End Database.


(* ===================================================================== *)
(** * numpy on one- and two-dimensional float arrays                      *)
(* ===================================================================== *)

Module Np.

Abbreviation vec := (list float) (only parsing).
Abbreviation matrix := (list (list float)) (only parsing).

(** [np.array(rows)] for a list of one-dimensional arrays: the rows must all
    have the length of the first one (an inhomogeneous shape is a
    [ValueError]). *)
Definition np_array (rows : list vec) : res matrix :=
  match rows with
  | [] => Ok []
  | r :: rs =>
      if forallb (fun r' => Nat.eqb (length r') (length r)) rs
      then Ok rows else Raise ValueError
  end.

(** [np.linalg.norm(v)]: the square root of the sum of squares.  The sum is
    accumulated left to right; no statement below depends on that order. *)
Definition np_linalg_norm (v : vec) : float :=
  PrimFloat.sqrt (fold_left (fun acc x => PrimFloat.add acc (PrimFloat.mul x x)) v 0%float).

(** [v / n] for a scalar [n]; a zero [n] gives infinities and NaN, not an
    exception. *)
Definition np_div (v : vec) (n : float) : vec :=
  map (fun x => PrimFloat.div x n) v.

(** The sum of products behind [np.dot], for one row.  Arrays are taken as
    [float64] and the sum is accumulated left to right, for the batch product
    [np.dot(M, v)] and for the pairwise [np.dot(a, b)] alike.  numpy leaves
    the order of the reduction to its BLAS kernels, and these may differ
    between the two calls in the last bits, so no statement below rests on
    the two calls giving identical floats; [float32] arithmetic on [float32]
    embeddings is not modelled. *)
Definition dot_row (a b : vec) : float :=
  fold_left (fun acc xy => PrimFloat.add acc (PrimFloat.mul (fst xy) (snd xy)))
            (combine a b) 0%float.

(** [np.dot(a, b)] for two one-dimensional arrays. *)
Definition np_dot_vv (a b : vec) : res float :=
  if Nat.eqb (length a) (length b) then Ok (dot_row a b) else Raise ValueError.

(** [np.dot(M, v)] for a two-dimensional [M] and a one-dimensional [v]. *)
Definition np_dot_mv (M : matrix) (v : vec) : res vec :=
  if forallb (fun row => Nat.eqb (length row) (length v)) M
  then Ok (map (fun row => dot_row row v) M) else Raise ValueError.

(** The scan of [np.argmax] over floats: [mp] is the running maximum and
    [max_ind] its index; an element replaces the maximum when [x <= mp] does
    not hold, and the scan stops at the first NaN. *)
Fixpoint argmax_scan (ip : list float) (i : nat) (mp : float) (max_ind : nat) : nat :=
  match ip with
  | [] => max_ind
  | x :: ip' =>
      if PrimFloat.is_nan mp then max_ind
      else if negb (PrimFloat.leb x mp) then argmax_scan ip' (S i) x i
      else argmax_scan ip' (S i) mp max_ind
  end.

(** [np.argmax(a)]; an empty array is a [ValueError]. *)
Definition np_argmax (a : vec) : res nat :=
  match a with
  | [] => Raise ValueError
  | x :: ip => Ok (argmax_scan ip 1%nat x 0%nat)
  end.

(** The order in which [np.argmax] ranks floats: IEEE [<=], with NaN above
    everything. *)
Definition rank_le (x y : float) : bool :=
  PrimFloat.is_nan y || PrimFloat.leb x y.

End Np.

(* ===================================================================== *)
(** * face_recognition_module.py                                          *)
(* ===================================================================== *)

Module FaceRecognition.
Import Np.

(** One element of [self.app.get(frame)]: [bbox] after [astype(int)], the
    embedding when the recognition model produced one ([None] otherwise),
    and [det_score], which the detector always supplies. *)
Record Face : Type := mkFace {
  bbox : Z * Z * Z * Z;            (* x1, y1, x2, y2 *)
  embedding : option vec;
  det_score : float
}.

Record FaceInfo : Type := mkFaceInfo {
  location : Z * Z * Z * Z;        (* top, right, bottom, left *)
  encoding : option vec;
  name : string;
  user_id : option Z;
  confidence : float;
  detection_score : float
}.

(** [known_embeddings_matrix] and [known_embeddings_normalized] are not
    assigned by [__init__]: the outer [option] is [None] until the first
    [load_known_faces] reaches their assignment, the inner one is Python's
    [None]. *)
Record FaceRecognitionModule : Type := mkModule {
  tolerance : float;
  known_face_encodings : list vec;
  known_face_names : list string;
  known_face_ids : list Z;
  known_embeddings_matrix : option (option matrix);
  known_embeddings_normalized : option (option matrix)
}.

(** [FaceRecognitionModule(tolerance=...)] *)
Definition init (tol : float) : FaceRecognitionModule :=
  {| tolerance := tol;
     known_face_encodings := []; known_face_names := []; known_face_ids := [];
     known_embeddings_matrix := None; known_embeddings_normalized := None |}.

(** The three lists after the loop
    [for user_id, name, encoding in face_data: ... .append(...)]. *)
Definition append_all (face_data : list (Z * string * vec))
  : list vec * list string * list Z :=
  fold_left
    (fun acc row =>
       let '(encs, names, ids) := acc in
       let '(uid, nm, enc) := row in
       ((encs ++ [enc])%list, (names ++ [nm])%list, (ids ++ [uid])%list))
    face_data ([], [], []).

(** [load_known_faces(face_data)].  The lists are replaced first; the matrix
    attributes are assigned afterwards, when [np.array] has succeeded. *)
Definition load_known_faces (self : FaceRecognitionModule)
    (face_data : list (Z * string * vec)) : FaceRecognitionModule * res unit :=
  let '(encs, names, ids) := append_all face_data in
  let self1 :=
    {| tolerance := tolerance self;
       known_face_encodings := encs; known_face_names := names;
       known_face_ids := ids;
       known_embeddings_matrix := known_embeddings_matrix self;
       known_embeddings_normalized := known_embeddings_normalized self |} in
  match encs with
  | _ :: _ =>
      match np_array encs with
      | Raise e => (self1, Raise e)
      | Ok M =>
          let normalized := map (fun row => np_div row (np_linalg_norm row)) M in
          ({| tolerance := tolerance self;
              known_face_encodings := encs; known_face_names := names;
              known_face_ids := ids;
              known_embeddings_matrix := Some (Some M);
              known_embeddings_normalized := Some (Some normalized) |}, Ok tt)
      end
  | [] =>
      ({| tolerance := tolerance self;
          known_face_encodings := encs; known_face_names := names;
          known_face_ids := ids;
          known_embeddings_matrix := Some None;
          known_embeddings_normalized := Some None |}, Ok tt)
  end.

(** [_compute_similarity(embedding1, embedding2)] *)
Definition _compute_similarity (embedding1 embedding2 : vec) : res float :=
  let embedding1 := np_div embedding1 (np_linalg_norm embedding1) in
  let embedding2 := np_div embedding2 (np_linalg_norm embedding2) in
  np_dot_vv embedding1 embedding2.

(** [_compute_similarities_batch(embedding)] *)
Definition _compute_similarities_batch (self : FaceRecognitionModule)
    (embedding : vec) : res vec :=
  match known_embeddings_normalized self with
  | None => Raise AttributeError
  | Some None => Ok []
  | Some (Some normalized) =>
      let embedding_norm := np_div embedding (np_linalg_norm embedding) in
      np_dot_mv normalized embedding_norm
  end.

(** [detect_faces(frame)], on the detector's output for the frame. *)
Definition detect_faces (faces : list Face) : list FaceInfo :=
  map (fun face =>
         let '(x1, y1, x2, y2) := bbox face in
         {| location := (y1, x2, y2, x1); encoding := None; name := "Unknown";
            user_id := None; confidence := 0%float;
            detection_score := det_score face |})
      faces.

(** Lines 169-173 of [recognize_faces]: the similarities, the index
    [np.argmax] picks and the similarity found there. *)
Definition best_match (self : FaceRecognitionModule) (embedding : vec)
  : res (nat * float) :=
  similarities ← _compute_similarities_batch self embedding;
  best_match_index ← np_argmax similarities;
  best_similarity ← py_index similarities best_match_index;
  Ok (best_match_index, best_similarity).

(** The body of the loop of [recognize_faces] for one detected face. *)
Definition recognize_face (self : FaceRecognitionModule) (face : Face) : res FaceInfo :=
  let '(x1, y1, x2, y2) := bbox face in
  let location := (y1, x2, y2, x1) in
  let unknown :=
    {| location := location; encoding := embedding face; name := "Unknown";
       user_id := None; confidence := 0%float;
       detection_score := det_score face |} in
  match embedding face with
  | Some emb =>
      if Nat.ltb 0 (length (known_face_encodings self)) then
        '(best_match_index, best_similarity) ← best_match self emb;
        if PrimFloat.leb (tolerance self) best_similarity then
          nm ← py_index (known_face_names self) best_match_index;
          uid ← py_index (known_face_ids self) best_match_index;
          Ok {| location := location; encoding := embedding face; name := nm;
                user_id := Some uid; confidence := best_similarity;
                detection_score := det_score face |}
        else Ok unknown
      else Ok unknown
  | None => Ok unknown
  end.

(** [recognize_faces(frame)], on the detector's output for the frame. *)
Definition recognize_faces (self : FaceRecognitionModule) (faces : list Face)
  : res (list FaceInfo) :=
  res_map (recognize_face self) faces.

(** The components of one [(user_id, name, encoding)] row of [face_data]. *)
Definition row_id (row : Z * string * vec) : Z := fst (fst row).
Definition row_name (row : Z * string * vec) : string := snd (fst row).
Definition row_encoding (row : Z * string * vec) : vec := snd row.

(** The object a [load_known_faces] call that returns normally leaves. *)
Definition loaded_module (tol : float) (face_data : list (Z * string * vec))
  : FaceRecognitionModule :=
  let encs := map row_encoding face_data in
  {| tolerance := tol;
     known_face_encodings := encs;
     known_face_names := map row_name face_data;
     known_face_ids := map row_id face_data;
     known_embeddings_matrix :=
       Some (match encs with [] => None | _ => Some encs end);
     known_embeddings_normalized :=
       Some (match encs with
             | [] => None
             | _ => Some (map (fun row => np_div row (np_linalg_norm row)) encs)
             end) |}.

(** [face_data] holds an embedding whose length differs from that of the
    first one. *)
Definition dimension_mismatch (face_data : list (Z * string * vec)) : Prop :=
  exists row0 rest row,
    face_data = row0 :: rest /\ row ∈ rest /\
    length (row_encoding row) <> length (row_encoding row0).

(** The defaults [recognize_faces] reports for a face it did not match. *)
Definition is_unknown (info : FaceInfo) : Prop :=
  name info = "Unknown" /\ user_id info = None /\ confidence info = 0%float.

End FaceRecognition.

(* ===================================================================== *)
(** * Cosine similarity, as the specification words it                    *)
(* ===================================================================== *)

(** The specification's glossary has the similarity of two embeddings be
    their cosine similarity: the dot product of the two vectors after each
    has been divided by its Euclidean (L2) norm.  The definitions of this
    module are written from those words, by recursion on the vectors and
    without the array operations of the code, to be compared with what
    [_compute_similarities_batch] computes. *)
Module CosineSpec.

(** [acc + a1 * b1 + a2 * b2 + ...], over the common length of [a] and [b]. *)
Fixpoint sum_of_products (acc : float) (a b : list float) : float :=
  match a, b with
  | x :: a', y :: b' => sum_of_products (PrimFloat.add acc (PrimFloat.mul x y)) a' b'
  | _, _ => acc
  end.

Definition l2_norm (v : list float) : float :=
  PrimFloat.sqrt (sum_of_products 0%float v v).

Fixpoint divide_each (v : list float) (n : float) : list float :=
  match v with
  | [] => []
  | x :: v' => PrimFloat.div x n :: divide_each v' n
  end.

Definition unit_normalized (v : list float) : list float :=
  divide_each v (l2_norm v).

Definition cosine_similarity (a b : list float) : float :=
  sum_of_products 0%float (unit_normalized a) (unit_normalized b).

End CosineSpec.


(* ===================================================================== *)
(** * Pieces shared by the two desktop front ends                         *)
(* ===================================================================== *)

(** One reading of the wall clock: [time.time()], [date.today()] and
    [datetime.now()]. *)
Record clock : Type := mkClock {
  time_time : float;
  date_today : date;
  datetime_now : datetime
}.

(** The cooldown gate that opens [_process_attendance] in both front ends
    (v1 lines 595-599 with a window of 5 seconds, v2 lines 306-310 with 10),
    under the name the specification gives it.  [true] means the method goes
    on to the ledger; [false] is its early [return]. *)
Definition should_trigger (cooldown : gmap (option Z) float)
    (identity_id : option Z) (now window_seconds : float)
  : bool * gmap (option Z) float :=
  match cooldown !! identity_id with
  | Some last =>
      if PrimFloat.ltb (PrimFloat.sub now last) window_seconds
      then (false, cooldown)
      else (true, <[identity_id := now]> cooldown)
  | None => (true, <[identity_id := now]> cooldown)
  end.

(** Python's [a / b] on floats. *)
Definition py_float_div (a b : float) : res float :=
  if PrimFloat.eqb b 0%float then Raise ZeroDivisionError
  else Ok (PrimFloat.div a b).

(** The [float64] value of an [int64] coordinate (exact below 2^53).  The
    conversion goes through the 63-bit magnitude; the one [int64] whose
    magnitude does not fit, [-2^63], is a power of two and is given
    directly. *)
Definition float_of_int (z : Z) : float :=
  if z =? -9223372036854775808 then PrimFloat.opp 9223372036854775808%float
  else if z <? 0 then PrimFloat.opp (PrimFloat.of_uint63 (Uint63.of_Z (- z)))
  else PrimFloat.of_uint63 (Uint63.of_Z z).

(** Python's [int(x)] on a float: truncation toward zero. *)
Definition py_int (x : float) : res Z :=
  match Prim2SF x with
  | S754_zero _ => Ok 0
  | S754_infinity _ => Raise OverflowError
  | S754_nan => Raise ValueError
  | S754_finite s m e =>
      let magnitude := if 0 <=? e then Z.pos m * 2 ^ e else Z.pos m / 2 ^ (- e) in
      Ok (if s then - magnitude else magnitude)
  end.

(** [z] is an integer nearest to the real number [x] denotes, that is
    [|x - z| <= 1/2], decided exactly on the mantissa and exponent of [x].
    This follows the wording of the specification ("rounded to the nearest
    integer pixel"); any tie-breaking rule satisfies it. *)
Definition is_nearest_integer (x : float) (z : Z) : bool :=
  match Prim2SF x with
  | S754_zero _ => z =? 0
  | S754_finite s m e =>
      let v := if s then Z.neg m else Z.pos m in
      if 0 <=? e then v * 2 ^ e =? z
      else 2 * Z.abs (v - z * 2 ^ (- e)) <=? 2 ^ (- e)
  | _ => false
  end.

(** [z] is the real number [x] denotes truncated toward zero: the integer
    of the sign of [x] whose magnitude is the largest one not above [|x|].
    Written from the meaning of "truncated toward zero", on the mantissa and
    exponent of [x], to be compared with [py_int]. *)
Definition is_truncation_toward_zero (x : float) (z : Z) : bool :=
  match Prim2SF x with
  | S754_zero _ => z =? 0
  | S754_finite s m e =>
      if 0 <=? e then (if s then Z.neg m else Z.pos m) * 2 ^ e =? z
      else (Z.abs z * 2 ^ (- e) <=? Z.pos m)
           && (Z.pos m <? (Z.abs z + 1) * 2 ^ (- e))
           && (if s then z <=? 0 else 0 <=? z)
  | _ => false
  end.

(** The real number [x] denotes is the integer [z], exactly. *)
Definition denotes_integer (x : float) (z : Z) : bool :=
  match Prim2SF x with
  | S754_zero _ => z =? 0
  | S754_finite s m e =>
      let v := if s then Z.neg m else Z.pos m in
      if 0 <=? e then v * 2 ^ e =? z else v =? z * 2 ^ (- e)
  | _ => false
  end.

(** With the working scale 0.5 of [__init__] the factor [1.0 / 0.5] is 2.0.
    [doubles_exactly c] checks that scaling coordinate [c] by it and
    converting with [int()] gives [2 c], and that the float product denotes
    [2 c] exactly.  The check is run on the coordinates of magnitude up to
    [coordinate_bound], several times the 640 x 480 frames the camera is set
    to deliver. *)
Definition doubles_exactly (c : Z) : bool :=
  match py_int (PrimFloat.mul (float_of_int c) 2%float) with
  | Ok z => (z =? 2 * c)
            && denotes_integer (PrimFloat.mul (float_of_int c) 2%float) (2 * c)
  | Raise _ => false
  end.

Definition coordinate_bound : Z := 4096.

Fixpoint doubles_exactly_from (c : Z) (n : nat) : bool :=
  match n with
  | O => true
  | S n' => doubles_exactly c && doubles_exactly (- c)
            && doubles_exactly_from (c + 1) n'
  end.

(* ===================================================================== *)
(** * v1_basic_local/main.py                                              *)
(* ===================================================================== *)

Module V1.
Import Database Np FaceRecognition.

(** Python list objects are kept in a store, and [self.last_faces] holds a
    reference into it, so that "the same list object" can be told from "an
    equal list". *)
Abbreviation loc := nat (only parsing).
Abbreviation heap := (gmap nat (list FaceInfo)) (only parsing).

Record FaceAttendanceApp : Type := mkApp {
  db : DatabaseManager;
  face_module : FaceRecognitionModule;
  is_running : bool;
  current_mode : string;
  recognition_cooldown : gmap (option Z) float;
  frame_count : Z;
  process_every_n_frames : Z;
  last_faces : loc;
  recognition_scale : float;
  result_label : string
}.

Definition set_db (self : FaceAttendanceApp) (v : DatabaseManager) :=
  mkApp v (face_module self) (is_running self) (current_mode self)
        (recognition_cooldown self) (frame_count self)
        (process_every_n_frames self) (last_faces self)
        (recognition_scale self) (result_label self).

Definition set_recognition_cooldown (self : FaceAttendanceApp)
    (v : gmap (option Z) float) :=
  mkApp (db self) (face_module self) (is_running self) (current_mode self)
        v (frame_count self) (process_every_n_frames self) (last_faces self)
        (recognition_scale self) (result_label self).

Definition set_frame_count (self : FaceAttendanceApp) (v : Z) :=
  mkApp (db self) (face_module self) (is_running self) (current_mode self)
        (recognition_cooldown self) v (process_every_n_frames self)
        (last_faces self) (recognition_scale self) (result_label self).

Definition set_last_faces (self : FaceAttendanceApp) (v : loc) :=
  mkApp (db self) (face_module self) (is_running self) (current_mode self)
        (recognition_cooldown self) (frame_count self)
        (process_every_n_frames self) v (recognition_scale self)
        (result_label self).

Definition set_result_label (self : FaceAttendanceApp) (v : string) :=
  mkApp (db self) (face_module self) (is_running self) (current_mode self)
        (recognition_cooldown self) (frame_count self)
        (process_every_n_frames self) (last_faces self)
        (recognition_scale self) v.

(** The state [__init__] sets up, given the two modules it constructs and
    the reference of the empty list bound to [last_faces]. *)
Definition init (database : DatabaseManager) (fm : FaceRecognitionModule)
    (l : loc) : FaceAttendanceApp :=
  {| db := database; face_module := fm; is_running := false;
     current_mode := "attendance"; recognition_cooldown := ∅;
     frame_count := 0; process_every_n_frames := 3; last_faces := l;
     recognition_scale := 0.5%float; result_label := "" |}.

(** [_process_attendance(face)].  A [user_id] of [None] reaches the NOT NULL
    column of the INSERT, hence [IntegrityError]. *)
Definition _process_attendance (self : FaceAttendanceApp) (face : FaceInfo)
    (clk : clock) : FaceAttendanceApp * res unit :=
  let current_time := time_time clk in
  let uid := user_id face in
  let '(go, cooldown) :=
    should_trigger (recognition_cooldown self) uid current_time 5%float in
  if go then
    let self := set_recognition_cooldown self cooldown in
    match uid with
    | Some u =>
        let '(db', r) :=
          record_attendance (db self) u "in" (date_today clk) (datetime_now clk) in
        let self := set_db self db' in
        match r with
        | Ok (true, message) =>
            (set_result_label self ("✅ " ++ name face ++ "님 " ++ message)%string,
             Ok tt)
        | Ok (false, message) =>
            (set_result_label self ("ℹ️ " ++ name face ++ "님: " ++ message)%string,
             Ok tt)
        | Raise e => (self, Raise e)
        end
    | None => (self, Raise IntegrityError)
    end
  else (self, Ok tt).

(** The rescaled copy of one face that the loops of [_update_camera]
    append to [last_faces]. *)
Definition scale_face (scale_factor : float) (face : FaceInfo) : res FaceInfo :=
  let '(top, right_, bottom, left_) := location face in
  t ← py_int (PrimFloat.mul (float_of_int top) scale_factor);
  r ← py_int (PrimFloat.mul (float_of_int right_) scale_factor);
  b ← py_int (PrimFloat.mul (float_of_int bottom) scale_factor);
  l ← py_int (PrimFloat.mul (float_of_int left_) scale_factor);
  Ok {| location := (t, r, b, l); encoding := encoding face; name := name face;
        user_id := user_id face; confidence := confidence face;
        detection_score := detection_score face |}.

(** [self.last_faces.append(x)] *)
Definition heap_append (h : heap) (l : loc) (x : FaceInfo) : heap :=
  alter (fun xs => (xs ++ [x])%list) l h.

(** [if face.user_id is not None and face.name != "Unknown"] *)
Definition recognized (face : FaceInfo) : bool :=
  match user_id face with
  | Some _ => negb (String.eqb (name face) "Unknown")
  | None => false
  end.

(** The [for face in small_faces] loop of the attendance branch.  [k] is the
    position of the face in the frame and [clk k] the clock reading its
    [_process_attendance] call sees; [calls] collects the faces handed to
    [_process_attendance]. *)
Fixpoint attendance_loop (self : FaceAttendanceApp) (h : heap)
    (scale_factor : float) (small_faces : list FaceInfo) (clk : nat -> clock)
    (k : nat) (calls : list FaceInfo)
  : FaceAttendanceApp * heap * list FaceInfo * res unit :=
  match small_faces with
  | [] => (self, h, calls, Ok tt)
  | face :: rest =>
      match scale_face scale_factor face with
      | Raise e => (self, h, calls, Raise e)
      | Ok scaled =>
          let h := heap_append h (last_faces self) scaled in
          if recognized face then
            let '(self, r) := _process_attendance self face (clk k) in
            match r with
            | Ok _ =>
                attendance_loop self h scale_factor rest clk (S k)
                                (calls ++ [face])%list
            | Raise e => (self, h, (calls ++ [face])%list, Raise e)
            end
          else attendance_loop self h scale_factor rest clk (S k) calls
      end
  end.

(** The [for face in small_faces] loop of the registration branch. *)
Fixpoint register_loop (h : heap) (l : loc) (scale_factor : float)
    (small_faces : list FaceInfo) : heap * res unit :=
  match small_faces with
  | [] => (h, Ok tt)
  | face :: rest =>
      match scale_face scale_factor face with
      | Raise e => (h, Raise e)
      | Ok scaled => register_loop (heap_append h l scaled) l scale_factor rest
      end
  end.

(** What [except Exception as e: print(...)] makes of a result. *)
Definition caught (r : res unit) : option exn :=
  match r with
  | Ok _ => None
  | Raise e => Some e
  end.

(** [_update_camera()] for one tick of the timer.  [frame] is what
    [self.camera.read_frame()] returned, a frame being represented by what
    the detector reports on its downscaled copy.  The pixels and the size of
    the frame are not part of this representation: of the ways [cv2.resize]
    can fail only the rejection of a factor that is not positive is kept,
    and a frame is taken to be large enough for its downscaled copy to have
    at least one pixel in each direction, as the 640 x 480 frames of the
    camera are at the working scale 0.5 that [__init__] sets.  The result is
    the new object, the new store, the faces handed to [_process_attendance]
    and the exception the handler printed, if any.  Drawing and the Tk calls
    are left out. *)
Definition _update_camera (self : FaceAttendanceApp) (h : heap)
    (frame : option (list Face)) (clk : nat -> clock)
  : FaceAttendanceApp * heap * list FaceInfo * option exn :=
  if negb (is_running self) then (self, h, [], None)
  else
    match frame with
    | None => (self, h, [], None)
    | Some faces =>
        let self := set_frame_count self (frame_count self + 1) in
        if process_every_n_frames self =? 0
        then (self, h, [], Some ZeroDivisionError)
        else if frame_count self mod process_every_n_frames self =? 0 then
          if negb (PrimFloat.ltb 0%float (recognition_scale self))
          then (self, h, [], Some Cv2Error)
          else if String.eqb (current_mode self) "attendance" then
            match recognize_faces (face_module self) faces with
            | Raise e => (self, h, [], Some e)
            | Ok small_faces =>
                let l := fresh (dom h) in
                let self := set_last_faces self l in
                let h := <[l := []]> h in
                match py_float_div 1%float (recognition_scale self) with
                | Raise e => (self, h, [], Some e)
                | Ok scale_factor =>
                    let '(self, h, calls, r) :=
                      attendance_loop self h scale_factor small_faces clk 0%nat [] in
                    (self, h, calls, caught r)
                end
            end
          else
            let small_faces := detect_faces faces in
            let l := fresh (dom h) in
            let self := set_last_faces self l in
            let h := <[l := []]> h in
            match py_float_div 1%float (recognition_scale self) with
            | Raise e => (self, h, [], Some e)
            | Ok scale_factor =>
                let '(h, r) := register_loop h l scale_factor small_faces in
                (self, h, [], caught r)
            end
        else (self, h, [], None)
    end.

(** The four coordinates of a box of the working frame lie within
    [coordinate_bound]. *)
Definition within_coordinate_bound (face : FaceInfo) : Prop :=
  let '(top, right_, bottom, left_) := location face in
  Z.abs top <= coordinate_bound /\ Z.abs right_ <= coordinate_bound /\
  Z.abs bottom <= coordinate_bound /\ Z.abs left_ <= coordinate_bound.

(** The attributes no tick of the camera loop assigns. *)
Definition same_config (a b : FaceAttendanceApp) : Prop :=
  face_module a = face_module b /\ is_running a = is_running b /\
  current_mode a = current_mode b /\
  process_every_n_frames a = process_every_n_frames b /\
  recognition_scale a = recognition_scale b.

(** The camera loop over a stream of ticks: the states after each tick,
    oldest first. *)
Fixpoint run (self : FaceAttendanceApp) (h : heap)
    (ticks : list (option (list Face) * (nat -> clock)))
  : list (FaceAttendanceApp * heap * list FaceInfo * option exn) :=
  match ticks with
  | [] => []
  | (frame, clk) :: rest =>
      let '(self', h', calls, e) := _update_camera self h frame clk in
      (self', h', calls, e) :: run self' h' rest
  end.

(** The object and the store a tick starts from: the initial ones for the
    first tick, those the previous tick left otherwise. *)
Definition state_before (self : FaceAttendanceApp) (h : heap)
    (outs : list (FaceAttendanceApp * heap * list FaceInfo * option exn))
    (i : nat) : FaceAttendanceApp * heap :=
  match i with
  | O => (self, h)
  | S j =>
      match outs !! j with
      | Some (self', h', _, _) => (self', h')
      | None => (self, h)
      end
  end.

End V1.

(* ===================================================================== *)
(** * v2_google_sheet_pc/main.py                                          *)
(* ===================================================================== *)

Module V2.
Import Database FaceRecognition.

(** The attributes of [ModernFaceApp] that [_process_attendance] reads and
    writes; the overlay text stands for the interface feedback, and the
    spreadsheet upload is left out. *)
Record ModernFaceApp : Type := mkApp {
  db : DatabaseManager;
  recognition_cooldown : gmap (option Z) float;
  overlay_label : string
}.

(** [_process_attendance(face)] *)
Definition _process_attendance (self : ModernFaceApp) (face : FaceInfo)
    (clk : clock) : ModernFaceApp * res unit :=
  let uid := user_id face in
  let current_time := time_time clk in
  let '(go, cooldown) :=
    should_trigger (recognition_cooldown self) uid current_time 10%float in
  if go then
    match uid with
    | Some u =>
        let '(db', r) :=
          record_attendance (db self) u "in" (date_today clk) (datetime_now clk) in
        match r with
        | Ok (true, msg) =>
            ({| db := db'; recognition_cooldown := cooldown;
                overlay_label := ("환영합니다, " ++ name face ++ "님!")%string |},
             Ok tt)
        | Ok (false, msg) =>
            ({| db := db'; recognition_cooldown := cooldown;
                overlay_label := overlay_label self |}, Ok tt)
        | Raise e =>
            ({| db := db'; recognition_cooldown := cooldown;
                overlay_label := overlay_label self |}, Raise e)
        end
    | None =>
        ({| db := db self; recognition_cooldown := cooldown;
            overlay_label := overlay_label self |}, Raise IntegrityError)
    end
  else (self, Ok tt).

End V2.


(* ===================================================================== *)
(** * database.py: the users table and the remaining queries              *)
(* ===================================================================== *)

Module DatabaseUsers.
Import Database.

(** One row of [users]; [created_at] and [updated_at], which none of the
    methods below selects, are left out.  The [face_encoding] column holds
    the JSON text [json.dumps(face_encoding.tolist())]; it is represented by
    the list of floats that text denotes, which is what [json.loads] gives
    back. *)
Record user_row : Type := mkUser {
  usr_id : Z;
  usr_name : string;
  usr_department : string;
  usr_face_encoding : list float;
  usr_photo_path : string
}.

(** The whole database: the users table with its AUTOINCREMENT counter, and
    the attendance table. *)
Record Store : Type := mkStore {
  users : list user_row;
  users_seq : Z;
  attendance_db : DatabaseManager
}.

(** [add_user(name, face_encoding, department, photo_path)]: the INSERT and
    [cursor.lastrowid]. *)
Definition add_user (s : Store) (name : string) (face_encoding : list float)
    (department photo_path : string) : Store * Z :=
  let new_id := users_seq s + 1 in
  ({| users := (users s ++
        [ {| usr_id := new_id; usr_name := name; usr_department := department;
             usr_face_encoding := face_encoding;
             usr_photo_path := photo_path |} ])%list;
      users_seq := new_id;
      attendance_db := attendance_db s |}, new_id).

(** [get_user_by_id(user_id)]: [fetchone()] of the SELECT by id. *)
Definition get_user_by_id (s : Store) (user_id : Z) : option user_row :=
  List.find (fun u => usr_id u =? user_id) (users s).

(** [get_all_face_encodings()]: one [(user_id, name, encoding)] per row, in
    table order. *)
Definition get_all_face_encodings (s : Store) : list (Z * string * list float) :=
  map (fun u => (usr_id u, usr_name u, usr_face_encoding u)) (users s).

(** [delete_user(user_id)]: both DELETEs; nothing in them can fail, so the
    method returns [True]. *)
Definition delete_user (s : Store) (user_id : Z) : Store * bool :=
  ({| users := List.filter (fun u => negb (usr_id u =? user_id)) (users s);
      users_seq := users_seq s;
      attendance_db :=
        {| attendance :=
             List.filter (fun r => negb (att_user_id r =? user_id))
                         (attendance (attendance_db s));
           attendance_seq := attendance_seq (attendance_db s) |} |}, true).

(** [get_today_attendance_count()], with [today] the value of
    [date.today()]. *)
Definition get_today_attendance_count (db : DatabaseManager) (today : date) : nat :=
  length (List.filter (fun r => bool_decide (att_date r = today)) (attendance db)).

(** [get_total_user_count()] *)
Definition get_total_user_count (s : Store) : nat := length (users s).

(** What the schema and [record_attendance] guarantee of the attendance
    table: UNIQUE(user_id, date), the primary key, ids handed out by
    AUTOINCREMENT, and a check-in time on every row (so a check-out time
    never stands alone). *)
Definition attendance_wf (db : DatabaseManager) : Prop :=
  NoDup (map (fun r => (att_user_id r, att_date r)) (attendance db)) /\
  NoDup (map att_id (attendance db)) /\
  Forall (fun r => att_id r <= attendance_seq db) (attendance db) /\
  Forall (fun r => att_check_in_time r <> None) (attendance db).

(** The same for the users table: the primary key and AUTOINCREMENT. *)
Definition users_wf (s : Store) : Prop :=
  NoDup (map usr_id (users s)) /\
  Forall (fun u => usr_id u <= users_seq s) (users s).

End DatabaseUsers.

(* ===================================================================== *)
(** * Registration in v1_basic_local/main.py                              *)
(* ===================================================================== *)

Module V1Registration.
Import Database DatabaseUsers Np FaceRecognition.

(** [encode_face_from_frame(frame)] of the face module, on the detector's
    output for the frame. *)
Definition encode_face_from_frame (faces : list Face) : option vec :=
  match faces with
  | [] => None
  | face :: _ => embedding face
  end.

(** The attributes [_capture_and_register] and [_load_face_data] read and
    write. *)
Record Registrar : Type := mkRegistrar {
  store : Store;
  face_module : FaceRecognitionModule;
  captured_frame : option (list Face)
}.

(** The message box a call ends with. *)
Inductive dialog : Type :=
| ShowWarning (text : string)
| ShowInfo (text : string)
| ShowError (e : exn).

(** [_load_face_data()] *)
Definition _load_face_data (self : Registrar) : Registrar * res unit :=
  let face_data := get_all_face_encodings (store self) in
  let '(fm, r) := load_known_faces (face_module self) face_data in
  ({| store := store self; face_module := fm;
      captured_frame := captured_frame self |}, r).

(** [_capture_and_register()].  [name] and [department] are the stripped
    entry texts and [photo_path] the path built from the name and the
    clock; writing the photo and refreshing the widgets are left out. *)
Definition _capture_and_register (self : Registrar)
    (name department photo_path : string) : Registrar * dialog :=
  if String.eqb name "" then (self, ShowWarning "이름을 입력해주세요.")
  else
    match captured_frame self with
    | None => (self, ShowWarning "카메라를 먼저 시작해주세요.")
    | Some frame =>
        match encode_face_from_frame frame with
        | None =>
            (self, ShowWarning "얼굴을 인식할 수 없습니다.
카메라에 얼굴이 잘 보이도록 해주세요.")
        | Some encoding =>
            let '(store', user_id) :=
              add_user (store self) name encoding department photo_path in
            let self := {| store := store'; face_module := face_module self;
                           captured_frame := captured_frame self |} in
            let '(self, r) := _load_face_data self in
            match r with
            | Ok _ => (self, ShowInfo (name ++ "님의 얼굴이 등록되었습니다!")%string)
            | Raise e => (self, ShowError e)
            end
        end
    end.

End V1Registration.

(* ===================================================================== *)
(** * The camera loop and the log of v2_google_sheet_pc/main.py           *)
(* ===================================================================== *)

Module V2Camera.
Import Database Np FaceRecognition.

(** [ModernFaceApp] with the attributes [_update_camera_frame] uses on top
    of those of [_process_attendance]. *)
Record Camera : Type := mkCamera {
  app : V2.ModernFaceApp;
  face_module : FaceRecognitionModule;
  last_faces : list FaceInfo;
  is_running : bool
}.

(** [for face in self.last_faces: if face.name != "Unknown":
     self._process_attendance(face)]; [clk k] is the clock reading the call
    for the [k]-th face sees.  Nothing catches an exception here. *)
Fixpoint attendance_loop (a : V2.ModernFaceApp) (faces : list FaceInfo)
    (clk : nat -> clock) (k : nat) : V2.ModernFaceApp * res unit :=
  match faces with
  | [] => (a, Ok tt)
  | face :: rest =>
      if negb (String.eqb (name face) "Unknown") then
        let '(a, r) := V2._process_attendance a face (clk k) in
        match r with
        | Ok _ => attendance_loop a rest clk (S k)
        | Raise e => (a, Raise e)
        end
      else attendance_loop a rest clk (S k)
  end.

(** [_update_camera_frame()] for one tick.  [frame] is what
    [read_frame()] returned (a frame being the detector's output on it),
    [current_tab] the selected tab and [now] the [time.time()] of the
    throttle test.  The result is the new object, the faces handed to
    [draw_face_boxes], and the exception that leaves the method, if any. *)
Definition _update_camera_frame (self : Camera) (frame : option (list Face))
    (current_tab : string) (now : float) (clk : nat -> clock)
  : Camera * list FaceInfo * res unit :=
  if negb (is_running self) then (self, [], Ok tt)
  else
    match frame with
    | None => (self, [], Ok tt)
    | Some faces =>
        if String.eqb current_tab "관리자 모드"
        then (self, detect_faces faces, Ok tt)
        else
          match py_int (PrimFloat.mul now 10%float) with
          | Raise e => (self, [], Raise e)
          | Ok tenths =>
              if tenths mod 3 =? 0 then
                match recognize_faces (face_module self) faces with
                | Raise e => (self, [], Raise e)
                | Ok result =>
                    let '(a, r) := attendance_loop (app self) result clk 0%nat in
                    let self := {| app := a; face_module := face_module self;
                                   last_faces := result;
                                   is_running := is_running self |} in
                    match r with
                    | Ok _ => (self, result, Ok tt)
                    | Raise e => (self, [], Raise e)
                    end
                end
              else (self, last_faces self, Ok tt)
          end
    end.

(** [_add_log_item(name, time_str)] on the cards of the log frame, oldest
    first: the new card is packed last, and beyond twenty cards the first
    one is destroyed. *)
Definition _add_log_item (cards : list (string * string)) (name time_str : string)
  : list (string * string) :=
  let cards := (cards ++ [(name, time_str)])%list in
  if Nat.ltb 20 (length cards) then tl cards else cards.

End V2Camera.

(* ===================================================================== *)
(** * Reading the outcome of a camera tick                                *)
(* ===================================================================== *)

Module V1Outcome.
Import FaceRecognition V1.

(** The components of what one [_update_camera] tick returns. *)
Definition app_of (out : FaceAttendanceApp * heap * list FaceInfo * option exn)
  : FaceAttendanceApp := fst (fst (fst out)).
Definition heap_of (out : FaceAttendanceApp * heap * list FaceInfo * option exn)
  : heap := snd (fst (fst out)).
Definition handed_faces (out : FaceAttendanceApp * heap * list FaceInfo * option exn)
  : list FaceInfo := snd (fst out).
Definition printed (out : FaceAttendanceApp * heap * list FaceInfo * option exn)
  : option exn := snd out.

(** The tick called [_process_attendance] at least once. *)
Definition attended (out : FaceAttendanceApp * heap * list FaceInfo * option exn)
  : bool := negb (Nat.eqb (length (handed_faces out)) 0).

End V1Outcome.

(* ===================================================================== *)
(** * Concrete inputs used by the examples below                          *)
(* ===================================================================== *)

Module Examples.
Import Database Np FaceRecognition.

Definition empty_db : DatabaseManager := {| attendance := []; attendance_seq := 0 |}.
Definition day : date := mkDate 2024 3 4.
Definition morning : datetime := mkDatetime day 9 5 7 0.
Definition evening : datetime := mkDatetime day 18 30 0 0.

(** Three identities in the plane; "A" and "C" point the same way. *)
Definition registry_abc : list (Z * string * list float) :=
  [(1, "A", [1; 0]%float); (2, "B", [0; 1]%float); (3, "C", [3; 0]%float)].

(** One identity in dimension five. *)
Definition registry_a5 : list (Z * string * list float) :=
  [(1, "A", [1; 0; 0; 0; 0]%float)].

(** Its similarity to [registry_a5]'s identity is exactly 0.49, resp. 0.5:
    the norms are 100 and 2. *)
Definition query_049 : list float := [49; 87; 5; 2; 1]%float.
Definition query_050 : list float := [1; 1; 1; 1; 0]%float.

Definition face_of (e : list float) : Face :=
  {| bbox := (10, 20, 30, 40); embedding := Some e; det_score := 0.9%float |}.

(** A registry before, and a [face_data] with rows of lengths 2 and 3. *)
Definition registry_a : list (Z * string * list float) := [(1, "A", [1; 0]%float)].
Definition ragged : list (Z * string * list float) :=
  [(2, "B", [1; 0]%float); (3, "C", [1; 0; 0]%float)].

(** An identity enrolled under the name the module uses for "no match". *)
Definition registry_unknown : list (Z * string * list float) :=
  [(7, "Unknown", [1; 0]%float)].

(** The cooldown map after identity 1 triggered at [t = 1700000000]. *)
Definition after_trigger : gmap (option Z) float :=
  snd (should_trigger ∅ (Some 1) 1700000000%float 5%float).

(** A running v1 application in attendance mode that processes every
    [n]-th frame at working scale [scale], on the registry [registry_a5]. *)
Definition app_with (n : Z) (scale : float) : V1.FaceAttendanceApp :=
  V1.mkApp empty_db (loaded_module 0.5 registry_a5) true "attendance" ∅ 0 n
           0%nat scale "".

Definition clock_at : nat -> clock :=
  fun _ => {| time_time := 1700000000%float; date_today := day;
              datetime_now := morning |}.

(** A detection without embedding whose box has all coordinates [c]. *)
Definition face_at (c : Z) : Face :=
  {| bbox := (c, c, c, c); embedding := None; det_score := 0.9%float |}.

Definition three_frames : list (list Face * (nat -> clock)) :=
  [([face_of query_050], clock_at); ([face_at 3], clock_at);
   ([face_of query_049], clock_at)].

End Examples.

(* ===================================================================== *)
(** * Further concrete inputs                                             *)
(* ===================================================================== *)

Module MoreExamples.
Import Database DatabaseUsers Np FaceRecognition.

Definition empty_store : Store :=
  {| users := []; users_seq := 0; attendance_db := Examples.empty_db |}.

(** Two users, "A" (id 1) and "B" (id 2). *)
Definition store_ab : Store :=
  fst (add_user (fst (add_user empty_store "A" [1; 0]%float "dev" "a.jpg"))
                "B" [0; 1]%float "ops" "b.jpg").

(** A registrar with an empty database, a fresh face module and a captured
    frame showing one face with embedding [e]. *)
Definition registrar_with (e : list float) : V1Registration.Registrar :=
  {| V1Registration.store := empty_store;
     V1Registration.face_module := init 0.5;
     V1Registration.captured_frame := Some [Examples.face_of e] |}.

(** The entry [recognize_faces] reports for identity 1 ("A"), and a clock
    reading two seconds after [Examples.clock_at]. *)
Definition seen_a : FaceInfo :=
  {| location := (20, 30, 40, 10); encoding := Some Examples.query_050;
     name := "A"; user_id := Some 1; confidence := 0.5%float;
     detection_score := 0.9%float |}.

Definition two_seconds_later : clock :=
  {| time_time := 1700000002%float; date_today := Examples.day;
     datetime_now := Examples.morning |}.

(** A running v2 application on the registry [Examples.registry_a5]. *)
Definition v2_camera : V2Camera.Camera :=
  {| V2Camera.app := {| V2.db := Examples.empty_db;
                        V2.recognition_cooldown := ∅;
                        V2.overlay_label := "" |};
     V2Camera.face_module := loaded_module 0.5 Examples.registry_a5;
     V2Camera.last_faces := [];
     V2Camera.is_running := true |}.

(** Three enrolled users, the second with an all-zero embedding. *)
Definition registry_azc : list (Z * string * vec) :=
  [(1, "A", [1; 0]%float); (2, "Z", [0; 0]%float); (3, "C", [0; 1]%float)].

End MoreExamples.

(* ===================================================================== *)
(** * Properties of the attendance ledger                                 *)
(* ===================================================================== *)

Section Ledger.
Import Database.

Lemma find_snoc {A : Type} (f : A -> bool) (l : list A) (x : A) :
  List.find f l = None ->
  List.find f (l ++ [x])%list = if f x then Some x else None.
Proof.
  induction l as [|y l IH]; simpl; [reflexivity|].
  destruct (f y); [discriminate | exact IH].
Qed.

Lemma find_none_existsb {A : Type} (f : A -> bool) (l : list A) :
  List.find f l = None -> existsb f l = false.
Proof.
  induction l as [|y l IH]; simpl; [reflexivity|].
  destruct (f y); [discriminate | exact IH].
Qed.

Lemma find_map_stable {A : Type} (f : A -> bool) (g : A -> A) (l : list A) :
  (forall x, f (g x) = f x) ->
  List.find f (map g l) = option_map g (List.find f l).
Proof.
  intros Hfg. induction l as [|y l IH]; simpl; [reflexivity|].
  rewrite Hfg. destruct (f y); [reflexivity | exact IH].
Qed.

Lemma row_matches_self (A : Z) (d : date) (r : attendance_row) :
  att_user_id r = A -> att_date r = d -> row_matches A d r = true.
Proof.
  intros <- <-. unfold row_matches.
  rewrite Z.eqb_refl, bool_decide_eq_true_2; reflexivity.
Qed.

Lemma select_existing_matches (db : DatabaseManager) (A : Z) (d : date)
    (row : attendance_row) :
  select_existing db A d = Some row -> att_user_id row = A /\ att_date row = d.
Proof.
  unfold select_existing. intros H.
  apply List.find_some in H as [_ H]. unfold row_matches in H.
  apply andb_true_iff in H as [H1 H2].
  apply Z.eqb_eq in H1. apply bool_decide_eq_true_1 in H2. auto.
Qed.

(** A first check-in inserts the row and reports success. *)
Lemma check_in_fresh (db : DatabaseManager) (A : Z) (d : date) (now : datetime) :
  select_existing db A d = None ->
  exists db1,
    record_attendance db A "in" d now
      = (db1, Ok (true, ("출근 체크 완료! (" ++ strftime_HMS now ++ ")")%string)) /\
    select_existing db1 A d
      = Some {| att_id := attendance_seq db + 1; att_user_id := A;
                att_check_in_time := Some now; att_check_out_time := None;
                att_date := d; att_status := "present" |}.
Proof.
  intros Hnone. unfold record_attendance, insert_attendance.
  rewrite Hnone. simpl String.eqb. cbv iota.
  unfold select_existing in Hnone.
  rewrite (find_none_existsb _ _ Hnone).
  eexists; split; [reflexivity|].
  unfold select_existing; simpl attendance.
  rewrite (find_snoc _ _ _ Hnone).
  rewrite row_matches_self; reflexivity.
Qed.

(** A check-in when a row exists is rejected and writes nothing. *)
Lemma check_in_existing (db : DatabaseManager) (A : Z) (d : date) (now : datetime)
    (row : attendance_row) :
  select_existing db A d = Some row ->
  record_attendance db A "in" d now = (db, rejected AlreadyCheckedIn).
Proof. intros H. unfold record_attendance. rewrite H. reflexivity. Qed.

(** Any request other than ["in"] takes the check-out branch. *)
Lemma not_in_eqb (check_type : string) :
  check_type <> "in" -> String.eqb check_type "in" = false.
Proof. intros H. apply String.eqb_neq. exact H. Qed.

Lemma check_out_missing (db : DatabaseManager) (A : Z) (d : date) (now : datetime)
    (check_type : string) :
  check_type <> "in" ->
  select_existing db A d = None ->
  record_attendance db A check_type d now = (db, rejected NotCheckedIn).
Proof.
  intros Hct H. unfold record_attendance. rewrite (not_in_eqb _ Hct), H. reflexivity.
Qed.

Lemma check_out_done (db : DatabaseManager) (A : Z) (d : date) (now : datetime)
    (check_type : string) (row : attendance_row) (t : datetime) :
  check_type <> "in" ->
  select_existing db A d = Some row ->
  att_check_out_time row = Some t ->
  record_attendance db A check_type d now = (db, rejected AlreadyCheckedOut).
Proof.
  intros Hct H Ht. unfold record_attendance.
  rewrite (not_in_eqb _ Hct), H, Ht. reflexivity.
Qed.

Lemma check_out_open (db : DatabaseManager) (A : Z) (d : date) (now : datetime)
    (check_type : string) (row : attendance_row) :
  check_type <> "in" ->
  select_existing db A d = Some row ->
  att_check_out_time row = None ->
  record_attendance db A check_type d now
    = (update_check_out db now (att_id row),
       Ok (true, ("퇴근 체크 완료! (" ++ strftime_HMS now ++ ")")%string)) /\
  select_existing (update_check_out db now (att_id row)) A d
    = Some {| att_id := att_id row; att_user_id := att_user_id row;
              att_check_in_time := att_check_in_time row;
              att_check_out_time := Some now;
              att_date := att_date row; att_status := att_status row |}.
Proof.
  intros Hct H Ht. split.
  - unfold record_attendance. rewrite (not_in_eqb _ Hct), H, Ht. reflexivity.
  - unfold select_existing, update_check_out in *. simpl attendance.
    rewrite find_map_stable.
    + rewrite H. simpl. rewrite Z.eqb_refl. reflexivity.
    + intros x. destruct (att_id x =? att_id row); reflexivity.
Qed.

(** [record_attendance] never raises: the INSERT is only reached when the
    SELECT found no row, so the UNIQUE constraint cannot fire. *)
Lemma record_attendance_returns (db : DatabaseManager) (A : Z) (ct : string)
    (d : date) (now : datetime) :
  exists db' success message,
    record_attendance db A ct d now = (db', Ok (success, message)).
Proof.
  unfold record_attendance.
  destruct (select_existing db A d) as [row|] eqn:Hsel.
  - destruct (String.eqb ct "in"); [eauto|].
    destruct (truthy (att_check_out_time row)); eauto.
  - destruct (String.eqb ct "in"); [|eauto].
    unfold insert_attendance. unfold select_existing in Hsel.
    rewrite (find_none_existsb _ _ Hsel). eauto.
Qed.

(** C1.  The ledger is a state machine per (identity, day).  Starting from a
    table with no row for identity [A] on day [d]: a check-out is rejected
    with NotCheckedIn; a check-in succeeds and creates the row with
    [check_in_time = now] and no check-out time; a second check-in is
    rejected with AlreadyCheckedIn; the check-out then succeeds and sets
    [check_out_time]; a further check-out is rejected with
    AlreadyCheckedOut (and a further check-in with AlreadyCheckedIn).
    Every rejection is an ordinary [(False, message)] return value, not an
    exception, and returns the table exactly as it was. *)
Theorem ledger_state_machine (db : DatabaseManager) (A : Z) (d : date)
    (now1 now2 now3 : datetime) :
  select_existing db A d = None ->
  record_attendance db A "out" d now1 = (db, rejected NotCheckedIn) /\
  exists db1 row1,
    record_attendance db A "in" d now1
      = (db1, Ok (true, ("출근 체크 완료! (" ++ strftime_HMS now1 ++ ")")%string)) /\
    select_existing db1 A d = Some row1 /\
    att_user_id row1 = A /\ att_date row1 = d /\
    att_check_in_time row1 = Some now1 /\ att_check_out_time row1 = None /\
    record_attendance db1 A "in" d now2 = (db1, rejected AlreadyCheckedIn) /\
    exists db2 row2,
      record_attendance db1 A "out" d now2
        = (db2, Ok (true, ("퇴근 체크 완료! (" ++ strftime_HMS now2 ++ ")")%string)) /\
      select_existing db2 A d = Some row2 /\
      att_check_in_time row2 = Some now1 /\ att_check_out_time row2 = Some now2 /\
      record_attendance db2 A "out" d now3 = (db2, rejected AlreadyCheckedOut) /\
      record_attendance db2 A "in" d now3 = (db2, rejected AlreadyCheckedIn).
Proof.
  intros Hnone.
  assert (Hout : "out" <> "in") by discriminate.
  split; [exact (check_out_missing db A d now1 "out" Hout Hnone)|].
  destruct (check_in_fresh db A d now1 Hnone) as (db1 & Hin & Hsel1).
  eexists db1, _. split; [exact Hin|]. split; [exact Hsel1|].
  repeat (split; [reflexivity|]).
  split; [exact (check_in_existing db1 A d now2 _ Hsel1)|].
  destruct (check_out_open db1 A d now2 "out" _ Hout Hsel1 eq_refl) as [Hco Hsel2].
  eexists _, _. split; [exact Hco|]. split; [exact Hsel2|].
  repeat (split; [reflexivity|]).
  split.
  - exact (check_out_done _ A d now3 "out" _ now2 Hout Hsel2 eq_refl).
  - exact (check_in_existing _ A d now3 _ Hsel2).
Qed.

Lemma ledger_state_machine_witness :
  record_attendance Examples.empty_db 7 "out" Examples.day Examples.morning
  = (Examples.empty_db, rejected NotCheckedIn).
Proof.
  exact (proj1 (ledger_state_machine Examples.empty_db 7 Examples.day
                  Examples.morning Examples.evening Examples.evening eq_refl)).
Defined.

(** C9.  [record_attendance] tests only [check_type == "in"]: every other
    string behaves as ["out"] does, so it is rejected with NotCheckedIn when
    the day has no row, with AlreadyCheckedOut when the row already has a
    check-out time, and otherwise performs the check-out. *)
Theorem any_other_check_type_is_check_out (db : DatabaseManager) (A : Z)
    (check_type : string) (d : date) (now : datetime) :
  check_type <> "in" ->
  record_attendance db A check_type d now = record_attendance db A "out" d now /\
  (select_existing db A d = None ->
   record_attendance db A check_type d now = (db, rejected NotCheckedIn)) /\
  (forall row t, select_existing db A d = Some row ->
                 att_check_out_time row = Some t ->
   record_attendance db A check_type d now = (db, rejected AlreadyCheckedOut)) /\
  (forall row, select_existing db A d = Some row ->
               att_check_out_time row = None ->
   record_attendance db A check_type d now
     = (update_check_out db now (att_id row),
        Ok (true, ("퇴근 체크 완료! (" ++ strftime_HMS now ++ ")")%string))).
Proof.
  intros Hct. split; [|split; [|split]].
  - unfold record_attendance. rewrite (not_in_eqb _ Hct). reflexivity.
  - intros H. exact (check_out_missing db A d now check_type Hct H).
  - intros row t H Ht. exact (check_out_done db A d now check_type row t Hct H Ht).
  - intros row H Ht. exact (proj1 (check_out_open db A d now check_type row Hct H Ht)).
Qed.

Lemma any_other_check_type_is_check_out_witness :
  record_attendance Examples.empty_db 7 "IN" Examples.day Examples.evening
  = record_attendance Examples.empty_db 7 "out" Examples.day Examples.evening.
Proof.
  refine (proj1 (any_other_check_type_is_check_out Examples.empty_db 7 "IN"
                   Examples.day Examples.evening _)).
  discriminate.
Defined.

End Ledger.

(* ===================================================================== *)
(** * The order on floats                                                 *)
(* ===================================================================== *)

Section FloatOrder.

Ltac sf_compare_cases :=
  repeat match goal with
         | s : bool |- _ => destruct s
         end;
  cbn [SFcompare SFleb SFltb CompOpp] in *;
  repeat match goal with
         | |- context [Z.compare ?a ?b] => destruct (Z.compare_spec a b)
         | H : context [Z.compare ?a ?b] |- _ => destruct (Z.compare_spec a b)
         | |- context [PosDef.Pos.compare_cont Eq ?a ?b] =>
             change (PosDef.Pos.compare_cont Eq a b) with (Pos.compare a b);
             destruct (Pos.compare_spec a b)
         | H : context [PosDef.Pos.compare_cont Eq ?a ?b] |- _ =>
             change (PosDef.Pos.compare_cont Eq a b) with (Pos.compare a b) in H;
             destruct (Pos.compare_spec a b)
         end;
  cbn [CompOpp] in *; try congruence; try lia.

Lemma SFleb_trans (x y z : spec_float) :
  SFleb x y = true -> SFleb y z = true -> SFleb x z = true.
Proof.
  unfold SFleb.
  destruct x as [sx|sx| |sx mx ex], y as [sy|sy| |sy my ey], z as [sz|sz| |sz mz ez];
    intros Hxy Hyz; sf_compare_cases.
Qed.

Lemma SFleb_false (x y : spec_float) :
  x <> S754_nan -> y <> S754_nan -> SFleb x y = false -> SFltb y x = true.
Proof.
  unfold SFleb, SFltb.
  destruct x as [sx|sx| |sx mx ex], y as [sy|sy| |sy my ey];
    intros Hx Hy H; sf_compare_cases.
Qed.

Lemma SFltb_false (x y : spec_float) :
  x <> S754_nan -> y <> S754_nan -> SFltb x y = false -> SFleb y x = true.
Proof.
  unfold SFleb, SFltb.
  destruct x as [sx|sx| |sx mx ex], y as [sy|sy| |sy my ey];
    intros Hx Hy H; sf_compare_cases.
Qed.

Lemma SFltb_true (x y : spec_float) : SFltb x y = true -> SFleb y x = false.
Proof.
  unfold SFleb, SFltb.
  destruct x as [sx|sx| |sx mx ex], y as [sy|sy| |sy my ey];
    intros H; sf_compare_cases.
Qed.

Lemma SFleb_refl (x : spec_float) : x <> S754_nan -> SFleb x x = true.
Proof.
  unfold SFleb. destruct x as [sx|sx| |sx mx ex]; intros Hx; sf_compare_cases.
Qed.

Lemma SFleb_not_nan (x y : spec_float) :
  SFleb x y = true -> x <> S754_nan /\ y <> S754_nan.
Proof.
  unfold SFleb. destruct x, y; simpl; intros H; split; congruence.
Qed.

Lemma is_nan_spec (x : float) :
  PrimFloat.is_nan x = true <-> Prim2SF x = S754_nan.
Proof.
  unfold PrimFloat.is_nan. rewrite FloatAxioms.eqb_spec. unfold SFeqb.
  destruct (Prim2SF x) as [sx|sx| |sx mx ex]; sf_compare_cases;
    split; intros Hn; simpl in *; congruence.
Qed.

Lemma is_nan_false (x : float) :
  PrimFloat.is_nan x = false <-> Prim2SF x <> S754_nan.
Proof.
  rewrite <- is_nan_spec. destruct (PrimFloat.is_nan x); split; congruence.
Qed.

Lemma ltb_zero_eqb (x : float) :
  PrimFloat.ltb 0%float x = true -> PrimFloat.eqb x 0%float = false.
Proof.
  rewrite ltb_spec, FloatAxioms.eqb_spec.
  change (Prim2SF 0%float) with (S754_zero false).
  unfold SFltb, SFeqb. destruct (Prim2SF x) as [sx|sx| |sx mx ex];
    intros H; sf_compare_cases.
Qed.

Lemma leb_trans (x y z : float) :
  PrimFloat.leb x y = true -> PrimFloat.leb y z = true -> PrimFloat.leb x z = true.
Proof. rewrite !leb_spec. apply SFleb_trans. Qed.

Lemma leb_not_nan (x y : float) :
  PrimFloat.leb x y = true ->
  PrimFloat.is_nan x = false /\ PrimFloat.is_nan y = false.
Proof.
  rewrite leb_spec, !is_nan_false. apply SFleb_not_nan.
Qed.

Lemma leb_refl (x : float) :
  PrimFloat.is_nan x = false -> PrimFloat.leb x x = true.
Proof. rewrite leb_spec, is_nan_false. apply SFleb_refl. Qed.

Lemma leb_false_ltb (x y : float) :
  PrimFloat.is_nan x = false -> PrimFloat.is_nan y = false ->
  PrimFloat.leb x y = false -> PrimFloat.ltb y x = true.
Proof. rewrite leb_spec, ltb_spec, !is_nan_false. apply SFleb_false. Qed.

Lemma ltb_false_leb (x y : float) :
  PrimFloat.is_nan x = false -> PrimFloat.is_nan y = false ->
  PrimFloat.ltb x y = false -> PrimFloat.leb y x = true.
Proof. rewrite leb_spec, ltb_spec, !is_nan_false. apply SFltb_false. Qed.

Lemma ltb_true_leb (x y : float) :
  PrimFloat.ltb x y = true -> PrimFloat.leb y x = false.
Proof. rewrite leb_spec, ltb_spec. apply SFltb_true. Qed.

Import Np.

Lemma rank_le_refl (x : float) : rank_le x x = true.
Proof.
  unfold rank_le. destruct (PrimFloat.is_nan x) eqn:E; [reflexivity|].
  simpl. apply leb_refl, E.
Qed.

Lemma rank_le_total (x y : float) : rank_le x y = false -> rank_le y x = true.
Proof.
  unfold rank_le. intros H. apply orb_false_iff in H as [Hy Hxy].
  destruct (PrimFloat.is_nan x) eqn:Hx; [reflexivity|]. simpl.
  pose proof (leb_false_ltb x y Hx Hy Hxy) as Hlt.
  rewrite ltb_spec in Hlt. rewrite leb_spec.
  unfold SFltb in Hlt. unfold SFleb.
  destruct (SFcompare (Prim2SF y) (Prim2SF x)) as [[]|]; congruence.
Qed.

Lemma rank_le_trans (x y z : float) :
  rank_le x y = true -> rank_le y z = true -> rank_le x z = true.
Proof.
  unfold rank_le. intros Hxy Hyz.
  destruct (PrimFloat.is_nan z) eqn:Hz; [reflexivity|]. simpl in *.
  destruct (leb_not_nan _ _ Hyz) as [Hy _]. rewrite Hy in Hxy. simpl in Hxy.
  exact (leb_trans _ _ _ Hxy Hyz).
Qed.

(** Without NaN the ranking order is IEEE's. *)
Lemma rank_le_leb (x y : float) :
  PrimFloat.is_nan y = false -> rank_le x y = PrimFloat.leb x y.
Proof. unfold rank_le. intros ->. reflexivity. Qed.

Lemma rank_lt_ltb (x y : float) :
  PrimFloat.is_nan y = false -> rank_le x y = true -> rank_le y x = false ->
  PrimFloat.ltb x y = true.
Proof.
  intros Hy Hxy Hyx. rewrite (rank_le_leb _ _ Hy) in Hxy.
  destruct (leb_not_nan _ _ Hxy) as [Hx _].
  rewrite (rank_le_leb _ _ Hx) in Hyx.
  exact (leb_false_ltb _ _ Hy Hx Hyx).
Qed.

End FloatOrder.

(* ===================================================================== *)
(** * Properties of the embedding registry                                *)
(* ===================================================================== *)

Section Registry.
Import Np FaceRecognition.

(** ** [np.argmax] returns the first index of a maximal element *)

Lemma argmax_scan_spec (ip pre : list float) (mp : float) (max_ind : nat) :
  pre !! max_ind = Some mp ->
  (forall j x, pre !! j = Some x -> rank_le x mp = true) ->
  (forall j x, (j < max_ind)%nat -> pre !! j = Some x -> rank_le mp x = false) ->
  exists best,
    (pre ++ ip)%list !! argmax_scan ip (length pre) mp max_ind = Some best /\
    (forall j x, (pre ++ ip)%list !! j = Some x -> rank_le x best = true) /\
    (forall j x, (j < argmax_scan ip (length pre) mp max_ind)%nat ->
                 (pre ++ ip)%list !! j = Some x -> rank_le best x = false).
Proof.
  revert pre mp max_ind.
  induction ip as [|x ip IH]; intros pre mp max_ind Hmp Hle Hlt.
  - simpl. rewrite app_nil_r. eauto.
  - pose proof (lookup_lt_Some _ _ _ Hmp) as Hbound.
    simpl. destruct (PrimFloat.is_nan mp) eqn:Hnan.
    + exists mp. split; [apply lookup_app_l_Some; exact Hmp|]. split.
      * intros j y _. unfold rank_le. rewrite Hnan. reflexivity.
      * intros j y Hj Hy. apply (Hlt j y Hj).
        rewrite lookup_app_l in Hy by lia. exact Hy.
    + assert (Hshape : (pre ++ x :: ip)%list = ((pre ++ [x]) ++ ip)%list)
        by (rewrite <- app_assoc; reflexivity).
      assert (Hlen : S (length pre) = length (pre ++ [x])%list)
        by (rewrite length_app; simpl; lia).
      rewrite Hshape, Hlen.
      destruct (PrimFloat.leb x mp) eqn:Hx; simpl; apply IH.
      * apply lookup_app_l_Some. exact Hmp.
      * intros j y Hy. apply lookup_app_Some in Hy as [Hy|[_ Hy]].
        -- exact (Hle j y Hy).
        -- apply list_lookup_singleton_Some in Hy as [_ <-].
           unfold rank_le. rewrite Hnan, Hx. reflexivity.
      * intros j y Hj Hy. apply (Hlt j y Hj).
        rewrite lookup_app_l in Hy by lia. exact Hy.
      * rewrite lookup_app_r by lia. rewrite Nat.sub_diag. reflexivity.
      * assert (Hmx : rank_le mp x = true).
        { apply rank_le_total. unfold rank_le. rewrite Hnan, Hx. reflexivity. }
        intros j y Hy. apply lookup_app_Some in Hy as [Hy|[_ Hy]].
        -- exact (rank_le_trans _ _ _ (Hle j y Hy) Hmx).
        -- apply list_lookup_singleton_Some in Hy as [_ <-]. apply rank_le_refl.
      * intros j y Hj Hy. rewrite lookup_app_l in Hy by lia.
        destruct (rank_le x y) eqn:Hxy; [|reflexivity].
        pose proof (rank_le_trans _ _ _ Hxy (Hle j y Hy)) as Habs.
        unfold rank_le in Habs. rewrite Hnan, Hx in Habs. discriminate.
Qed.

Lemma np_argmax_spec (a : vec) :
  a <> [] ->
  exists i best,
    np_argmax a = Ok i /\ a !! i = Some best /\
    (forall j x, a !! j = Some x -> rank_le x best = true) /\
    (forall j x, (j < i)%nat -> a !! j = Some x -> rank_le best x = false).
Proof.
  destruct a as [|x ip]; [congruence|]. intros _.
  destruct (argmax_scan_spec ip [x] x 0%nat) as (best & H1 & H2 & H3).
  - reflexivity.
  - intros j y Hy. apply list_lookup_singleton_Some in Hy as [_ <-].
    apply rank_le_refl.
  - intros j y Hj. lia.
  - exists (argmax_scan ip 1 x 0), best. simpl in *. auto.
Qed.

Lemma lookup_map {A B : Type} (f : A -> B) (l : list A) (i : nat) :
  map f l !! i = option_map f (l !! i).
Proof.
  revert i. induction l as [|x l IH]; intros [|i]; simpl; auto.
Qed.

(** ** What [load_known_faces] leaves in the object *)

Lemma append_all_from (face_data : list (Z * string * vec))
    (encs : list vec) (names : list string) (ids : list Z) :
  fold_left
    (fun acc row =>
       let '(encs, names, ids) := acc in
       let '(uid, nm, enc) := row in
       ((encs ++ [enc])%list, (names ++ [nm])%list, (ids ++ [uid])%list))
    face_data (encs, names, ids)
  = ((encs ++ map row_encoding face_data)%list,
     (names ++ map row_name face_data)%list,
     (ids ++ map row_id face_data)%list).
Proof.
  revert encs names ids.
  induction face_data as [|[[uid nm] enc] fd IH]; intros encs names ids; simpl.
  - rewrite !app_nil_r. reflexivity.
  - rewrite IH, <- !app_assoc. reflexivity.
Qed.

Lemma append_all_spec (face_data : list (Z * string * vec)) :
  append_all face_data
  = (map row_encoding face_data, map row_name face_data, map row_id face_data).
Proof. unfold append_all. rewrite append_all_from. reflexivity. Qed.

Lemma np_array_ok (rows : list vec) (M : matrix) :
  np_array rows = Ok M -> M = rows.
Proof.
  unfold np_array. destruct rows as [|r rs]; [congruence|].
  case_match; congruence.
Qed.

Lemma np_array_lengths (rows : list vec) (M : matrix) (r r' : vec) :
  np_array rows = Ok M -> r ∈ rows -> r' ∈ rows -> length r = length r'.
Proof.
  unfold np_array. destruct rows as [|r0 rs]; [intros _ H; inversion H|].
  case_match eqn:Hall; [|discriminate]. intros _.
  assert (Hto : forall x, x ∈ r0 :: rs -> length x = length r0).
  { intros x Hx. apply elem_of_cons in Hx as [->|Hx]; [reflexivity|].
    rewrite forallb_forall in Hall. apply Nat.eqb_eq, Hall.
    apply list_elem_of_In. exact Hx. }
  intros Hr Hr'. rewrite (Hto _ Hr), (Hto _ Hr'). reflexivity.
Qed.

Lemma load_known_faces_returns (self st : FaceRecognitionModule)
    (face_data : list (Z * string * vec)) :
  load_known_faces self face_data = (st, Ok tt) ->
  st = loaded_module (tolerance self) face_data /\
  np_array (map row_encoding face_data) = Ok (map row_encoding face_data).
Proof.
  unfold load_known_faces. rewrite append_all_spec. unfold loaded_module.
  destruct (map row_encoding face_data) as [|r rs] eqn:Hencs.
  - intros H. injection H as <-. split; reflexivity.
  - destruct (np_array (r :: rs)) as [M|e] eqn:HM; [|discriminate].
    apply np_array_ok in HM as HMeq. subst M.
    intros H. injection H as <-. split; reflexivity.
Qed.

(** ** The similarities computed against a loaded registry *)

Lemma np_div_length (v : vec) (n : float) : length (np_div v n) = length v.
Proof. unfold np_div. apply length_map. Qed.

Lemma similarities_of_loaded (tol : float) (face_data : list (Z * string * vec))
    (e : vec) :
  face_data <> [] ->
  (forall row, row ∈ face_data -> length (row_encoding row) = length e) ->
  _compute_similarities_batch (loaded_module tol face_data) e
  = Ok (map (fun row =>
               dot_row (np_div (row_encoding row) (np_linalg_norm (row_encoding row)))
                       (np_div e (np_linalg_norm e)))
            face_data).
Proof.
  intros Hne Hdim. unfold _compute_similarities_batch, loaded_module. simpl.
  destruct face_data as [|row0 fd]; [congruence|].
  change (map row_encoding (row0 :: fd))
    with (row_encoding row0 :: map row_encoding fd) at 1.
  cbv iota. unfold np_dot_mv.
  rewrite !map_map.
  replace (forallb _ _) with true.
  - reflexivity.
  - symmetry. apply forallb_forall. intros r Hr.
    apply in_map_iff in Hr as (row & <- & Hrow).
    rewrite !np_div_length. apply Nat.eqb_eq, Hdim.
    apply list_elem_of_In. exact Hrow.
Qed.

Lemma compute_similarity_ok (a b : vec) :
  length a = length b ->
  _compute_similarity a b
  = Ok (dot_row (np_div a (np_linalg_norm a)) (np_div b (np_linalg_norm b))).
Proof.
  intros H. unfold _compute_similarity, np_dot_vv.
  rewrite !np_div_length, H, Nat.eqb_refl. reflexivity.
Qed.

(** The index [recognize_faces] settles on for a query against a loaded,
    non-empty registry. *)
Lemma best_match_loaded (tol : float) (face_data : list (Z * string * vec))
    (e : vec) :
  face_data <> [] ->
  (forall row, row ∈ face_data -> length (row_encoding row) = length e) ->
  exists sims i best,
    _compute_similarities_batch (loaded_module tol face_data) e = Ok sims /\
    length sims = length face_data /\
    (forall j row, face_data !! j = Some row ->
       exists s, sims !! j = Some s /\
                 _compute_similarity (row_encoding row) e = Ok s) /\
    best_match (loaded_module tol face_data) e = Ok (i, best) /\
    sims !! i = Some best /\
    (forall j s, sims !! j = Some s -> rank_le s best = true) /\
    (forall j s, (j < i)%nat -> sims !! j = Some s -> rank_le best s = false).
Proof.
  intros Hne Hdim.
  pose proof (similarities_of_loaded tol face_data e Hne Hdim) as Hsims.
  set (sims := map _ face_data) in Hsims.
  assert (Hlen : length sims = length face_data) by apply length_map.
  assert (Hsne : sims <> []).
  { intros Habs. rewrite Habs in Hlen. destruct face_data; [congruence|discriminate]. }
  destruct (np_argmax_spec sims Hsne) as (i & best & Harg & Hi & Hmax & Hfirst).
  exists sims, i, best. split; [exact Hsims|]. split; [exact Hlen|].
  split; [|split; [|auto]].
  - intros j row Hrow. eexists. split.
    + unfold sims. rewrite lookup_map, Hrow. reflexivity.
    + apply compute_similarity_ok, Hdim. eapply list_elem_of_lookup_2, Hrow.
  - unfold best_match. rewrite Hsims. simpl. rewrite Harg. simpl.
    unfold py_index. rewrite Hi. reflexivity.
Qed.

(** ** The batch similarities are the cosine similarities of the specification *)

Lemma fold_sum_of_products (a b : vec) (acc : float) :
  fold_left (fun acc xy => PrimFloat.add acc (PrimFloat.mul (fst xy) (snd xy)))
            (combine a b) acc
  = CosineSpec.sum_of_products acc a b.
Proof.
  revert b acc. induction a as [|x a IH]; intros [|y b] acc; simpl;
    try reflexivity.
  apply IH.
Qed.

Lemma fold_sum_of_squares (v : vec) (acc : float) :
  fold_left (fun acc x => PrimFloat.add acc (PrimFloat.mul x x)) v acc
  = CosineSpec.sum_of_products acc v v.
Proof.
  revert acc. induction v as [|x v IH]; intros acc; simpl; [reflexivity|].
  apply IH.
Qed.

Lemma np_linalg_norm_is_l2_norm (v : vec) :
  np_linalg_norm v = CosineSpec.l2_norm v.
Proof.
  unfold np_linalg_norm, CosineSpec.l2_norm. rewrite fold_sum_of_squares.
  reflexivity.
Qed.

Lemma np_div_is_divide_each (v : vec) (n : float) :
  np_div v n = CosineSpec.divide_each v n.
Proof.
  unfold np_div. induction v as [|x v IH]; simpl; [reflexivity|].
  rewrite IH. reflexivity.
Qed.

Lemma normalized_dot_is_cosine_similarity (a b : vec) :
  dot_row (np_div a (np_linalg_norm a)) (np_div b (np_linalg_norm b))
  = CosineSpec.cosine_similarity a b.
Proof.
  unfold dot_row, CosineSpec.cosine_similarity, CosineSpec.unit_normalized.
  rewrite fold_sum_of_products, !np_linalg_norm_is_l2_norm, !np_div_is_divide_each.
  reflexivity.
Qed.

Lemma similarities_are_cosine (tol : float) (face_data : list (Z * string * vec))
    (e : vec) :
  face_data <> [] ->
  (forall row, row ∈ face_data -> length (row_encoding row) = length e) ->
  _compute_similarities_batch (loaded_module tol face_data) e
  = Ok (map (fun row => CosineSpec.cosine_similarity (row_encoding row) e)
            face_data).
Proof.
  intros Hne Hdim. rewrite (similarities_of_loaded tol face_data e Hne Hdim).
  f_equal. apply map_ext. intros row. apply normalized_dot_is_cosine_similarity.
Qed.

(** Counterexample to C2 as worded.  With the enrolled embeddings (1,0),
    (0,0) and (0,1) and the query (0,1), the similarities are 0, NaN (the
    zero vector has no direction) and 1.  Index 2 attains the maximum
    cosine similarity, 1, which is the cosine similarity of the query with
    itself; [np.argmax] stops at the NaN and the query settles on index 1.
    Besides, a query whose dimension differs from the enrolled one returns
    no index at all. *)
Lemma first_nan_is_returned_over_the_maximum :
  exists st sims s,
    load_known_faces (init 0.5) MoreExamples.registry_azc = (st, Ok tt) /\
    _compute_similarities_batch st [0; 1]%float = Ok sims /\
    sims = map (fun row => CosineSpec.cosine_similarity (row_encoding row)
                                                        [0; 1]%float)
               MoreExamples.registry_azc /\
    sims !! 0%nat = Some 0%float /\
    sims !! 1%nat = Some s /\ PrimFloat.is_nan s = true /\
    sims !! 2%nat = Some 1%float /\
    CosineSpec.cosine_similarity [0; 1]%float [0; 1]%float = 1%float /\
    PrimFloat.ltb 0%float 1%float = true /\
    best_match st [0; 1]%float = Ok (1%nat, s) /\
    best_match st [0; 1; 0]%float = Raise ValueError.
Proof.
  eexists _, _, _. split; [reflexivity|].
  split; [vm_compute; reflexivity|].
  repeat (split; [vm_compute; reflexivity|]).
  vm_compute; reflexivity.
Qed.

(** C2, amended.  Against a registry loaded from a non-empty [face_data],
    and for a query embedding of the enrolled dimension, the query of
    [recognize_faces] computes one similarity per enrolled identity, in
    registry order: the cosine similarity of the enrolled embedding and the
    query, that is the dot product of the two after each is divided by its
    L2 norm.  It settles on an index [i] of these similarities, with the
    similarity [best] found there.  If none of the similarities is NaN,
    [i] is the lowest index attaining the maximum: every similarity is
    [<= best] and every one at a lower index is [< best].  If some
    similarity is NaN, [best] is NaN and [i] is the lowest index whose
    similarity is NaN. *)
Theorem query_returns_first_maximum (self st : FaceRecognitionModule)
    (face_data : list (Z * string * vec)) (e : vec) :
  face_data <> [] ->
  load_known_faces self face_data = (st, Ok tt) ->
  (forall row, row ∈ face_data -> length (row_encoding row) = length e) ->
  exists sims i best,
    _compute_similarities_batch st e = Ok sims /\
    sims = map (fun row => CosineSpec.cosine_similarity (row_encoding row) e)
               face_data /\
    best_match st e = Ok (i, best) /\
    sims !! i = Some best /\
    ((forall j s, sims !! j = Some s -> PrimFloat.is_nan s = false) ->
       (forall j s, sims !! j = Some s -> PrimFloat.leb s best = true) /\
       (forall j s, (j < i)%nat -> sims !! j = Some s ->
                    PrimFloat.ltb s best = true)) /\
    ((exists j s, sims !! j = Some s /\ PrimFloat.is_nan s = true) ->
       PrimFloat.is_nan best = true /\
       (forall j s, (j < i)%nat -> sims !! j = Some s ->
                    PrimFloat.is_nan s = false)).
Proof.
  intros Hne Hload Hdim.
  apply load_known_faces_returns in Hload as [-> _].
  destruct (best_match_loaded (tolerance self) face_data e Hne Hdim)
    as (sims & i & best & H1 & _ & _ & H4 & H5 & H6 & H7).
  rewrite (similarities_are_cosine (tolerance self) face_data e Hne Hdim) in H1.
  injection H1 as <-.
  eexists _, i, best.
  split; [apply similarities_are_cosine; assumption|].
  split; [reflexivity|]. split; [exact H4|]. split; [exact H5|]. split.
  - intros Hnone.
    assert (Hb : PrimFloat.is_nan best = false) by exact (Hnone i best H5).
    split.
    + intros j s Hs. rewrite <- (rank_le_leb _ _ Hb). exact (H6 j s Hs).
    + intros j s Hj Hs. apply (rank_lt_ltb _ _ Hb); eauto.
  - intros (j & s & Hs & Hnan).
    assert (Hb : PrimFloat.is_nan best = true).
    { specialize (H6 j s Hs). unfold rank_le in H6.
      destruct (PrimFloat.is_nan best); [reflexivity|]. simpl in H6.
      apply leb_not_nan in H6 as [H6 _]. congruence. }
    split; [exact Hb|].
    intros j' s' Hj' Hs'. specialize (H7 j' s' Hj' Hs'). unfold rank_le in H7.
    destruct (PrimFloat.is_nan s'); [discriminate | reflexivity].
Qed.

Lemma query_returns_first_maximum_witness :
  exists sims,
    _compute_similarities_batch
      (fst (load_known_faces (init 0.5)
              [(1, "A", [1; 0]%float); (2, "B", [0; 1]%float);
               (3, "C", [3; 0]%float)]))
      [2; 0]%float = Ok sims /\
    best_match
      (fst (load_known_faces (init 0.5)
              [(1, "A", [1; 0]%float); (2, "B", [0; 1]%float);
               (3, "C", [3; 0]%float)]))
      [2; 0]%float = Ok (0%nat, 1%float).
Proof.
  destruct (query_returns_first_maximum (init 0.5)
              (fst (load_known_faces (init 0.5)
                      [(1, "A", [1; 0]%float); (2, "B", [0; 1]%float);
                       (3, "C", [3; 0]%float)]))
              [(1, "A", [1; 0]%float); (2, "B", [0; 1]%float);
               (3, "C", [3; 0]%float)]
              [2; 0]%float)
    as (sims & i & best & H1 & _).
  - discriminate.
  - reflexivity.
  - intros row Hrow.
    repeat (apply elem_of_cons in Hrow as [->|Hrow]; [reflexivity|]).
    inversion Hrow.
  - exists sims. split; [exact H1 | reflexivity].
Defined.

(** ** One face against a loaded registry *)

Lemma recognize_face_loaded (tol : float) (face_data : list (Z * string * vec))
    (face : Face) :
  (forall emb row, embedding face = Some emb -> row ∈ face_data ->
                   length (row_encoding row) = length emb) ->
  exists info,
    recognize_face (loaded_module tol face_data) face = Ok info /\
    location info = (let '(x1, y1, x2, y2) := bbox face in (y1, x2, y2, x1)) /\
    encoding info = embedding face /\
    detection_score info = det_score face /\
    match embedding face with
    | Some emb =>
        match face_data with
        | [] => is_unknown info
        | _ :: _ =>
            exists i best row,
              best_match (loaded_module tol face_data) emb = Ok (i, best) /\
              face_data !! i = Some row /\
              if PrimFloat.leb tol best
              then name info = row_name row /\ user_id info = Some (row_id row) /\
                   confidence info = best
              else is_unknown info
        end
    | None => is_unknown info
    end.
Proof.
  intros Hdim. unfold recognize_face.
  destruct (bbox face) as [[[x1 y1] x2] y2].
  destruct (embedding face) as [emb|].
  2: { eexists. split; [reflexivity|]. repeat split. }
  destruct face_data as [|row0 fd].
  { eexists. split; [reflexivity|]. repeat split. }
  set (data := row0 :: fd) in *.
  assert (Hne : data <> []) by discriminate.
  change (Nat.ltb 0 (length (known_face_encodings (loaded_module tol data))))
    with true. cbv iota. clearbody data.
  destruct (best_match_loaded tol data emb Hne (fun row => Hdim emb row eq_refl))
    as (sims & i & best & _ & Hlen & _ & Hbest & Hi & _).
  apply lookup_lt_Some in Hi. rewrite Hlen in Hi.
  destruct (lookup_lt_is_Some_2 data i Hi) as [row Hrow].
  rewrite Hbest. simpl res_bind. cbn [mbind res_mbind res_bind].
  destruct (PrimFloat.leb (tolerance (loaded_module tol data)) best) eqn:Hacc;
    simpl tolerance in Hacc.
  - unfold py_index. simpl known_face_names. simpl known_face_ids.
    rewrite !lookup_map, Hrow. simpl.
    eexists. split; [reflexivity|]. repeat (split; [reflexivity|]).
    exists i, best, row. rewrite Hacc. auto.
  - eexists. split; [reflexivity|]. repeat (split; [reflexivity|]).
    exists i, best, row. rewrite Hacc. repeat split; auto.
Qed.

Lemma res_map_ok {A B : Type} (f : A -> res B) (xs : list A) :
  (forall x, x ∈ xs -> exists y, f x = Ok y) ->
  exists ys,
    res_map f xs = Ok ys /\ length ys = length xs /\
    (forall k x y, xs !! k = Some x -> ys !! k = Some y -> f x = Ok y).
Proof.
  induction xs as [|x xs IH]; intros Hall.
  - exists []. repeat split. intros k x y Hx. discriminate.
  - destruct (Hall x) as [y Hy]; [left|].
    destruct IH as (ys & Hys & Hlen & Hk).
    { intros x' Hx'. apply Hall. right. exact Hx'. }
    exists (y :: ys). simpl. rewrite Hy. simpl. cbn [mbind res_mbind res_bind].
    rewrite Hys. split; [reflexivity|]. split; [simpl; lia|].
    intros [|k] x' y' Hx' Hy'; simpl in *.
    + congruence.
    + eauto.
Qed.

Lemma best_match_any_tolerance (tol tol' : float)
    (face_data : list (Z * string * vec)) (e : vec) :
  best_match (loaded_module tol face_data) e
  = best_match (loaded_module tol' face_data) e.
Proof. reflexivity. Qed.

(** C4.  Against a loaded, non-empty registry the best candidate is accepted
    exactly when [tolerance <= best_similarity]: then the entry carries the
    candidate's name and id and the similarity as confidence, otherwise it
    is Unknown.  The bound is inclusive: with tolerance 0.5, a best
    similarity of 0.49 gives Unknown and one of exactly 0.5 gives a match.
    The tolerance is a minimum similarity, so raising it only rejects more:
    a face accepted by a module with the higher tolerance is accepted, with
    the same identity, by one with the lower tolerance. *)
Theorem tolerance_is_inclusive_minimum (self st : FaceRecognitionModule)
    (face_data : list (Z * string * vec)) (face : Face) (emb : vec) :
  face_data <> [] ->
  load_known_faces self face_data = (st, Ok tt) ->
  embedding face = Some emb ->
  (forall row, row ∈ face_data -> length (row_encoding row) = length emb) ->
  (exists i best row info,
     best_match st emb = Ok (i, best) /\ face_data !! i = Some row /\
     recognize_face st face = Ok info /\
     (PrimFloat.leb (tolerance st) best = true ->
        name info = row_name row /\ user_id info = Some (row_id row) /\
        confidence info = best) /\
     (PrimFloat.leb (tolerance st) best = false -> is_unknown info) /\
     (is_Some (user_id info) <-> PrimFloat.leb (tolerance st) best = true) /\
     (forall self' st' info',
        load_known_faces self' face_data = (st', Ok tt) ->
        PrimFloat.leb (tolerance st) (tolerance st') = true ->
        recognize_face st' face = Ok info' ->
        is_Some (user_id info') ->
        name info = name info' /\ user_id info = user_id info' /\
        confidence info = confidence info')) /\
  best_match (loaded_module 0.5 Examples.registry_a5) Examples.query_049
    = Ok (0%nat, 0.49%float) /\
  best_match (loaded_module 0.5 Examples.registry_a5) Examples.query_050
    = Ok (0%nat, 0.5%float) /\
  (exists unknown matched,
     recognize_faces (loaded_module 0.5 Examples.registry_a5)
       [Examples.face_of Examples.query_049; Examples.face_of Examples.query_050]
     = Ok [unknown; matched] /\
     is_unknown unknown /\
     name matched = "A" /\ user_id matched = Some 1 /\
     confidence matched = 0.5%float).
Proof.
  intros Hne Hload Hemb Hdim. split.
  - apply load_known_faces_returns in Hload as [-> _].
    set (tol := tolerance self).
    destruct (recognize_face_loaded tol face_data face) as (info & Hrec & _ & _ & _ & Hcase).
    { intros emb' row Hemb'. rewrite Hemb in Hemb'. injection Hemb' as <-. apply Hdim. }
    rewrite Hemb in Hcase.
    destruct face_data as [|row0 fd] eqn:Hfd; [congruence|]. rewrite <- Hfd in *.
    destruct Hcase as (i & best & row & Hbest & Hrow & Hacc).
    exists i, best, row, info. simpl tolerance.
    split; [exact Hbest|]. split; [exact Hrow|]. split; [exact Hrec|].
    destruct (PrimFloat.leb tol best) eqn:Htol.
    + destruct Hacc as (Hn & Hu & Hc).
      split; [auto|]. split; [discriminate|]. split.
      { rewrite Hu. split; [reflexivity | eauto]. }
      intros self' st' info' Hload' Hle Hrec' Hsome.
      apply load_known_faces_returns in Hload' as [-> _].
      simpl tolerance in Hle. set (tol' := tolerance self') in *.
      destruct (recognize_face_loaded tol' face_data face)
        as (info2 & Hrec2 & _ & _ & _ & Hcase2).
      { intros emb' r Hemb'. rewrite Hemb in Hemb'. injection Hemb' as <-. apply Hdim. }
      rewrite Hrec' in Hrec2. injection Hrec2 as <-.
      rewrite Hemb, Hfd in Hcase2. rewrite <- Hfd in Hcase2.
      destruct Hcase2 as (i2 & best2 & row2 & Hbest2 & Hrow2 & Hacc2).
      rewrite (best_match_any_tolerance tol' tol) in Hbest2.
      rewrite Hbest in Hbest2. injection Hbest2 as <- <-.
      rewrite Hrow in Hrow2. injection Hrow2 as <-.
      destruct (PrimFloat.leb tol' best).
      * destruct Hacc2 as (Hn2 & Hu2 & Hc2). repeat split; congruence.
      * destruct Hacc2 as (_ & Hu2 & _). rewrite Hu2 in Hsome.
        destruct Hsome as [? Habs]. discriminate.
    + destruct Hacc as (Hn & Hu & Hc).
      split; [discriminate|]. split; [intros _; repeat split; assumption|]. split.
      { rewrite Hu. split; [intros [? Habs]; discriminate | discriminate]. }
      intros self' st' info' Hload' Hle Hrec' Hsome.
      apply load_known_faces_returns in Hload' as [-> _].
      simpl tolerance in Hle. set (tol' := tolerance self') in *.
      destruct (recognize_face_loaded tol' face_data face)
        as (info2 & Hrec2 & _ & _ & _ & Hcase2).
      { intros emb' r Hemb'. rewrite Hemb in Hemb'. injection Hemb' as <-. apply Hdim. }
      rewrite Hrec' in Hrec2. injection Hrec2 as <-.
      rewrite Hemb, Hfd in Hcase2. rewrite <- Hfd in Hcase2.
      destruct Hcase2 as (i2 & best2 & row2 & Hbest2 & Hrow2 & Hacc2).
      rewrite (best_match_any_tolerance tol' tol) in Hbest2.
      rewrite Hbest in Hbest2. injection Hbest2 as <- <-.
      destruct (PrimFloat.leb tol' best) eqn:Htol'.
      * rewrite (leb_trans _ _ _ Hle Htol') in Htol. discriminate.
      * destruct Hacc2 as (_ & Hu2 & _). rewrite Hu2 in Hsome.
        destruct Hsome as [? Habs]. discriminate.
  - split; [reflexivity|]. split; [reflexivity|].
    eexists _, _. split; [reflexivity|]. repeat split.
Qed.

Lemma tolerance_is_inclusive_minimum_witness :
  best_match (loaded_module 0.5 Examples.registry_a5) Examples.query_050
    = Ok (0%nat, 0.5%float).
Proof.
  refine (proj1 (proj2 (proj2
    (tolerance_is_inclusive_minimum (init 0.5)
       (fst (load_known_faces (init 0.5) Examples.registry_a5))
       Examples.registry_a5 (Examples.face_of Examples.query_050)
       Examples.query_050 _ _ _ _)))).
  - discriminate.
  - reflexivity.
  - reflexivity.
  - intros row Hrow.
    repeat (apply elem_of_cons in Hrow as [->|Hrow]; [reflexivity|]).
    inversion Hrow.
Defined.

(** ** The empty registry *)

Lemma recognize_face_empty (self : FaceRecognitionModule) (face : Face) :
  known_face_encodings self = [] ->
  exists info,
    recognize_face self face = Ok info /\ is_unknown info /\
    location info = (let '(x1, y1, x2, y2) := bbox face in (y1, x2, y2, x1)) /\
    encoding info = embedding face /\
    detection_score info = det_score face.
Proof.
  intros Hempty. unfold recognize_face. rewrite Hempty.
  destruct (bbox face) as [[[x1 y1] x2] y2].
  destruct (embedding face); simpl; eexists; (split; [reflexivity|]);
    repeat split.
Qed.

(** C7.  With an empty registry [recognize_faces] raises nothing and
    reports, whatever the tolerance, one entry per face that is Unknown:
    name ["Unknown"], no [user_id], confidence [0.0].  The freshly
    constructed module and the module after [load_known_faces([])] are such
    registries, and on the latter [_compute_similarities_batch] returns the
    empty array instead of raising. *)
Theorem empty_registry_reports_unknown (self : FaceRecognitionModule)
    (faces : list Face) :
  known_face_encodings self = [] ->
  (exists result,
     recognize_faces self faces = Ok result /\
     length result = length faces /\
     (forall k info, result !! k = Some info ->
        name info = "Unknown" /\ user_id info = None /\
        confidence info = 0%float)) /\
  (forall tol, known_face_encodings (init tol) = []) /\
  (forall self0,
     exists st, load_known_faces self0 [] = (st, Ok tt) /\
                tolerance st = tolerance self0 /\
                known_face_encodings st = [] /\
                forall e, _compute_similarities_batch st e = Ok []).
Proof.
  intros Hempty. split; [|split].
  - destruct (res_map_ok (recognize_face self) faces) as (result & Hres & Hlen & Hk).
    { intros face _. destruct (recognize_face_empty self face Hempty) as (info & H & _).
      eauto. }
    exists result. split; [exact Hres|]. split; [exact Hlen|].
    intros k info Hinfo.
    assert (Hlt : (k < length faces)%nat).
    { rewrite <- Hlen. eapply lookup_lt_Some, Hinfo. }
    destruct (lookup_lt_is_Some_2 faces k Hlt) as [face Hface].
    destruct (recognize_face_empty self face Hempty) as (info' & H & Hunk & _).
    rewrite (Hk k face info Hface Hinfo) in H. injection H as <-. exact Hunk.
  - reflexivity.
  - intros self0. eexists. split; [reflexivity|]. repeat split.
Qed.

Lemma empty_registry_reports_unknown_witness :
  exists result,
    recognize_faces (init 0.5)
      [Examples.face_of Examples.query_049; Examples.face_of Examples.query_050]
    = Ok result /\ length result = 2%nat.
Proof.
  destruct (proj1 (empty_registry_reports_unknown (init 0.5)
              [Examples.face_of Examples.query_049;
               Examples.face_of Examples.query_050] eq_refl))
    as (result & Hres & Hlen & _).
  exists result. split; [exact Hres | exact Hlen].
Defined.

(** ** Every entry of [recognize_faces] *)

(** Counterexample to C10 as worded: an identity may be enrolled under the
    name ["Unknown"]; its matches carry a [user_id] next to that name. *)
Lemma user_id_present_with_name_unknown :
  exists info,
    recognize_faces (fst (load_known_faces (init 0.5) Examples.registry_unknown))
                    [Examples.face_of [1; 0]%float]
    = Ok [info] /\
    name info = "Unknown" /\ user_id info = Some 7 /\
    ~ (is_Some (user_id info) <-> name info <> "Unknown").
Proof.
  eexists. split; [reflexivity|]. simpl.
  split; [reflexivity|]. split; [reflexivity|].
  intros [H _]. apply H; eauto.
Qed.

(** C10, amended.  On a loaded registry, with query embeddings of the
    registry's dimension, [recognize_faces] returns one entry per detected
    face, in order, carrying the face's location, embedding and detection
    score.  If the registry is non-empty, the face has an embedding and
    [tolerance <= best similarity], the entry has the name and id of the
    best-matching identity and the best similarity as confidence; otherwise
    it has name ["Unknown"], no [user_id] and confidence [0.0].  A name other
    than ["Unknown"] always comes with a [user_id]; a [user_id] comes with a
    name other than ["Unknown"] provided no identity is enrolled under the
    name ["Unknown"]. *)
Theorem recognize_faces_entries (self st : FaceRecognitionModule)
    (face_data : list (Z * string * vec)) (faces : list Face) :
  load_known_faces self face_data = (st, Ok tt) ->
  (forall face emb row, face ∈ faces -> embedding face = Some emb ->
     row ∈ face_data -> length (row_encoding row) = length emb) ->
  exists result,
    recognize_faces st faces = Ok result /\
    length result = length faces /\
    forall k face info, faces !! k = Some face -> result !! k = Some info ->
      location info = (let '(x1, y1, x2, y2) := bbox face in (y1, x2, y2, x1)) /\
      encoding info = embedding face /\
      detection_score info = det_score face /\
      match embedding face with
      | Some emb =>
          match face_data with
          | [] => is_unknown info
          | _ :: _ =>
              exists i best row,
                best_match st emb = Ok (i, best) /\
                face_data !! i = Some row /\
                if PrimFloat.leb (tolerance st) best
                then name info = row_name row /\
                     user_id info = Some (row_id row) /\
                     confidence info = best
                else is_unknown info
          end
      | None => is_unknown info
      end /\
      (name info <> "Unknown" -> is_Some (user_id info)) /\
      ((forall row, row ∈ face_data -> row_name row <> "Unknown") ->
       (is_Some (user_id info) <-> name info <> "Unknown")).
Proof.
  intros Hload Hdim.
  apply load_known_faces_returns in Hload as [-> _].
  set (tol := tolerance self). simpl tolerance.
  destruct (res_map_ok (recognize_face (loaded_module tol face_data)) faces)
    as (result & Hres & Hlen & Hk).
  { intros face Hface.
    destruct (recognize_face_loaded tol face_data face) as (info & H & _);
      [|eauto].
    intros emb row Hemb Hrow. exact (Hdim face emb row Hface Hemb Hrow). }
  exists result. split; [exact Hres|]. split; [exact Hlen|].
  intros k face info Hface Hinfo.
  destruct (recognize_face_loaded tol face_data face)
    as (info' & H & Hloc & Henc & Hdet & Hcase).
  { intros emb row Hemb Hrow.
    exact (Hdim face emb row (list_elem_of_lookup_2 _ _ _ Hface) Hemb Hrow). }
  rewrite (Hk k face info Hface Hinfo) in H. injection H as <-.
  repeat (split; [assumption|]).
  assert (Hshape :
    is_unknown info \/
    exists row, row ∈ face_data /\ name info = row_name row /\
                user_id info = Some (row_id row)).
  { destruct (embedding face) as [emb|]; [|left; exact Hcase].
    destruct face_data as [|row0 fd] eqn:Hfd; [left; exact Hcase|].
    rewrite <- Hfd in *.
    destruct Hcase as (i & best & row & _ & Hrow & Hacc).
    destruct (PrimFloat.leb tol best); [|left; exact Hacc].
    right. exists row. destruct Hacc as (Hn & Hu & _).
    split; [eapply list_elem_of_lookup_2, Hrow | auto]. }
  split.
  - intros Hname. destruct Hshape as [(Hn & _) | (row & _ & _ & Hu)].
    + congruence.
    + rewrite Hu. eauto.
  - intros Hnames. destruct Hshape as [(Hn & Hu & _) | (row & Hin & Hn & Hu)].
    + rewrite Hu, Hn. split; [intros [? Habs]; discriminate | congruence].
    + rewrite Hu, Hn. split; [intros _; exact (Hnames row Hin) | eauto].
Qed.

Lemma recognize_faces_entries_witness :
  exists result,
    recognize_faces (fst (load_known_faces (init 0.5) Examples.registry_a5))
      [Examples.face_of Examples.query_049; Examples.face_of Examples.query_050]
    = Ok result /\ length result = 2%nat.
Proof.
  destruct (recognize_faces_entries (init 0.5)
              (fst (load_known_faces (init 0.5) Examples.registry_a5))
              Examples.registry_a5
              [Examples.face_of Examples.query_049;
               Examples.face_of Examples.query_050])
    as (result & Hres & Hlen & _).
  - reflexivity.
  - intros face emb row Hface Hemb Hrow.
    repeat (apply elem_of_cons in Hrow as [->|Hrow];
            [|try solve [inversion Hrow]]).
    repeat (apply elem_of_cons in Hface as [->|Hface];
            [injection Hemb as <-; reflexivity|]).
    inversion Hface.
  - exists result. split; [exact Hres | exact Hlen].
Defined.

(** ** A load with embeddings of different lengths *)

Lemma np_array_mismatch (face_data : list (Z * string * vec)) :
  dimension_mismatch face_data ->
  np_array (map row_encoding face_data) = Raise ValueError.
Proof.
  intros (row0 & rest & row & -> & Hin & Hlen). simpl.
  case_match eqn:Hall; [|reflexivity]. exfalso. apply Hlen.
  rewrite forallb_forall in Hall. apply Nat.eqb_eq, Hall.
  apply in_map. apply list_elem_of_In. exact Hin.
Qed.

(** Counterexample to C3 as worded: the registry loaded with "A" answers
    the query [[1; 0]] with "A" (id 1); after a load of two rows of lengths
    2 and 3 has raised, the same query is answered with "B" (id 2), because
    the name and id lists were replaced before the exception while the
    normalized matrix is still the old one. *)
Lemma failed_load_changes_later_queries :
  exists st' before after,
    dimension_mismatch Examples.ragged /\
    load_known_faces (fst (load_known_faces (init 0.5) Examples.registry_a))
                     Examples.ragged
    = (st', Raise ValueError) /\
    recognize_faces (fst (load_known_faces (init 0.5) Examples.registry_a))
                    [Examples.face_of [1; 0]%float] = Ok [before] /\
    recognize_faces st' [Examples.face_of [1; 0]%float] = Ok [after] /\
    name before = "A" /\ user_id before = Some 1 /\
    name after = "B" /\ user_id after = Some 2 /\
    known_face_names st'
      <> known_face_names (fst (load_known_faces (init 0.5) Examples.registry_a)).
Proof.
  eexists _, _, _. split.
  { exists (2, "B", [1; 0]%float), [(3, "C", [1; 0; 0]%float)], (3, "C", [1; 0; 0]%float).
    split; [reflexivity|]. split; [left | simpl; lia]. }
  split; [reflexivity|]. split; [reflexivity|]. split; [reflexivity|].
  simpl. repeat (split; [reflexivity|]). discriminate.
Qed.

(** C3, amended.  A [load_known_faces] call whose input holds an embedding
    of another length than the first one does fail: building the matrix
    raises [ValueError].  It is not all-or-nothing, though.  When the
    exception leaves the method, the encoding, name and id lists have
    already been replaced by those of the new input, while the tolerance and
    the two matrix attributes (the one every query reads included) are
    still those of the state before the call. *)
Theorem load_mismatch_raises_after_replacing_lists (self : FaceRecognitionModule)
    (face_data : list (Z * string * vec)) :
  dimension_mismatch face_data ->
  exists st,
    load_known_faces self face_data = (st, Raise ValueError) /\
    known_face_encodings st = map row_encoding face_data /\
    known_face_names st = map row_name face_data /\
    known_face_ids st = map row_id face_data /\
    tolerance st = tolerance self /\
    known_embeddings_matrix st = known_embeddings_matrix self /\
    known_embeddings_normalized st = known_embeddings_normalized self.
Proof.
  intros Hmis. pose proof (np_array_mismatch face_data Hmis) as Hraise.
  unfold load_known_faces. rewrite append_all_spec.
  destruct Hmis as (row0 & rest & row & -> & _ & _).
  change (map row_encoding (row0 :: rest))
    with (row_encoding row0 :: map row_encoding rest) in *.
  rewrite Hraise. eexists. split; [reflexivity|]. repeat split.
Qed.

Lemma load_mismatch_raises_after_replacing_lists_witness :
  exists st,
    load_known_faces (fst (load_known_faces (init 0.5) Examples.registry_a))
                     Examples.ragged
    = (st, Raise ValueError) /\
    known_face_names st = ["B"; "C"].
Proof.
  destruct (load_mismatch_raises_after_replacing_lists
              (fst (load_known_faces (init 0.5) Examples.registry_a))
              Examples.ragged)
    as (st & Hload & _ & Hnames & _).
  - exists (2, "B", [1; 0]%float), [(3, "C", [1; 0; 0]%float)],
           (3, "C", [1; 0; 0]%float).
    split; [reflexivity|]. split; [left | simpl; lia].
  - exists st. split; [exact Hload | exact Hnames].
Defined.

End Registry.

(* ===================================================================== *)
(** * Properties of the cooldown guard                                    *)
(* ===================================================================== *)

Section Cooldown.
Import Database FaceRecognition.

Lemma should_trigger_first (cooldown : gmap (option Z) float)
    (identity_id : option Z) (now window_seconds : float) :
  cooldown !! identity_id = None ->
  should_trigger cooldown identity_id now window_seconds
  = (true, <[identity_id := now]> cooldown).
Proof. intros H. unfold should_trigger. rewrite H. reflexivity. Qed.

Lemma should_trigger_elapsed (cooldown : gmap (option Z) float)
    (identity_id : option Z) (now window_seconds last : float) :
  cooldown !! identity_id = Some last ->
  PrimFloat.ltb (PrimFloat.sub now last) window_seconds = false ->
  should_trigger cooldown identity_id now window_seconds
  = (true, <[identity_id := now]> cooldown).
Proof. intros H Hlt. unfold should_trigger. rewrite H, Hlt. reflexivity. Qed.

Lemma should_trigger_within (cooldown : gmap (option Z) float)
    (identity_id : option Z) (now window_seconds last : float) :
  cooldown !! identity_id = Some last ->
  PrimFloat.ltb (PrimFloat.sub now last) window_seconds = true ->
  should_trigger cooldown identity_id now window_seconds = (false, cooldown).
Proof. intros H Hlt. unfold should_trigger. rewrite H, Hlt. reflexivity. Qed.

(** A closed gate is the early [return] of [_process_attendance]: nothing
    is written. *)
Lemma v1_process_attendance_gated (self : V1.FaceAttendanceApp) (face : FaceInfo)
    (clk : clock) :
  fst (should_trigger (V1.recognition_cooldown self) (user_id face)
                      (time_time clk) 5%float) = false ->
  V1._process_attendance self face clk = (self, Ok tt).
Proof.
  intros H. unfold V1._process_attendance.
  destruct (should_trigger _ _ _ _) as [go cd]. simpl in H. subst go. reflexivity.
Qed.

Lemma v2_process_attendance_gated (self : V2.ModernFaceApp) (face : FaceInfo)
    (clk : clock) :
  fst (should_trigger (V2.recognition_cooldown self) (user_id face)
                      (time_time clk) 10%float) = false ->
  V2._process_attendance self face clk = (self, Ok tt).
Proof.
  intros H. unfold V2._process_attendance.
  destruct (should_trigger _ _ _ _) as [go cd]. simpl in H. subst go. reflexivity.
Qed.

(** An open gate records the time and hands the identity to the ledger. *)
Lemma v1_process_attendance_open (self : V1.FaceAttendanceApp) (face : FaceInfo)
    (clk : clock) (u : Z) :
  user_id face = Some u ->
  fst (should_trigger (V1.recognition_cooldown self) (user_id face)
                      (time_time clk) 5%float) = true ->
  exists self',
    V1._process_attendance self face clk = (self', Ok tt) /\
    V1.recognition_cooldown self'
      = <[Some u := time_time clk]> (V1.recognition_cooldown self) /\
    V1.db self'
      = fst (record_attendance (V1.db self) u "in" (date_today clk)
                               (datetime_now clk)).
Proof.
  intros Hu H. unfold V1._process_attendance.
  unfold should_trigger in *. rewrite Hu in *.
  destruct (record_attendance_returns (V1.db self) u "in" (date_today clk)
              (datetime_now clk)) as (db' & success & message & Hrec).
  destruct (V1.recognition_cooldown self !! Some u) as [last|];
    [destruct (PrimFloat.ltb _ _); [discriminate|] |];
    simpl; rewrite Hrec; destruct success; eexists; repeat split.
Qed.

Lemma v2_process_attendance_open (self : V2.ModernFaceApp) (face : FaceInfo)
    (clk : clock) (u : Z) :
  user_id face = Some u ->
  fst (should_trigger (V2.recognition_cooldown self) (user_id face)
                      (time_time clk) 10%float) = true ->
  exists self',
    V2._process_attendance self face clk = (self', Ok tt) /\
    V2.recognition_cooldown self'
      = <[Some u := time_time clk]> (V2.recognition_cooldown self) /\
    V2.db self'
      = fst (record_attendance (V2.db self) u "in" (date_today clk)
                               (datetime_now clk)).
Proof.
  intros Hu H. unfold V2._process_attendance.
  unfold should_trigger in *. rewrite Hu in *.
  destruct (record_attendance_returns (V2.db self) u "in" (date_today clk)
              (datetime_now clk)) as (db' & success & message & Hrec).
  destruct (V2.recognition_cooldown self !! Some u) as [last|];
    [destruct (PrimFloat.ltb _ _); [discriminate|] |];
    simpl; rewrite Hrec; destruct success; eexists; repeat split.
Qed.

(** C5.  The cooldown gate returns [true] and records [now] as the
    identity's last-trigger time when no time is recorded for the identity
    or [now - last >= window_seconds]; in every other case (for clock
    readings whose difference is a number, as those of [time.time()] are) it
    returns [false] and leaves the cooldown map as it was.  Both front ends
    go on to the ledger exactly when the gate returns [true], with a window
    of 5 and of 10 seconds.  A trigger at [t] followed by a call at
    [t + 0.5 window] is refused, one at [t + 1.5 window] is let through. *)
Theorem cooldown_guard (cooldown : gmap (option Z) float)
    (identity_id : option Z) (now window_seconds : float) :
  (cooldown !! identity_id = None ->
   should_trigger cooldown identity_id now window_seconds
   = (true, <[identity_id := now]> cooldown)) /\
  (forall last,
     cooldown !! identity_id = Some last ->
     PrimFloat.leb window_seconds (PrimFloat.sub now last) = true ->
     should_trigger cooldown identity_id now window_seconds
     = (true, <[identity_id := now]> cooldown)) /\
  (forall last,
     cooldown !! identity_id = Some last ->
     PrimFloat.is_nan (PrimFloat.sub now last) = false ->
     PrimFloat.is_nan window_seconds = false ->
     PrimFloat.leb window_seconds (PrimFloat.sub now last) = false ->
     should_trigger cooldown identity_id now window_seconds = (false, cooldown)) /\
  (forall (self : V1.FaceAttendanceApp) face clk,
     fst (should_trigger (V1.recognition_cooldown self) (user_id face)
                         (time_time clk) 5%float) = false ->
     V1._process_attendance self face clk = (self, Ok tt)) /\
  (forall (self : V1.FaceAttendanceApp) face clk u,
     user_id face = Some u ->
     fst (should_trigger (V1.recognition_cooldown self) (user_id face)
                         (time_time clk) 5%float) = true ->
     exists self',
       V1._process_attendance self face clk = (self', Ok tt) /\
       V1.recognition_cooldown self'
         = <[Some u := time_time clk]> (V1.recognition_cooldown self) /\
       V1.db self'
         = fst (record_attendance (V1.db self) u "in" (date_today clk)
                                  (datetime_now clk))) /\
  (forall (self : V2.ModernFaceApp) face clk,
     fst (should_trigger (V2.recognition_cooldown self) (user_id face)
                         (time_time clk) 10%float) = false ->
     V2._process_attendance self face clk = (self, Ok tt)) /\
  (forall (self : V2.ModernFaceApp) face clk u,
     user_id face = Some u ->
     fst (should_trigger (V2.recognition_cooldown self) (user_id face)
                         (time_time clk) 10%float) = true ->
     exists self',
       V2._process_attendance self face clk = (self', Ok tt) /\
       V2.recognition_cooldown self'
         = <[Some u := time_time clk]> (V2.recognition_cooldown self) /\
       V2.db self'
         = fst (record_attendance (V2.db self) u "in" (date_today clk)
                                  (datetime_now clk))) /\
  (fst (should_trigger Examples.after_trigger (Some 1) 1700000002.5%float 5%float)
     = false /\
   fst (should_trigger Examples.after_trigger (Some 1) 1700000007.5%float 5%float)
     = true /\
   fst (should_trigger Examples.after_trigger (Some 1) 1700000005%float 10%float)
     = false /\
   fst (should_trigger Examples.after_trigger (Some 1) 1700000015%float 10%float)
     = true).
Proof.
  split; [apply should_trigger_first|].
  split.
  { intros last Hlast Hle. apply (should_trigger_elapsed _ _ _ _ last Hlast).
    destruct (PrimFloat.ltb (PrimFloat.sub now last) window_seconds) eqn:Hlt;
      [|reflexivity].
    rewrite (ltb_true_leb _ _ Hlt) in Hle. discriminate. }
  split.
  { intros last Hlast Hnan Hwin Hle.
    apply (should_trigger_within _ _ _ _ last Hlast).
    exact (leb_false_ltb _ _ Hwin Hnan Hle). }
  split; [exact v1_process_attendance_gated|].
  split; [exact v1_process_attendance_open|].
  split; [exact v2_process_attendance_gated|].
  split; [exact v2_process_attendance_open|].
  repeat split; vm_compute; reflexivity.
Qed.

Lemma cooldown_guard_witness :
  should_trigger Examples.after_trigger (Some 1) 1700000002.5%float 5%float
  = (false, Examples.after_trigger).
Proof.
  refine (proj1 (proj2 (proj2
    (cooldown_guard Examples.after_trigger (Some 1) 1700000002.5%float 5%float)))
    1700000000%float _ _ _ _); vm_compute; reflexivity.
Defined.

End Cooldown.

(* ===================================================================== *)
(** * Properties of the camera loop                                       *)
(* ===================================================================== *)

Section Camera.
Import Database Np FaceRecognition V1.

Lemma heap_append_insert (h : heap) (l : loc) (pre : list FaceInfo) (x : FaceInfo) :
  h !! l = Some pre -> heap_append h l x = <[l := (pre ++ [x])%list]> h.
Proof.
  intros H. unfold heap_append. apply map_eq. intros i.
  rewrite lookup_alter, lookup_insert. case_decide; [|reflexivity].
  subst i. rewrite H. reflexivity.
Qed.

Lemma same_config_refl (a : FaceAttendanceApp) : same_config a a.
Proof. repeat split. Qed.

Lemma same_config_trans (a b c : FaceAttendanceApp) :
  same_config a b -> same_config b c -> same_config a c.
Proof.
  intros (H1 & H2 & H3 & H4 & H5) (G1 & G2 & G3 & G4 & G5).
  repeat split; congruence.
Qed.

Lemma process_attendance_preserves (self self' : FaceAttendanceApp)
    (face : FaceInfo) (clk : clock) (r : res unit) :
  _process_attendance self face clk = (self', r) ->
  same_config self self' /\ last_faces self' = last_faces self /\
  frame_count self' = frame_count self.
Proof.
  unfold _process_attendance.
  destruct (should_trigger _ _ _ _) as [[] cd].
  - destruct (user_id face) as [u|].
    + destruct (record_attendance _ _ _ _ _) as [db' [[[] msg]|e]];
        intros H; injection H as <- <-; repeat split.
    + intros H; injection H as <- <-; repeat split.
  - intros H; injection H as <- <-; repeat split.
Qed.

Lemma process_attendance_recognized (self : FaceAttendanceApp) (face : FaceInfo)
    (clk : clock) :
  recognized face = true ->
  exists self', _process_attendance self face clk = (self', Ok tt).
Proof.
  unfold recognized. destruct (user_id face) as [u|] eqn:Hu; [|discriminate].
  intros _.
  destruct (fst (should_trigger (recognition_cooldown self) (user_id face)
                                (time_time clk) 5%float)) eqn:Hgo.
  - destruct (v1_process_attendance_open self face clk u Hu Hgo) as (self' & H & _).
    eauto.
  - rewrite (v1_process_attendance_gated self face clk Hgo). eauto.
Qed.

Lemma attendance_loop_preserves (small_faces : list FaceInfo)
    (self self' : FaceAttendanceApp) (h h' : heap) (scale_factor : float)
    (clk : nat -> clock) (k : nat) (calls calls' : list FaceInfo) (r : res unit) :
  attendance_loop self h scale_factor small_faces clk k calls
  = (self', h', calls', r) ->
  same_config self self' /\ last_faces self' = last_faces self /\
  frame_count self' = frame_count self.
Proof.
  revert self h k calls.
  induction small_faces as [|face rest IH]; intros self h k calls; simpl.
  - intros H. injection H as <- _ _ _. repeat split.
  - destruct (scale_face scale_factor face) as [scaled|e].
    2: { intros H. injection H as <- _ _ _. repeat split. }
    destruct (recognized face).
    + destruct (_process_attendance self face (clk k)) as [self1 r1] eqn:Hp.
      apply process_attendance_preserves in Hp as (Hc & Hl & Hf).
      destruct r1 as [u|e].
      * intros H. apply IH in H as (Hc' & Hl' & Hf').
        split; [exact (same_config_trans _ _ _ Hc Hc')|]. split; congruence.
      * intros H. injection H as <- _ _ _. auto.
    + intros H. apply IH in H. exact H.
Qed.

Lemma attendance_loop_ok (small_faces scaled : list FaceInfo)
    (self : FaceAttendanceApp) (h : heap) (scale_factor : float)
    (clk : nat -> clock) (k : nat) (calls pre : list FaceInfo) :
  h !! last_faces self = Some pre ->
  res_map (scale_face scale_factor) small_faces = Ok scaled ->
  exists self',
    attendance_loop self h scale_factor small_faces clk k calls
    = (self', <[last_faces self := (pre ++ scaled)%list]> h,
       (calls ++ List.filter recognized small_faces)%list, Ok tt).
Proof.
  revert scaled self h k calls pre.
  induction small_faces as [|face rest IH]; intros scaled self h k calls pre Hpre;
    simpl.
  - intros H. injection H as <-. exists self. rewrite !app_nil_r.
    rewrite insert_id by exact Hpre. reflexivity.
  - destruct (scale_face scale_factor face) as [s1|e]; [|discriminate].
    simpl. cbn [mbind res_mbind res_bind].
    destruct (res_map (scale_face scale_factor) rest) as [ss|e] eqn:Hrest;
      [|discriminate].
    simpl. intros H. injection H as <-.
    rewrite (heap_append_insert h _ pre s1 Hpre).
    assert (Hshape : forall l : loc,
      <[l := (pre ++ s1 :: ss)%list]> h
      = <[l := ((pre ++ [s1]) ++ ss)%list]> (<[l := (pre ++ [s1])%list]> h)).
    { intros l. rewrite insert_insert_eq, <- app_assoc. reflexivity. }
    destruct (recognized face) eqn:Hrec.
    + destruct (process_attendance_recognized self face (clk k) Hrec)
        as [self1 Hp].
      rewrite Hp.
      apply process_attendance_preserves in Hp as (_ & Hl & _).
      destruct (IH ss self1 (<[last_faces self := (pre ++ [s1])%list]> h) (S k)
                   (calls ++ [face])%list (pre ++ [s1])%list)
        as [self' Hloop].
      { rewrite Hl. apply lookup_insert_eq. }
      { reflexivity. }
      exists self'. rewrite Hloop, Hl, <- Hshape, <- app_assoc. reflexivity.
    + destruct (IH ss self (<[last_faces self := (pre ++ [s1])%list]> h) (S k)
                   calls (pre ++ [s1])%list)
        as [self' Hloop].
      { apply lookup_insert_eq. }
      { reflexivity. }
      exists self'. rewrite Hloop, <- Hshape. reflexivity.
Qed.

Lemma register_loop_ok (small_faces scaled : list FaceInfo) (h : heap) (l : loc)
    (scale_factor : float) (pre : list FaceInfo) :
  h !! l = Some pre ->
  res_map (scale_face scale_factor) small_faces = Ok scaled ->
  register_loop h l scale_factor small_faces
  = (<[l := (pre ++ scaled)%list]> h, Ok tt).
Proof.
  revert scaled h pre.
  induction small_faces as [|face rest IH]; intros scaled h pre Hpre; simpl.
  - intros H. injection H as <-. rewrite app_nil_r.
    rewrite insert_id by exact Hpre. reflexivity.
  - destruct (scale_face scale_factor face) as [s1|e]; [|discriminate].
    simpl. cbn [mbind res_mbind res_bind].
    destruct (res_map (scale_face scale_factor) rest) as [ss|e] eqn:Hrest;
      [|discriminate].
    simpl. intros H. injection H as <-.
    rewrite (heap_append_insert h _ pre s1 Hpre).
    rewrite (IH ss _ (pre ++ [s1])%list (lookup_insert_eq _ _ _) eq_refl).
    rewrite insert_insert_eq, <- app_assoc. reflexivity.
Qed.

(** ** One tick *)

Lemma update_camera_counts (self self' : FaceAttendanceApp) (h h' : heap)
    (faces : list Face) (clk : nat -> clock) (calls : list FaceInfo)
    (e : option exn) :
  is_running self = true ->
  _update_camera self h (Some faces) clk = (self', h', calls, e) ->
  frame_count self' = frame_count self + 1 /\ same_config self self'.
Proof.
  intros Hrun. unfold _update_camera. rewrite Hrun. cbn [negb].
  repeat case_match; intros Heq; injection Heq as <- _ _ _; subst;
    try solve [repeat split].
  match goal with
  | H : attendance_loop _ _ _ _ _ _ _ = _ |- _ =>
      apply attendance_loop_preserves in H as (Hc & _ & Hf)
  end.
  split; [exact Hf | exact Hc].
Qed.

Lemma update_camera_skip (self : FaceAttendanceApp) (h : heap)
    (faces : list Face) (clk : nat -> clock) :
  is_running self = true ->
  process_every_n_frames self <> 0 ->
  (frame_count self + 1) mod process_every_n_frames self <> 0 ->
  _update_camera self h (Some faces) clk
  = (set_frame_count self (frame_count self + 1), h, [], None).
Proof.
  intros Hrun HN Hmod. unfold _update_camera. rewrite Hrun. simpl.
  apply Z.eqb_neq in HN, Hmod. rewrite HN, Hmod. reflexivity.
Qed.

Lemma update_camera_recompute (self : FaceAttendanceApp) (h : heap)
    (faces : list Face) (clk : nat -> clock) (scaled : list FaceInfo) :
  is_running self = true ->
  process_every_n_frames self <> 0 ->
  (frame_count self + 1) mod process_every_n_frames self = 0 ->
  PrimFloat.ltb 0%float (recognition_scale self) = true ->
  (current_mode self = "attendance" ->
   forall small,
     recognize_faces (face_module self) faces = Ok small ->
     res_map (scale_face (PrimFloat.div 1%float (recognition_scale self))) small
       = Ok scaled ->
     exists self',
       _update_camera self h (Some faces) clk
       = (self', <[fresh (dom h) := scaled]> h, List.filter recognized small, None) /\
       last_faces self' = fresh (dom h)) /\
  (current_mode self <> "attendance" ->
   res_map (scale_face (PrimFloat.div 1%float (recognition_scale self)))
           (detect_faces faces) = Ok scaled ->
   exists self',
     _update_camera self h (Some faces) clk
     = (self', <[fresh (dom h) := scaled]> h, [], None) /\
     last_faces self' = fresh (dom h) /\
     db self' = db self /\ recognition_cooldown self' = recognition_cooldown self).
Proof.
  intros Hrun HN Hmod Hscale.
  assert (Hdiv : py_float_div 1%float (recognition_scale self)
                 = Ok (PrimFloat.div 1%float (recognition_scale self))).
  { unfold py_float_div. rewrite (ltb_zero_eqb _ Hscale). reflexivity. }
  apply Z.eqb_neq in HN. apply Z.eqb_eq in Hmod.
  split.
  - intros Hmode small Hrec Hscaled.
    unfold _update_camera. rewrite Hrun. simpl.
    rewrite HN, Hmod, Hscale, Hmode, Hrec, Hdiv. simpl.
    set (l := fresh (dom h)).
    destruct (attendance_loop_ok small scaled
                (set_last_faces (set_frame_count self (frame_count self + 1)) l)
                (<[l := []]> h) (PrimFloat.div 1 (recognition_scale self)) clk
                0%nat [] []) as [self' Hloop].
    { apply lookup_insert_eq. }
    { exact Hscaled. }
    rewrite Hloop. simpl. rewrite insert_insert_eq.
    exists self'. split; [reflexivity|].
    apply attendance_loop_preserves in Hloop as (_ & Hl & _). exact Hl.
  - intros Hmode Hscaled.
    unfold _update_camera. rewrite Hrun. simpl.
    apply String.eqb_neq in Hmode.
    rewrite HN, Hmod, Hscale, Hmode, Hdiv. simpl.
    set (l := fresh (dom h)).
    rewrite (register_loop_ok (detect_faces faces) scaled (<[l := []]> h) l _ []
               (lookup_insert_eq _ _ _) Hscaled).
    simpl. rewrite insert_insert_eq.
    eexists. split; [reflexivity|]. repeat split.
Qed.

(** ** A stream of frames *)

Lemma run_length (ticks : list (option (list Face) * (nat -> clock)))
    (self : FaceAttendanceApp) (h : heap) :
  length (run self h ticks) = length ticks.
Proof.
  revert self h. induction ticks as [|[frame clk] rest IH]; intros self h; simpl.
  - reflexivity.
  - destruct (_update_camera self h frame clk) as [[[s1 h1] c1] e1]. simpl.
    rewrite IH. reflexivity.
Qed.

Lemma run_at (stream : list (list Face * (nat -> clock)))
    (self : FaceAttendanceApp) (h : heap) (i : nat) (faces : list Face)
    (clk : nat -> clock) :
  is_running self = true ->
  stream !! i = Some (faces, clk) ->
  exists prev hprev,
    state_before self h
      (run self h (map (fun t => (Some (fst t), snd t)) stream)) i
    = (prev, hprev) /\
    run self h (map (fun t => (Some (fst t), snd t)) stream) !! i
    = Some (_update_camera prev hprev (Some faces) clk) /\
    frame_count prev = frame_count self + Z.of_nat i /\
    same_config self prev.
Proof.
  revert self h i.
  induction stream as [|[faces0 clk0] rest IH]; intros self h i Hrun Hi.
  - destruct i; discriminate.
  - simpl map. simpl run.
    destruct (_update_camera self h (Some faces0) clk0) as [[[s1 h1] c1] e1] eqn:Hstep.
    destruct i as [|j].
    + simpl in Hi. injection Hi as -> ->.
      exists self, h. simpl. rewrite Hstep.
      repeat split. lia.
    + simpl in Hi.
      destruct (update_camera_counts _ _ _ _ _ _ _ _ Hrun Hstep) as [Hfc Hcfg].
      assert (Hrun1 : is_running s1 = true).
      { destruct Hcfg as (_ & H & _). congruence. }
      destruct (IH s1 h1 j Hrun1 Hi) as (prev & hprev & Hbefore & Hout & Hprev & Hcfg').
      exists prev, hprev.
      split; [|split; [exact Hout|split; [lia|exact (same_config_trans _ _ _ Hcfg Hcfg')]]].
      destruct j as [|j'].
      * simpl in *. exact Hbefore.
      * simpl in *.
        destruct (run s1 h1 (map (fun t => (Some (fst t), snd t)) rest) !! j')
          as [[[[s2 h2] c2] e2]|] eqn:Hj'; [exact Hbefore|].
        exfalso. apply lookup_ge_None in Hj'.
        rewrite run_length, length_map in Hj'.
        apply lookup_lt_Some in Hi. lia.
Qed.

(** C6.  Over any stream of frames, with [N = process_every_n_frames >= 1]
    and the camera running, the [i]-th tick increments [frame_count] (to the
    initial count plus [i + 1]) and changes no configuration attribute.  If
    the new count is not a multiple of [N], the tick leaves [last_faces]
    bound to the very same list object, leaves the store of list objects,
    the ledger and the cooldown map untouched, and hands no face to
    [_process_attendance].  If it is a multiple of [N] (and the working
    scale is positive), the tick recomputes: [last_faces] is bound to a list
    object that did not exist before, holding the rescaled result of
    [recognize_faces] (attendance mode) or [detect_faces] (registration
    mode) on this frame, and [_process_attendance] is called on exactly the
    recognized faces of that result (on none in registration mode).  A tick
    on which the camera delivers no frame changes nothing, the counter
    included. *)
Theorem recompute_every_nth_frame (self : FaceAttendanceApp) (h : heap)
    (stream : list (list Face * (nat -> clock))) (i : nat)
    (faces : list Face) (clk : nat -> clock) :
  is_running self = true ->
  1 <= process_every_n_frames self ->
  stream !! i = Some (faces, clk) ->
  _update_camera self h None clk = (self, h, [], None) /\
  exists prev hprev cur hcur calls e,
    state_before self h
      (run self h (map (fun t => (Some (fst t), snd t)) stream)) i
    = (prev, hprev) /\
    run self h (map (fun t => (Some (fst t), snd t)) stream) !! i
    = Some (cur, hcur, calls, e) /\
    _update_camera prev hprev (Some faces) clk = (cur, hcur, calls, e) /\
    frame_count cur = frame_count self + Z.of_nat i + 1 /\
    same_config self cur /\
    (frame_count cur mod process_every_n_frames self <> 0 ->
       last_faces cur = last_faces prev /\ hcur = hprev /\
       calls = [] /\ e = None /\ db cur = db prev /\
       recognition_cooldown cur = recognition_cooldown prev) /\
    (frame_count cur mod process_every_n_frames self = 0 ->
     PrimFloat.ltb 0%float (recognition_scale self) = true ->
       (current_mode self = "attendance" ->
        forall small scaled,
          recognize_faces (face_module self) faces = Ok small ->
          res_map (scale_face (PrimFloat.div 1%float (recognition_scale self)))
                  small = Ok scaled ->
          (last_faces cur ∉ dom hprev) /\
          hcur = <[last_faces cur := scaled]> hprev /\
          calls = List.filter recognized small /\ e = None) /\
       (current_mode self <> "attendance" ->
        forall scaled,
          res_map (scale_face (PrimFloat.div 1%float (recognition_scale self)))
                  (detect_faces faces) = Ok scaled ->
          (last_faces cur ∉ dom hprev) /\
          hcur = <[last_faces cur := scaled]> hprev /\
          calls = [] /\ e = None /\ db cur = db prev /\
          recognition_cooldown cur = recognition_cooldown prev)).
Proof.
  intros Hrun HN Hi.
  split; [unfold _update_camera; rewrite Hrun; reflexivity|].
  destruct (run_at stream self h i faces clk Hrun Hi)
    as (prev & hprev & Hbefore & Hout & Hfc & Hcfg).
  destruct (_update_camera prev hprev (Some faces) clk) as [[[cur hcur] calls] e]
    eqn:Hstep.
  exists prev, hprev, cur, hcur, calls, e.
  destruct Hcfg as (Hfm & Hr & Hmode & HNeq & Hsc).
  assert (Hrun' : is_running prev = true) by congruence.
  destruct (update_camera_counts _ _ _ _ _ _ _ _ Hrun' Hstep) as [Hfc' Hcfg'].
  split; [exact Hbefore|]. split; [exact Hout|]. split; [exact Hstep|].
  split; [lia|].
  split; [exact (same_config_trans _ _ _ (conj Hfm (conj Hr (conj Hmode (conj HNeq Hsc)))) Hcfg')|].
  assert (HN' : process_every_n_frames prev <> 0) by lia.
  rewrite Hfc', HNeq. split.
  - intros Hmod.
    rewrite (update_camera_skip prev hprev faces clk Hrun' HN' Hmod) in Hstep.
    injection Hstep as <- <- <- <-. repeat split.
  - intros Hmod Hscale. rewrite Hsc in Hscale. split.
    + intros Hatt small scaled Hrec Hscaled.
      rewrite Hmode in Hatt. rewrite Hfm in Hrec. rewrite Hsc in Hscaled.
      destruct (proj1 (update_camera_recompute prev hprev faces clk scaled
                         Hrun' HN' Hmod Hscale) Hatt small Hrec Hscaled)
        as (self' & Hupd & Hl).
      rewrite Hupd in Hstep. injection Hstep as <- <- <- <-.
      rewrite Hl. split; [apply is_fresh|]. repeat split.
    + intros Hreg scaled Hscaled.
      rewrite Hmode in Hreg. rewrite Hsc in Hscaled.
      destruct (proj2 (update_camera_recompute prev hprev faces clk scaled
                         Hrun' HN' Hmod Hscale) Hreg Hscaled)
        as (self' & Hupd & Hl & Hdb & Hcd).
      rewrite Hupd in Hstep. injection Hstep as <- <- <- <-.
      rewrite Hl. split; [apply is_fresh|]. repeat split; assumption.
Qed.

Lemma recompute_every_nth_frame_witness :
  exists prev hprev cur hcur,
    state_before (Examples.app_with 3 0.5) ∅
      (run (Examples.app_with 3 0.5) ∅
           (map (fun t => (Some (fst t), snd t)) Examples.three_frames)) 1
    = (prev, hprev) /\
    _update_camera prev hprev (Some [Examples.face_at 3]) Examples.clock_at
    = (cur, hcur, [], None) /\
    frame_count cur = 2 /\ last_faces cur = last_faces prev /\ hcur = hprev.
Proof.
  destruct (recompute_every_nth_frame (Examples.app_with 3 0.5) ∅
              Examples.three_frames 1 [Examples.face_at 3] Examples.clock_at)
    as (_ & prev & hprev & cur & hcur & calls & e & Hb & _ & Hstep & Hfc & _
        & Hskip & _).
  - reflexivity.
  - simpl. lia.
  - reflexivity.
  - destruct Hskip as (Hl & Hh & -> & -> & _).
    { rewrite Hfc. simpl. discriminate. }
    exists prev, hprev, cur, hcur. repeat split; assumption.
Defined.

(** ** Rescaled bounding boxes *)

Lemma res_map_lookup {A B : Type} (f : A -> res B) (xs : list A) (ys : list B) :
  res_map f xs = Ok ys ->
  length ys = length xs /\
  forall k x y, xs !! k = Some x -> ys !! k = Some y -> f x = Ok y.
Proof.
  revert ys. induction xs as [|x xs IH]; intros ys; simpl.
  - intros H. injection H as <-. split; [reflexivity|]. intros k x y H. discriminate.
  - destruct (f x) as [y|e] eqn:Hy; [|discriminate].
    simpl. cbn [mbind res_mbind res_bind].
    destruct (res_map f xs) as [ys'|e]; [|discriminate].
    simpl. intros H. injection H as <-.
    destruct (IH ys' eq_refl) as [Hlen Hk].
    split; [simpl; lia|].
    intros [|k] x' y' Hx' Hy'; simpl in *; [congruence | eauto].
Qed.

Lemma scale_face_spec (scale_factor : float) (face scaled : FaceInfo) :
  scale_face scale_factor face = Ok scaled ->
  exists top right_ bottom left_ t r b l,
    location face = (top, right_, bottom, left_) /\
    location scaled = (t, r, b, l) /\
    py_int (PrimFloat.mul (float_of_int top) scale_factor) = Ok t /\
    py_int (PrimFloat.mul (float_of_int right_) scale_factor) = Ok r /\
    py_int (PrimFloat.mul (float_of_int bottom) scale_factor) = Ok b /\
    py_int (PrimFloat.mul (float_of_int left_) scale_factor) = Ok l /\
    encoding scaled = encoding face /\ name scaled = name face /\
    user_id scaled = user_id face /\ confidence scaled = confidence face /\
    detection_score scaled = detection_score face.
Proof.
  unfold scale_face. destruct (location face) as [[[top right_] bottom] left_].
  destruct (py_int (PrimFloat.mul (float_of_int top) scale_factor)) as [t|e]
    eqn:Ht; [|discriminate].
  destruct (py_int (PrimFloat.mul (float_of_int right_) scale_factor)) as [r|e]
    eqn:Hr; [|discriminate].
  destruct (py_int (PrimFloat.mul (float_of_int bottom) scale_factor)) as [b|e]
    eqn:Hb; [|discriminate].
  destruct (py_int (PrimFloat.mul (float_of_int left_) scale_factor)) as [l|e]
    eqn:Hl; [|discriminate].
  simpl. intros H. injection H as <-.
  exists top, right_, bottom, left_, t, r, b, l. repeat split; assumption.
Qed.

(** ** [int()] truncates; at the factor 2.0 nothing is cut off *)

Lemma py_int_truncates (x : float) (z : Z) :
  py_int x = Ok z -> is_truncation_toward_zero x z = true.
Proof.
  unfold py_int, is_truncation_toward_zero.
  destruct (Prim2SF x) as [sx|sx| |sx m e]; try discriminate.
  - intros H. injection H as <-. reflexivity.
  - destruct (0 <=? e) eqn:He; intros H; injection H as <-.
    + apply Z.eqb_eq. destruct sx; [|reflexivity].
      change (Z.neg m) with (- Z.pos m). ring.
    + apply Z.leb_gt in He.
      assert (Hk : 0 < 2 ^ (- e)) by (apply Z.pow_pos_nonneg; lia).
      pose proof (Z.mul_div_le (Z.pos m) _ Hk) as Hlo.
      pose proof (Z.mul_succ_div_gt (Z.pos m) _ Hk) as Hhi.
      assert (Hq : 0 <= Z.pos m / 2 ^ (- e)) by (apply Z.div_pos; lia).
      set (q := Z.pos m / 2 ^ (- e)) in *. set (k := 2 ^ (- e)) in *.
      assert (Habs : Z.abs (if sx then - q else q) = q) by (destruct sx; lia).
      rewrite Habs.
      apply andb_true_iff. split; [apply andb_true_iff; split|].
      * apply Z.leb_le. lia.
      * apply Z.ltb_lt. lia.
      * destruct sx; apply Z.leb_le; lia.
Qed.

Lemma denotes_integer_nearest (x : float) (z : Z) :
  denotes_integer x z = true -> is_nearest_integer x z = true.
Proof.
  unfold denotes_integer, is_nearest_integer.
  destruct (Prim2SF x) as [sx|sx| |sx m e]; try discriminate; [exact id|].
  destruct (0 <=? e) eqn:He; [exact id|].
  intros H. apply Z.eqb_eq in H. rewrite H, Z.sub_diag. simpl.
  apply Z.leb_le. apply Z.pow_nonneg. lia.
Qed.

Lemma denotes_integer_only_nearest (x : float) (z z' : Z) :
  denotes_integer x z = true -> is_nearest_integer x z' = true -> z' = z.
Proof.
  unfold denotes_integer, is_nearest_integer.
  destruct (Prim2SF x) as [sx|sx| |sx m e]; try discriminate.
  - intros H H'. apply Z.eqb_eq in H, H'. congruence.
  - destruct (0 <=? e) eqn:He; intros H H'.
    + apply Z.eqb_eq in H, H'. congruence.
    + apply Z.leb_gt in He. apply Z.eqb_eq in H. apply Z.leb_le in H'.
      assert (Hk : 0 < 2 ^ (- e)) by (apply Z.pow_pos_nonneg; lia).
      rewrite H, <- Z.mul_sub_distr_r, Z.abs_mul in H'.
      rewrite (Z.abs_eq (2 ^ (- e))) in H' by lia.
      set (k := 2 ^ (- e)) in *. nia.
Qed.

Lemma doubles_exactly_on_range :
  doubles_exactly_from 0 (Z.to_nat (coordinate_bound + 1)) = true.
Proof. vm_compute. reflexivity. Qed.

Lemma doubles_exactly_from_spec (n : nat) (c0 c : Z) :
  doubles_exactly_from c0 n = true ->
  c0 <= c < c0 + Z.of_nat n ->
  doubles_exactly c = true /\ doubles_exactly (- c) = true.
Proof.
  revert c0. induction n as [|n IH]; intros c0 H Hc; [lia|].
  cbn [doubles_exactly_from] in H.
  apply andb_true_iff in H as [H Hrest]. apply andb_true_iff in H as [H1 H2].
  destruct (Z.eq_dec c c0) as [->|Hne]; [auto|].
  apply (IH (c0 + 1)); [exact Hrest | lia].
Qed.

Lemma doubles_exactly_spec (c : Z) :
  Z.abs c <= coordinate_bound ->
  py_int (PrimFloat.mul (float_of_int c) 2%float) = Ok (2 * c) /\
  denotes_integer (PrimFloat.mul (float_of_int c) 2%float) (2 * c) = true.
Proof.
  intros Hc.
  assert (Hd : doubles_exactly c = true).
  { destruct (Z_le_gt_dec 0 c) as [Hpos|Hneg].
    - apply (doubles_exactly_from_spec _ 0 c doubles_exactly_on_range).
      unfold coordinate_bound in *. lia.
    - replace c with (- - c) by lia.
      apply (doubles_exactly_from_spec _ 0 (- c) doubles_exactly_on_range).
      unfold coordinate_bound in *. lia. }
  unfold doubles_exactly in Hd.
  destruct (py_int (PrimFloat.mul (float_of_int c) 2%float)) as [z|e];
    [|discriminate].
  apply andb_true_iff in Hd as [Hz Hden].
  apply Z.eqb_eq in Hz. subst z. auto.
Qed.

(** The conversion of the extreme [int64] coordinates. *)
Lemma float_of_int_at_the_ends :
  py_int (PrimFloat.mul (float_of_int (-9223372036854775808)) 2%float)
  = Ok (-18446744073709551616) /\
  py_int (PrimFloat.mul (float_of_int 9223372036854775807) 2%float)
  = Ok 18446744073709551616.
Proof. split; vm_compute; reflexivity. Qed.

Lemma scale_face_by_two (face : FaceInfo) :
  within_coordinate_bound face ->
  exists scaled, scale_face 2%float face = Ok scaled.
Proof.
  unfold within_coordinate_bound, scale_face.
  destruct (location face) as [[[top right_] bottom] left_].
  intros (Ht & Hr & Hb & Hl).
  rewrite (proj1 (doubles_exactly_spec top Ht)),
          (proj1 (doubles_exactly_spec right_ Hr)),
          (proj1 (doubles_exactly_spec bottom Hb)),
          (proj1 (doubles_exactly_spec left_ Hl)).
  eexists. reflexivity.
Qed.

Lemma res_map_total {A B : Type} (f : A -> res B) (xs : list A) :
  (forall x, x ∈ xs -> exists y, f x = Ok y) ->
  exists ys, res_map f xs = Ok ys.
Proof.
  induction xs as [|x xs IH]; intros Hall; simpl.
  - eexists. reflexivity.
  - destruct (Hall x) as [y Hy]; [apply list_elem_of_here|].
    destruct IH as [ys Hys].
    { intros x' Hx'. apply Hall. apply list_elem_of_further. exact Hx'. }
    rewrite Hy, Hys. eexists. reflexivity.
Qed.

(** ** The working scale is never assigned *)

Lemma update_camera_config (self self' : FaceAttendanceApp) (h h' : heap)
    (frame : option (list Face)) (clk : nat -> clock) (calls : list FaceInfo)
    (e : option exn) :
  _update_camera self h frame clk = (self', h', calls, e) ->
  same_config self self'.
Proof.
  destruct (is_running self) eqn:Hrun.
  - destruct frame as [faces|].
    + intros H. exact (proj2 (update_camera_counts _ _ _ _ _ _ _ _ Hrun H)).
    + unfold _update_camera. rewrite Hrun. simpl.
      intros H. injection H as <- _ _ _. apply same_config_refl.
  - unfold _update_camera. rewrite Hrun. simpl.
    intros H. injection H as <- _ _ _. apply same_config_refl.
Qed.

Lemma run_config (ticks : list (option (list Face) * (nat -> clock)))
    (self cur : FaceAttendanceApp) (h hcur : heap) (i : nat)
    (calls : list FaceInfo) (e : option exn) :
  run self h ticks !! i = Some (cur, hcur, calls, e) ->
  same_config self cur.
Proof.
  revert self h i. induction ticks as [|[frame clk] rest IH]; intros self h i;
    simpl; [discriminate|].
  destruct (_update_camera self h frame clk) as [[[s1 h1] c1] e1] eqn:Hstep.
  apply update_camera_config in Hstep.
  destruct i as [|i]; simpl.
  - intros H. injection H as <- _ _ _. exact Hstep.
  - intros H. exact (same_config_trans _ _ _ Hstep (IH _ _ _ H)).
Qed.

(** C8.  [__init__] sets the working scale [recognition_scale] to 0.5 and
    no tick of the camera loop assigns it, so it is 0.5 in every state the
    loop reaches.  On a recomputation frame (camera running, the new frame
    count a multiple of [process_every_n_frames]) at that scale, whose
    detection raises nothing and whose boxes lie within [coordinate_bound],
    the rescaling raises nothing either: [last_faces] is bound to a list
    with one entry per detected face, in order, the other attributes of the
    face copied.  Each of the four coordinates [c] of the box on the
    working frame is reported as the result [2 c] of [int()] on the float
    product [x] of [c] and [1.0 / recognition_scale]; [int()] truncates
    toward zero, and as [x] is the integer [2 c] exactly, [2 c] is the
    integer nearest to [x], and the only one. *)
Theorem bounding_boxes_are_rescaled_to_the_nearest_pixel
    (self : FaceAttendanceApp) (h : heap) (faces : list Face)
    (clk : nat -> clock) (small : list FaceInfo) :
  is_running self = true ->
  process_every_n_frames self <> 0 ->
  (frame_count self + 1) mod process_every_n_frames self = 0 ->
  recognition_scale self = 0.5%float ->
  (current_mode self = "attendance" /\
   recognize_faces (face_module self) faces = Ok small) \/
  (current_mode self <> "attendance" /\ small = detect_faces faces) ->
  (forall face, face ∈ small -> within_coordinate_bound face) ->
  (exists self' calls scaled,
     _update_camera self h (Some faces) clk
     = (self', <[last_faces self' := scaled]> h, calls, None) /\
     length scaled = length small /\
     forall k face, small !! k = Some face ->
       exists scaled_face top right_ bottom left_,
         scaled !! k = Some scaled_face /\
         location face = (top, right_, bottom, left_) /\
         location scaled_face = (2 * top, 2 * right_, 2 * bottom, 2 * left_) /\
         (forall c, c = top \/ c = right_ \/ c = bottom \/ c = left_ ->
            py_int (PrimFloat.mul (float_of_int c)
                      (PrimFloat.div 1%float (recognition_scale self)))
            = Ok (2 * c) /\
            is_truncation_toward_zero
              (PrimFloat.mul (float_of_int c)
                 (PrimFloat.div 1%float (recognition_scale self))) (2 * c)
            = true /\
            is_nearest_integer
              (PrimFloat.mul (float_of_int c)
                 (PrimFloat.div 1%float (recognition_scale self))) (2 * c)
            = true /\
            forall z,
              is_nearest_integer
                (PrimFloat.mul (float_of_int c)
                   (PrimFloat.div 1%float (recognition_scale self))) z = true ->
              z = 2 * c) /\
         encoding scaled_face = encoding face /\ name scaled_face = name face /\
         user_id scaled_face = user_id face /\
         confidence scaled_face = confidence face /\
         detection_score scaled_face = detection_score face) /\
  (forall ticks i cur hcur calls e,
     run self h ticks !! i = Some (cur, hcur, calls, e) ->
     recognition_scale cur = 0.5%float) /\
  (forall database fm l, recognition_scale (init database fm l) = 0.5%float).
Proof.
  intros Hrun HN Hmod Hscale Hsmall Hbound.
  split; [|split].
  - assert (Hpos : PrimFloat.ltb 0%float (recognition_scale self) = true)
      by (rewrite Hscale; reflexivity).
    assert (Hfactor : PrimFloat.div 1%float (recognition_scale self) = 2%float)
      by (rewrite Hscale; reflexivity).
    destruct (res_map_total (scale_face 2%float) small) as [scaled Hscaled].
    { intros face Hface. apply scale_face_by_two, Hbound, Hface. }
    pose proof Hscaled as Hscaled'. rewrite <- Hfactor in Hscaled'.
    pose proof (update_camera_recompute self h faces clk scaled Hrun HN Hmod Hpos)
      as [Hatt Hreg].
    assert (Hupd : exists self' calls,
      _update_camera self h (Some faces) clk
      = (self', <[last_faces self' := scaled]> h, calls, None)).
    { destruct Hsmall as [[Hmode Hrec]|[Hmode ->]].
      - destruct (Hatt Hmode small Hrec Hscaled') as (self' & Hupd & Hl).
        exists self', (List.filter recognized small). rewrite Hl. exact Hupd.
      - destruct (Hreg Hmode Hscaled') as (self' & Hupd & Hl & _).
        exists self', []. rewrite Hl. exact Hupd. }
    destruct Hupd as (self' & calls & Hupd).
    exists self', calls, scaled. split; [exact Hupd|].
    destruct (res_map_lookup _ _ _ Hscaled) as [Hlen Hk].
    split; [exact Hlen|].
    intros k face Hface.
    destruct (lookup_lt_is_Some_2 scaled k) as [scaled_face Hsf].
    { rewrite Hlen. eapply lookup_lt_Some, Hface. }
    destruct (scale_face_spec _ _ _ (Hk k face scaled_face Hface Hsf))
      as (top & right_ & bottom & left_ & t & r & b & l & Hloc & Hloc'
          & Ht & Hr & Hb & Hl & Hrest).
    assert (Hin : within_coordinate_bound face).
    { apply Hbound. eapply list_elem_of_lookup_2, Hface. }
    unfold within_coordinate_bound in Hin. rewrite Hloc in Hin.
    destruct Hin as (Bt & Br & Bb & Bl).
    rewrite (proj1 (doubles_exactly_spec top Bt)) in Ht.
    rewrite (proj1 (doubles_exactly_spec right_ Br)) in Hr.
    rewrite (proj1 (doubles_exactly_spec bottom Bb)) in Hb.
    rewrite (proj1 (doubles_exactly_spec left_ Bl)) in Hl.
    injection Ht as <-. injection Hr as <-. injection Hb as <-.
    injection Hl as <-.
    exists scaled_face, top, right_, bottom, left_.
    split; [exact Hsf|]. split; [exact Hloc|]. split; [exact Hloc'|].
    split; [|exact Hrest].
    intros c Hc. rewrite Hfactor.
    assert (Bc : Z.abs c <= coordinate_bound)
      by (destruct Hc as [-> | [-> | [-> | ->]]]; assumption).
    destruct (doubles_exactly_spec c Bc) as [Hint Hden].
    split; [exact Hint|]. split; [exact (py_int_truncates _ _ Hint)|].
    split; [exact (denotes_integer_nearest _ _ Hden)|].
    intros z Hz. exact (denotes_integer_only_nearest _ _ _ Hden Hz).
  - intros ticks i cur hcur calls e Hi.
    destruct (run_config _ _ _ _ _ _ _ _ Hi) as (_ & _ & _ & _ & Hsc).
    congruence.
  - reflexivity.
Qed.

Lemma bounding_boxes_are_rescaled_to_the_nearest_pixel_witness :
  exists self' calls scaled scaled_face,
    _update_camera (Examples.app_with 1 0.5) ∅ (Some [Examples.face_at 7])
                   Examples.clock_at
    = (self', <[last_faces self' := scaled]> ∅, calls, None) /\
    scaled !! 0%nat = Some scaled_face /\
    location scaled_face = (14, 14, 14, 14).
Proof.
  destruct (bounding_boxes_are_rescaled_to_the_nearest_pixel
    (Examples.app_with 1 0.5) ∅ [Examples.face_at 7] Examples.clock_at
    [ {| location := (7, 7, 7, 7); encoding := None; name := "Unknown";
         user_id := None; confidence := 0%float; detection_score := 0.9%float |} ])
    as [(self' & calls & scaled & Hupd & _ & Hk) _].
  - reflexivity.
  - discriminate.
  - reflexivity.
  - reflexivity.
  - left. split; reflexivity.
  - intros face Hface. apply list_elem_of_singleton in Hface. subst face.
    unfold within_coordinate_bound, coordinate_bound. simpl. lia.
  - destruct (Hk 0%nat _ eq_refl)
      as (scaled_face & top & right_ & bottom & left_ & Hsf & Hloc & Hloc' & _).
    simpl in Hloc. injection Hloc as <- <- <- <-.
    exists self', calls, scaled, scaled_face. auto.
Defined.

End Camera.

(* ===================================================================== *)
(** * Further properties of the database                                  *)
(* ===================================================================== *)

Section DatabaseMore.
Import Database DatabaseUsers.

Lemma find_none_iff {A : Type} (f : A -> bool) (l : list A) :
  List.find f l = None <-> forall x, In x l -> f x = false.
Proof.
  split.
  - intros H x Hx. exact (List.find_none f l H x Hx).
  - induction l as [|y l IH]; intros H; simpl; [reflexivity|].
    rewrite (H y (or_introl eq_refl)). apply IH.
    intros x Hx. apply H. right. exact Hx.
Qed.

Lemma row_matches_key (A : Z) (d : date) (r : attendance_row) :
  row_matches A d r = true <-> (att_user_id r, att_date r) = (A, d).
Proof.
  unfold row_matches. rewrite andb_true_iff, Z.eqb_eq, bool_decide_eq_true.
  split; [intros [-> ->]; reflexivity | intros H; injection H; auto].
Qed.

Lemma select_none_key (db : DatabaseManager) (A : Z) (d : date) :
  select_existing db A d = None ->
  ~ In (A, d) (map (fun r => (att_user_id r, att_date r)) (attendance db)).
Proof.
  unfold select_existing. intros Hnone Hin.
  apply in_map_iff in Hin as (r & Hkey & Hr).
  pose proof (List.find_none _ _ Hnone r Hr) as Hf.
  apply row_matches_key in Hkey. congruence.
Qed.

Lemma update_check_out_keys (db : DatabaseManager) (now : datetime) (id : Z) :
  map (fun r => (att_user_id r, att_date r)) (attendance (update_check_out db now id))
  = map (fun r => (att_user_id r, att_date r)) (attendance db) /\
  map att_id (attendance (update_check_out db now id)) = map att_id (attendance db).
Proof.
  unfold update_check_out. simpl. rewrite !map_map. split; apply map_ext;
    intros r; destruct (att_id r =? id); reflexivity.
Qed.

Lemma attendance_wf_insert (db db' : DatabaseManager) (A : Z) (d : date)
    (now : datetime) :
  attendance_wf db ->
  select_existing db A d = None ->
  insert_attendance db A d now = Ok db' ->
  attendance_wf db'.
Proof.
  intros (Hkeys & Hids & Hseq & Hin) Hnone. unfold insert_attendance.
  pose proof Hnone as Hex. unfold select_existing in Hex.
  rewrite (find_none_existsb _ _ Hex). intros H. injection H as <-.
  unfold attendance_wf. simpl. rewrite !map_app. simpl.
  split; [|split; [|split]].
  - apply NoDup_app. split; [exact Hkeys|]. split.
    + intros k Hk Hk'. apply list_elem_of_In in Hk.
      apply list_elem_of_singleton in Hk'. subst k.
      exact (select_none_key db A d Hnone Hk).
    + apply NoDup_singleton.
  - apply NoDup_app. split; [exact Hids|]. split.
    + intros i Hi Hi'. apply list_elem_of_singleton in Hi'. subst i.
      apply list_elem_of_In, in_map_iff in Hi as (r & Hr & Hrin).
      rewrite Forall_forall in Hseq. apply list_elem_of_In in Hrin.
      specialize (Hseq r Hrin). lia.
    + apply NoDup_singleton.
  - apply Forall_app. split.
    + eapply Forall_impl; [exact Hseq|]. intros r Hr. simpl in *. lia.
    + apply Forall_singleton. simpl. lia.
  - apply Forall_app. split; [exact Hin|]. apply Forall_singleton. discriminate.
Qed.

Lemma attendance_wf_update (db : DatabaseManager) (now : datetime) (id : Z) :
  attendance_wf db -> attendance_wf (update_check_out db now id).
Proof.
  intros (Hkeys & Hids & Hseq & Hin).
  destruct (update_check_out_keys db now id) as [Hk Hi].
  unfold attendance_wf. rewrite Hk, Hi.
  split; [exact Hkeys|]. split; [exact Hids|].
  unfold update_check_out. simpl. split.
  - apply Forall_map. eapply Forall_impl; [exact Hseq|].
    intros r Hr. destruct (att_id r =? id); exact Hr.
  - apply Forall_map. eapply Forall_impl; [exact Hin|].
    intros r Hr. destruct (att_id r =? id); exact Hr.
Qed.

Lemma record_attendance_cases (db : DatabaseManager) (A : Z) (ct : string)
    (d : date) (now : datetime) :
  (fst (record_attendance db A ct d now) = db /\
   exists message, snd (record_attendance db A ct d now) = Ok (false, message)) \/
  (ct = "in" /\ select_existing db A d = None /\
   exists db' message,
     insert_attendance db A d now = Ok db' /\
     record_attendance db A ct d now = (db', Ok (true, message))) \/
  (ct <> "in" /\
   exists row message,
     select_existing db A d = Some row /\ att_check_out_time row = None /\
     record_attendance db A ct d now
     = (update_check_out db now (att_id row), Ok (true, message))).
Proof.
  unfold record_attendance.
  destruct (String.eqb ct "in") eqn:Hct.
  - apply String.eqb_eq in Hct.
    destruct (select_existing db A d) as [row|] eqn:Hsel.
    + left. simpl. eauto.
    + right. left. unfold insert_attendance. unfold select_existing in Hsel.
      rewrite (find_none_existsb _ _ Hsel). eauto 10.
  - apply String.eqb_neq in Hct.
    destruct (select_existing db A d) as [row|] eqn:Hsel.
    + destruct (att_check_out_time row) eqn:Hout; simpl.
      * left. eauto.
      * right. right. split; [exact Hct|]. exists row. eauto.
    + left. simpl. eauto.
Qed.

(** X1.  [record_attendance] keeps the attendance table well formed: after
    any call, with any [check_type], there is still at most one row per
    (user, day), row ids are distinct and below the AUTOINCREMENT counter,
    and every row has a check-in time. *)
Theorem record_attendance_keeps_table_well_formed (db : DatabaseManager) (A : Z)
    (check_type : string) (d : date) (now : datetime) :
  attendance_wf db ->
  attendance_wf (fst (record_attendance db A check_type d now)).
Proof.
  intros Hwf.
  destruct (record_attendance_cases db A check_type d now)
    as [[-> _] | [(_ & Hnone & db' & m & Hins & ->) | (_ & row & m & _ & _ & ->)]].
  - exact Hwf.
  - exact (attendance_wf_insert db db' A d now Hwf Hnone Hins).
  - apply attendance_wf_update, Hwf.
Qed.

Lemma attendance_wf_empty : attendance_wf Examples.empty_db.
Proof. repeat split; constructor. Qed.

Lemma record_attendance_keeps_table_well_formed_witness :
  attendance_wf
    (fst (record_attendance Examples.empty_db 7 "in" Examples.day Examples.morning)).
Proof.
  apply (record_attendance_keeps_table_well_formed Examples.empty_db 7 "in"
           Examples.day Examples.morning).
  repeat split; constructor.
Defined.

Lemma same_id_same_row (db : DatabaseManager) (r1 r2 : attendance_row) :
  NoDup (map att_id (attendance db)) ->
  In r1 (attendance db) -> In r2 (attendance db) ->
  att_id r1 = att_id r2 -> r1 = r2.
Proof.
  induction (attendance db) as [|r rows IH]; simpl; intros Hnd H1 H2 Hid.
  - contradiction.
  - apply NoDup_cons in Hnd as [Hnotin Hnd].
    destruct H1 as [<-|H1], H2 as [<-|H2].
    + reflexivity.
    + exfalso. apply Hnotin. rewrite Hid. apply list_elem_of_In, in_map, H2.
    + exfalso. apply Hnotin. rewrite <- Hid. apply list_elem_of_In, in_map, H1.
    + exact (IH Hnd H1 H2 Hid).
Qed.

(** X2.  [record_attendance] for identity [A] on day [d] leaves the record
    of every other (identity, day) exactly as it was: what the SELECT finds
    for [(B, d')] is the same row before and after. *)
Theorem record_attendance_touches_one_record (db : DatabaseManager) (A B : Z)
    (check_type : string) (d d' : date) (now : datetime) :
  attendance_wf db ->
  (B, d') <> (A, d) ->
  select_existing (fst (record_attendance db A check_type d now)) B d'
  = select_existing db B d'.
Proof.
  intros (_ & Hids & _ & _) Hother.
  destruct (record_attendance_cases db A check_type d now)
    as [[-> _] | [(_ & Hnone & db' & m & Hins & ->) | (_ & row & m & Hsel & _ & ->)]].
  - reflexivity.
  - simpl. unfold insert_attendance in Hins.
    destruct (existsb _ _); [discriminate|]. injection Hins as <-.
    unfold select_existing. simpl.
    destruct (List.find (row_matches B d') (attendance db)) as [r|] eqn:Hf.
    + apply List.find_some in Hf as Hf'.
      clear Hnone. revert Hf. generalize (attendance db) as rows.
      induction rows as [|x rows IH]; simpl; [discriminate|].
      destruct (row_matches B d' x); [auto | exact IH].
    + rewrite (find_snoc _ _ _ Hf).
      destruct (row_matches B d' _) eqn:Hm; [|reflexivity].
      apply row_matches_key in Hm. simpl in Hm. congruence.
  - simpl. unfold select_existing, update_check_out in *. simpl.
    rewrite find_map_stable
      by (intros x; destruct (att_id x =? att_id row); reflexivity).
    destruct (List.find (row_matches B d') (attendance db)) as [r|] eqn:Hf;
      [|reflexivity].
    simpl. destruct (att_id r =? att_id row) eqn:Hid; [|reflexivity].
    exfalso. apply Z.eqb_eq in Hid.
    apply List.find_some in Hf as [Hrin Hrm].
    apply List.find_some in Hsel as [Hrowin Hrowm].
    assert (r = row) by exact (same_id_same_row db r row Hids Hrin Hrowin Hid).
    subst r. apply row_matches_key in Hrm, Hrowm. congruence.
Qed.

Lemma record_attendance_touches_one_record_witness :
  select_existing
    (fst (record_attendance Examples.empty_db 7 "in" Examples.day Examples.morning))
    8 Examples.day
  = select_existing Examples.empty_db 8 Examples.day.
Proof.
  apply (record_attendance_touches_one_record Examples.empty_db 7 8 "in"
           Examples.day Examples.day Examples.morning).
  - repeat split; constructor.
  - discriminate.
Defined.

Lemma filter_snoc {A : Type} (f : A -> bool) (l : list A) (x : A) :
  List.filter f (l ++ [x])%list
  = (List.filter f l ++ (if f x then [x] else []))%list.
Proof. rewrite List.filter_app. reflexivity. Qed.

Lemma filter_map_length {A : Type} (f : A -> bool) (g : A -> A) (l : list A) :
  (forall x, f (g x) = f x) ->
  length (List.filter f (map g l)) = length (List.filter f l).
Proof.
  intros Hfg. induction l as [|x l IH]; simpl; [reflexivity|].
  rewrite Hfg. destruct (f x); simpl; rewrite IH; reflexivity.
Qed.

(** X3.  The figure [get_today_attendance_count] reports goes up by exactly
    one with a successful check-in on that day, and is left alone by
    everything else [record_attendance] does: a rejected request, a
    check-out, or a check-in on another day. *)
Theorem today_count_counts_check_ins (db : DatabaseManager) (A : Z)
    (check_type : string) (d today : date) (now : datetime) :
  get_today_attendance_count (fst (record_attendance db A check_type d now)) today
  = if String.eqb check_type "in" && bool_decide (d = today)
       && bool_decide (select_existing db A d = None)
    then S (get_today_attendance_count db today)
    else get_today_attendance_count db today.
Proof.
  unfold get_today_attendance_count.
  destruct (record_attendance_cases db A check_type d now)
    as [[Hdb [m Hres]] | [(-> & Hnone & db' & m & Hins & Hrec)
                         | (Hct & row & m & Hsel & _ & Hrec)]].
  - rewrite Hdb.
    destruct (String.eqb check_type "in") eqn:Hct; [|reflexivity].
    destruct (bool_decide (d = today)); [|reflexivity].
    destruct (select_existing db A d) as [row|] eqn:Hsel; [reflexivity|].
    exfalso. apply String.eqb_eq in Hct. subst check_type.
    destruct (check_in_fresh db A d now Hsel) as (db1 & Hin & _).
    rewrite Hin in Hres. discriminate.
  - rewrite Hrec. simpl fst. rewrite Hnone.
    unfold insert_attendance in Hins.
    destruct (existsb _ _); [discriminate|]. injection Hins as <-.
    simpl attendance. rewrite filter_snoc, length_app. simpl.
    destruct (bool_decide (d = today)); simpl; lia.
  - rewrite Hrec. simpl fst. rewrite (not_in_eqb _ Hct). simpl.
    unfold update_check_out. simpl.
    apply filter_map_length. intros x.
    destruct (att_id x =? att_id row); reflexivity.
Qed.

Lemma find_filter_kept {A : Type} (f g : A -> bool) (l : list A) :
  (forall x, f x = true -> g x = true) ->
  List.find f (List.filter g l) = List.find f l.
Proof.
  intros Hfg. induction l as [|x l IH]; simpl; [reflexivity|].
  destruct (f x) eqn:Hf.
  - rewrite (Hfg x Hf). simpl. rewrite Hf. reflexivity.
  - destruct (g x); simpl; [rewrite Hf|]; exact IH.
Qed.

Lemma find_filter_removed {A : Type} (f g : A -> bool) (l : list A) :
  (forall x, f x = true -> g x = false) ->
  List.find f (List.filter g l) = None.
Proof.
  intros Hfg. apply find_none_iff. intros x Hx.
  apply filter_In in Hx as [_ Hg].
  destruct (f x) eqn:Hf; [|reflexivity]. rewrite (Hfg x Hf) in Hg. discriminate.
Qed.

Lemma NoDup_map_filter {A B : Type} (k : A -> B) (g : A -> bool) (l : list A) :
  NoDup (map k l) -> NoDup (map k (List.filter g l)).
Proof.
  induction l as [|x l IH]; simpl; intros Hnd; [exact Hnd|].
  apply NoDup_cons in Hnd as [Hx Hnd].
  destruct (g x); simpl; [|exact (IH Hnd)].
  apply NoDup_cons. split; [|exact (IH Hnd)].
  intros Hin. apply Hx. apply list_elem_of_In in Hin. apply list_elem_of_In.
  apply in_map_iff in Hin as (y & Hy & Hyin).
  apply in_map_iff. exists y. apply filter_In in Hyin as [Hyin _]. auto.
Qed.

Lemma Forall_filter_keep {A : Type} (P : A -> Prop) (g : A -> bool) (l : list A) :
  Forall P l -> Forall P (List.filter g l).
Proof.
  rewrite !Forall_forall. intros H x Hx. apply H.
  apply list_elem_of_In in Hx. apply filter_In in Hx as [Hx _].
  apply list_elem_of_In. exact Hx.
Qed.

(** X4.  [delete_user] cascades and is selective.  It returns [True]; the
    user can no longer be fetched and has no attendance record left for any
    day; every other user and every other user's attendance records are
    fetched exactly as before; the AUTOINCREMENT counters are kept, and both
    tables stay well formed. *)
Theorem delete_user_cascades (s : Store) (user_id : Z) :
  snd (delete_user s user_id) = true /\
  get_user_by_id (fst (delete_user s user_id)) user_id = None /\
  (forall d,
     select_existing (attendance_db (fst (delete_user s user_id))) user_id d = None) /\
  (forall other, other <> user_id ->
     get_user_by_id (fst (delete_user s user_id)) other = get_user_by_id s other /\
     forall d,
       select_existing (attendance_db (fst (delete_user s user_id))) other d
       = select_existing (attendance_db s) other d) /\
  users_seq (fst (delete_user s user_id)) = users_seq s /\
  (users_wf s -> users_wf (fst (delete_user s user_id))) /\
  (attendance_wf (attendance_db s) ->
   attendance_wf (attendance_db (fst (delete_user s user_id)))).
Proof.
  unfold delete_user, get_user_by_id, select_existing. simpl.
  split; [reflexivity|]. split; [|split; [|split; [|split; [reflexivity|split]]]].
  - apply find_filter_removed. intros u Hu. rewrite Hu. reflexivity.
  - intros d. apply find_filter_removed. intros r Hr.
    unfold row_matches in Hr. apply andb_true_iff in Hr as [Hr _].
    rewrite Hr. reflexivity.
  - intros other Hother. split.
    + apply find_filter_kept. intros u Hu. apply Z.eqb_eq in Hu.
      apply negb_true_iff, Z.eqb_neq. congruence.
    + intros d. apply find_filter_kept. intros r Hr.
      unfold row_matches in Hr. apply andb_true_iff in Hr as [Hr _].
      apply Z.eqb_eq in Hr. apply negb_true_iff, Z.eqb_neq. congruence.
  - intros [Hids Hseq]. split; simpl.
    + apply NoDup_map_filter, Hids.
    + apply Forall_filter_keep, Hseq.
  - intros (Hkeys & Hids & Hseq & Hin). repeat split; simpl.
    + apply NoDup_map_filter, Hkeys.
    + apply NoDup_map_filter, Hids.
    + apply Forall_filter_keep, Hseq.
    + apply Forall_filter_keep, Hin.
Qed.

Lemma delete_user_cascades_witness :
  get_user_by_id (fst (delete_user MoreExamples.store_ab 1)) 2
  = get_user_by_id MoreExamples.store_ab 2.
Proof.
  refine (proj1 (proj1 (proj2 (proj2 (proj2
            (delete_user_cascades MoreExamples.store_ab 1)))) 2 _)).
  discriminate.
Defined.

(** X5.  [add_user] hands out an id no user has (given a well-formed users
    table): the id is one above the AUTOINCREMENT counter, nothing could be
    fetched under it before, the new row is fetched under it afterwards,
    every other id fetches what it did, the new identity is the last entry
    of [get_all_face_encodings], the user count grows by one, the attendance
    table is untouched and the users table stays well formed. *)
Theorem add_user_assigns_fresh_id (s : Store) (name : string)
    (face_encoding : list float) (department photo_path : string) :
  users_wf s ->
  snd (add_user s name face_encoding department photo_path) = users_seq s + 1 /\
  get_user_by_id s (users_seq s + 1) = None /\
  get_user_by_id (fst (add_user s name face_encoding department photo_path))
                 (users_seq s + 1)
  = Some {| usr_id := users_seq s + 1; usr_name := name;
            usr_department := department;
            usr_face_encoding := face_encoding;
            usr_photo_path := photo_path |} /\
  (forall other, other <> users_seq s + 1 ->
     get_user_by_id (fst (add_user s name face_encoding department photo_path))
                    other
     = get_user_by_id s other) /\
  get_all_face_encodings (fst (add_user s name face_encoding department photo_path))
  = (get_all_face_encodings s ++ [(users_seq s + 1, name, face_encoding)])%list /\
  get_total_user_count (fst (add_user s name face_encoding department photo_path))
  = S (get_total_user_count s) /\
  attendance_db (fst (add_user s name face_encoding department photo_path))
  = attendance_db s /\
  users_wf (fst (add_user s name face_encoding department photo_path)).
Proof.
  intros [Hids Hseq].
  assert (Hfresh : List.find (fun u => usr_id u =? users_seq s + 1) (users s) = None).
  { apply find_none_iff. intros u Hu. apply Z.eqb_neq.
    rewrite Forall_forall in Hseq. apply list_elem_of_In in Hu.
    specialize (Hseq u Hu). lia. }
  unfold add_user, get_user_by_id, get_all_face_encodings, get_total_user_count.
  simpl. split; [reflexivity|]. split; [exact Hfresh|]. split.
  { rewrite (find_snoc _ _ _ Hfresh). simpl. rewrite Z.eqb_refl. reflexivity. }
  split.
  { intros other Hother.
    destruct (List.find (fun u => usr_id u =? other) (users s)) as [u|] eqn:Hf.
    - revert Hf. generalize (users s) as us.
      induction us as [|x us IH]; simpl; [discriminate|].
      destruct (usr_id x =? other); [auto | exact IH].
    - rewrite (find_snoc _ _ _ Hf). simpl.
      destruct (users_seq s + 1 =? other) eqn:He; [|reflexivity].
      apply Z.eqb_eq in He. congruence. }
  split; [rewrite map_app; reflexivity|].
  split; [rewrite length_app; simpl; lia|].
  split; [reflexivity|].
  unfold users_wf. simpl. rewrite map_app. simpl. split.
  - apply NoDup_app. split; [exact Hids|]. split; [|apply NoDup_singleton].
    intros i Hi Hi'. apply list_elem_of_singleton in Hi'. subst i.
    apply list_elem_of_In, in_map_iff in Hi as (u & Hu & Huin).
    rewrite Forall_forall in Hseq. apply list_elem_of_In in Huin.
    specialize (Hseq u Huin). lia.
  - apply Forall_app. split.
    + eapply Forall_impl; [exact Hseq|]. intros u Hu. simpl in *. lia.
    + apply Forall_singleton. simpl. lia.
Qed.

Lemma add_user_assigns_fresh_id_witness :
  snd (add_user MoreExamples.empty_store "A" [1; 0]%float "dev" "a.jpg") = 1.
Proof.
  refine (proj1 (add_user_assigns_fresh_id MoreExamples.empty_store "A"
                   [1; 0]%float "dev" "a.jpg" _)).
  split; constructor.
Defined.

End DatabaseMore.

(* ===================================================================== *)
(** * Further properties of the registry                                  *)
(* ===================================================================== *)

Section RegistryMore.
Import Np FaceRecognition.

Lemma load_known_faces_ok (self : FaceRecognitionModule)
    (face_data : list (Z * string * vec)) :
  np_array (map row_encoding face_data) = Ok (map row_encoding face_data) ->
  load_known_faces self face_data
  = (loaded_module (tolerance self) face_data, Ok tt).
Proof.
  intros Harr. unfold load_known_faces. rewrite append_all_spec.
  unfold loaded_module.
  destruct (map row_encoding face_data) as [|r rs]; [reflexivity|].
  rewrite Harr. reflexivity.
Qed.

(** X6.  A [load_known_faces] that returns normally replaces the registry
    wholesale: the resulting object is determined by the tolerance and the
    [face_data] alone, so nothing of the previous registry survives, loading
    the same data again changes nothing, and the three lists have one entry
    per row of [face_data]. *)
Theorem load_replaces_the_registry (self self' st : FaceRecognitionModule)
    (face_data : list (Z * string * vec)) :
  load_known_faces self face_data = (st, Ok tt) ->
  tolerance self' = tolerance self ->
  load_known_faces self' face_data = (st, Ok tt) /\
  load_known_faces st face_data = (st, Ok tt) /\
  length (known_face_encodings st) = length face_data /\
  length (known_face_names st) = length face_data /\
  length (known_face_ids st) = length face_data.
Proof.
  intros Hload Htol.
  apply load_known_faces_returns in Hload as [-> Harr].
  split; [|split].
  - rewrite (load_known_faces_ok self' face_data Harr), Htol. reflexivity.
  - rewrite (load_known_faces_ok _ face_data Harr). reflexivity.
  - simpl. rewrite !length_map. auto.
Qed.

Lemma load_replaces_the_registry_witness :
  load_known_faces (fst (load_known_faces (init 0.5) Examples.registry_abc))
                   Examples.registry_a
  = (fst (load_known_faces (init 0.5) Examples.registry_a), Ok tt).
Proof.
  refine (proj1 (load_replaces_the_registry (init 0.5)
                   (fst (load_known_faces (init 0.5) Examples.registry_abc))
                   (fst (load_known_faces (init 0.5) Examples.registry_a))
                   Examples.registry_a _ _)); reflexivity.
Defined.

(** ** Query embeddings of the wrong dimension *)

Lemma recognize_face_wrong_dimension (tol : float) (row0 : Z * string * vec)
    (rest : list (Z * string * vec)) (face : Face) (emb : vec) :
  embedding face = Some emb ->
  length emb <> length (row_encoding row0) ->
  recognize_face (loaded_module tol (row0 :: rest)) face = Raise ValueError.
Proof.
  intros Hemb Hlen. unfold recognize_face.
  destruct (bbox face) as [[[x1 y1] x2] y2]. rewrite Hemb. simpl.
  unfold best_match, _compute_similarities_batch. simpl.
  unfold np_dot_mv. simpl. rewrite !np_div_length.
  destruct (Nat.eqb (length (row_encoding row0)) (length emb)) eqn:He.
  - apply Nat.eqb_eq in He. congruence.
  - reflexivity.
Qed.

Lemma res_map_raise {A B : Type} (f : A -> res B) (xs : list A) (e : exn) :
  (forall x, In x xs -> (exists y, f x = Ok y) \/ f x = Raise e) ->
  (exists x, In x xs /\ f x = Raise e) ->
  res_map f xs = Raise e.
Proof.
  induction xs as [|x xs IH]; intros Hall (x0 & Hin & Hraise).
  - contradiction.
  - simpl. destruct (Hall x (or_introl eq_refl)) as [[y Hy]|Hx].
    + rewrite Hy. simpl. cbn [mbind res_mbind res_bind].
      rewrite IH; [reflexivity| |].
      * intros z Hz. apply Hall. right. exact Hz.
      * destruct Hin as [<-|Hin]; [congruence|]. eauto.
    + rewrite Hx. reflexivity.
Qed.

Lemma recognize_faces_loaded_dimension (tol : float) (row0 : Z * string * vec)
    (rest : list (Z * string * vec)) (faces : list Face) :
  np_array (map row_encoding (row0 :: rest)) = Ok (map row_encoding (row0 :: rest)) ->
  ((exists face emb,
      In face faces /\ embedding face = Some emb /\
      length emb <> length (row_encoding row0)) ->
   recognize_faces (loaded_module tol (row0 :: rest)) faces = Raise ValueError) /\
  ((forall face emb,
      In face faces -> embedding face = Some emb ->
      length emb = length (row_encoding row0)) ->
   exists result,
     recognize_faces (loaded_module tol (row0 :: rest)) faces = Ok result /\
     length result = length faces /\
     forall info, In info result ->
       name info <> "Unknown" -> is_Some (user_id info)).
Proof.
  intros Harr.
  assert (Hrows : forall row, row ∈ row0 :: rest ->
                    length (row_encoding row) = length (row_encoding row0)).
  { intros row Hrow.
    apply (np_array_lengths _ _ (row_encoding row) (row_encoding row0) Harr).
    - apply list_elem_of_In, in_map, list_elem_of_In, Hrow.
    - simpl. left. }
  assert (Hgood : forall face,
            (forall emb, embedding face = Some emb ->
                         length emb = length (row_encoding row0)) ->
            exists info, recognize_face (loaded_module tol (row0 :: rest)) face
                         = Ok info /\
                         (name info <> "Unknown" -> is_Some (user_id info))).
  { intros face Hface.
    destruct (recognize_face_loaded tol (row0 :: rest) face)
      as (info & H & _ & _ & _ & Hcase).
    { intros emb row Hemb Hrow. rewrite (Hrows row Hrow). symmetry. eauto. }
    exists info. split; [exact H|]. intros Hname.
    destruct (embedding face) as [emb|].
    - destruct Hcase as (i & best & row & _ & _ & Hacc).
      destruct (PrimFloat.leb tol best).
      + destruct Hacc as (_ & Hu & _). rewrite Hu. eauto.
      + destruct Hacc as (Hn & _). congruence.
    - destruct Hcase as (Hn & _). congruence. }
  split.
  - intros (face & emb & Hin & Hemb & Hlen).
    apply res_map_raise.
    + intros f Hf. destruct (embedding f) as [e|] eqn:He.
      * destruct (Nat.eq_dec (length e) (length (row_encoding row0))) as [Heq|Hne].
        -- left. destruct (Hgood f) as (info & Hi & _); [|eauto].
           intros e' He'. congruence.
        -- right. exact (recognize_face_wrong_dimension tol row0 rest f e He Hne).
      * left. destruct (Hgood f) as (info & Hi & _); [|eauto].
        intros e' He'. congruence.
    + exists face. split; [exact Hin|].
      exact (recognize_face_wrong_dimension tol row0 rest face emb Hemb Hlen).
  - intros Hall.
    destruct (res_map_ok (recognize_face (loaded_module tol (row0 :: rest))) faces)
      as (result & Hres & Hlen & Hk).
    + intros face Hface. destruct (Hgood face) as (info & Hi & _); [|eauto].
      intros emb Hemb.
      apply (Hall face emb); [apply list_elem_of_In, Hface | exact Hemb].
    + exists result. split; [exact Hres|]. split; [exact Hlen|].
      intros info Hinfo Hname.
      apply (In_nth_error result info) in Hinfo as [k Hk'].
      assert (Hkl : result !! k = Some info).
      { clear -Hk'. revert k Hk'. induction result as [|y ys IH]; intros [|k];
          simpl; intros H; try discriminate; [exact H | exact (IH k H)]. }
      assert (Hlt : (k < length faces)%nat).
      { rewrite <- Hlen. eapply lookup_lt_Some, Hkl. }
      destruct (lookup_lt_is_Some_2 faces k Hlt) as [face Hface].
      destruct (Hgood face) as (info' & Hi & Hid).
      { intros emb Hemb.
        apply (Hall face emb); [|exact Hemb].
        apply list_elem_of_In. eapply list_elem_of_lookup_2, Hface. }
      rewrite (Hk k face info Hface Hkl) in Hi. injection Hi as <-.
      exact (Hid Hname).
Qed.

(** X7.  Against a loaded, non-empty registry, [recognize_faces] raises
    [ValueError] as soon as one detected face carries an embedding whose
    length is not the registry's dimension (no entry is returned for any
    face of the frame then), and returns a result whenever no face does. *)
Theorem wrong_dimension_query_raises (self st : FaceRecognitionModule)
    (row0 : Z * string * vec) (rest : list (Z * string * vec))
    (faces : list Face) :
  load_known_faces self (row0 :: rest) = (st, Ok tt) ->
  ((exists face emb,
      In face faces /\ embedding face = Some emb /\
      length emb <> length (row_encoding row0)) ->
   recognize_faces st faces = Raise ValueError) /\
  ((forall face emb,
      In face faces -> embedding face = Some emb ->
      length emb = length (row_encoding row0)) ->
   exists result,
     recognize_faces st faces = Ok result /\ length result = length faces).
Proof.
  intros Hload.
  apply load_known_faces_returns in Hload as [-> Harr].
  destruct (recognize_faces_loaded_dimension (tolerance self) row0 rest faces Harr)
    as [Hraise Hret].
  split; [exact Hraise|].
  intros Hall. destruct (Hret Hall) as (result & Hres & Hlen & _).
  exists result. split; [exact Hres | exact Hlen].
Qed.

Lemma wrong_dimension_query_raises_witness :
  recognize_faces (fst (load_known_faces (init 0.5) Examples.registry_a))
                  [Examples.face_of Examples.query_050]
  = Raise ValueError.
Proof.
  refine (proj1 (wrong_dimension_query_raises (init 0.5)
                   (fst (load_known_faces (init 0.5) Examples.registry_a))
                   (1, "A", [1; 0]%float) [] [Examples.face_of Examples.query_050]
                   _) _).
  - reflexivity.
  - exists (Examples.face_of Examples.query_050), Examples.query_050.
    split; [left; reflexivity|]. split; [reflexivity | simpl; lia].
Defined.

(** ** The all-zero query embedding *)

Lemma mul_nan_r (x y : float) :
  PrimFloat.is_nan y = true -> PrimFloat.is_nan (PrimFloat.mul x y) = true.
Proof.
  rewrite !is_nan_spec, mul_spec. intros ->.
  unfold SF64mul, SFmul. destruct (Prim2SF x); reflexivity.
Qed.

Lemma add_nan_r (x y : float) :
  PrimFloat.is_nan y = true -> PrimFloat.is_nan (PrimFloat.add x y) = true.
Proof.
  rewrite !is_nan_spec, add_spec. intros ->.
  unfold SF64add, SFadd. destruct (Prim2SF x); reflexivity.
Qed.

Lemma add_nan_l (x y : float) :
  PrimFloat.is_nan x = true -> PrimFloat.is_nan (PrimFloat.add x y) = true.
Proof.
  rewrite !is_nan_spec, add_spec. intros ->. reflexivity.
Qed.

Lemma dot_fold_nan (l : list (float * float)) (acc : float) :
  (forall xy, In xy l -> PrimFloat.is_nan (snd xy) = true) ->
  l <> [] \/ PrimFloat.is_nan acc = true ->
  PrimFloat.is_nan
    (fold_left (fun acc xy => PrimFloat.add acc (PrimFloat.mul (fst xy) (snd xy)))
               l acc) = true.
Proof.
  revert acc. induction l as [|xy l IH]; intros acc Hall Hstart; simpl.
  - destruct Hstart as [H|H]; [congruence | exact H].
  - apply IH.
    + intros z Hz. apply Hall. right. exact Hz.
    + right. apply add_nan_r, mul_nan_r, Hall. left. reflexivity.
Qed.

Lemma dot_row_nan (row : vec) (n : nat) :
  row <> [] -> length row = n ->
  PrimFloat.is_nan (dot_row row (repeat PrimFloat.nan n)) = true.
Proof.
  intros Hne Hlen. unfold dot_row. apply dot_fold_nan.
  - intros [x y] Hin. apply in_combine_r in Hin. apply repeat_spec in Hin.
    simpl. subst y. reflexivity.
  - left. destruct row as [|x row]; [congruence|]. subst n. simpl. discriminate.
Qed.

Lemma norm_of_zeros (n : nat) : np_linalg_norm (repeat 0%float n) = 0%float.
Proof.
  unfold np_linalg_norm.
  assert (H : fold_left (fun acc x => PrimFloat.add acc (PrimFloat.mul x x))
                        (repeat 0%float n) 0%float = 0%float).
  { induction n as [|n IH]; simpl; [reflexivity | exact IH]. }
  rewrite H. reflexivity.
Qed.

Lemma normalized_zeros (n : nat) :
  np_div (repeat 0%float n) (np_linalg_norm (repeat 0%float n))
  = repeat PrimFloat.nan n.
Proof.
  rewrite norm_of_zeros. unfold np_div.
  induction n as [|n IH]; simpl; [reflexivity|]. rewrite IH. reflexivity.
Qed.

(** X8.  An all-zero query embedding is never matched.  Its norm is zero,
    normalizing it divides zero by zero, every similarity comes out NaN,
    [np.argmax] settles on index 0, and [NaN >= tolerance] is false: against
    any loaded, non-empty registry (of positive dimension) and for any
    tolerance the face is reported Unknown, without an exception. *)
Theorem zero_query_is_reported_unknown (self st : FaceRecognitionModule)
    (row0 : Z * string * vec) (rest : list (Z * string * vec)) (face : Face) :
  load_known_faces self (row0 :: rest) = (st, Ok tt) ->
  row_encoding row0 <> [] ->
  embedding face = Some (repeat 0%float (length (row_encoding row0))) ->
  exists best info,
    best_match st (repeat 0%float (length (row_encoding row0))) = Ok (0%nat, best) /\
    PrimFloat.is_nan best = true /\
    recognize_face st face = Ok info /\ is_unknown info.
Proof.
  intros Hload Hne Hemb.
  apply load_known_faces_returns in Hload as [-> Harr].
  set (tol := tolerance self). set (D := length (row_encoding row0)) in *.
  assert (Hrows : forall row, row ∈ row0 :: rest -> length (row_encoding row) = D).
  { intros row Hrow.
    apply (np_array_lengths _ _ (row_encoding row) (row_encoding row0) Harr).
    - apply list_elem_of_In, in_map, list_elem_of_In, Hrow.
    - simpl. left. }
  assert (Hdim : forall row, row ∈ row0 :: rest ->
                   length (row_encoding row) = length (repeat 0%float D)).
  { intros row Hrow. rewrite repeat_length. exact (Hrows row Hrow). }
  pose proof (similarities_of_loaded tol (row0 :: rest) (repeat 0%float D)
                ltac:(discriminate) Hdim) as Hsims.
  rewrite normalized_zeros in Hsims. simpl map in Hsims.
  set (s0 := dot_row (np_div (row_encoding row0) (np_linalg_norm (row_encoding row0)))
                     (repeat PrimFloat.nan D)) in *.
  assert (Hs0 : PrimFloat.is_nan s0 = true).
  { apply dot_row_nan.
    - intros Habs. apply Hne. apply length_zero_iff_nil.
      rewrite <- (np_div_length _ (np_linalg_norm (row_encoding row0))), Habs.
      reflexivity.
    - apply np_div_length. }
  assert (Hbest : best_match (loaded_module tol (row0 :: rest)) (repeat 0%float D)
                  = Ok (0%nat, s0)).
  { unfold best_match. rewrite Hsims. simpl.
    destruct (map _ rest); simpl; [reflexivity|]. rewrite Hs0. reflexivity. }
  exists s0. 
  destruct (recognize_face_loaded tol (row0 :: rest) face) as (info & Hrec & _ & _ & _ & Hcase).
  { intros emb row Hemb' Hrow. rewrite Hemb in Hemb'. injection Hemb' as <-.
    exact (Hdim row Hrow). }
  exists info. split; [exact Hbest|]. split; [exact Hs0|]. split; [exact Hrec|].
  rewrite Hemb in Hcase. destruct Hcase as (i & best & row & Hb & _ & Hacc).
  rewrite Hbest in Hb. injection Hb as <- <-.
  destruct (PrimFloat.leb tol s0) eqn:Hle; [|exact Hacc].
  apply leb_not_nan in Hle as [_ Hle]. congruence.
Qed.

Lemma zero_query_is_reported_unknown_witness :
  exists info,
    recognize_face (fst (load_known_faces (init 0.5) Examples.registry_a))
                   (Examples.face_of [0; 0]%float) = Ok info /\
    is_unknown info.
Proof.
  destruct (zero_query_is_reported_unknown (init 0.5)
              (fst (load_known_faces (init 0.5) Examples.registry_a))
              (1, "A", [1; 0]%float) [] (Examples.face_of [0; 0]%float))
    as (best & info & _ & _ & Hrec & Hunk).
  - reflexivity.
  - discriminate.
  - reflexivity.
  - exists info. split; [exact Hrec | exact Hunk].
Defined.

End RegistryMore.

(* ===================================================================== *)
(** * Properties of registration                                          *)
(* ===================================================================== *)

Section Registration.
Import Database DatabaseUsers Np FaceRecognition V1Registration.

(** Whatever its outcome, [load_known_faces] has replaced the three lists;
    it either returns, with the matrices rebuilt, or raises [ValueError]
    with the matrices untouched. *)
Lemma load_known_faces_outcome (self : FaceRecognitionModule)
    (face_data : list (Z * string * vec)) :
  known_face_encodings (fst (load_known_faces self face_data))
    = map row_encoding face_data /\
  known_face_names (fst (load_known_faces self face_data))
    = map row_name face_data /\
  known_face_ids (fst (load_known_faces self face_data)) = map row_id face_data /\
  tolerance (fst (load_known_faces self face_data)) = tolerance self /\
  ((np_array (map row_encoding face_data) = Ok (map row_encoding face_data) /\
    load_known_faces self face_data
    = (loaded_module (tolerance self) face_data, Ok tt)) \/
   (np_array (map row_encoding face_data) = Raise ValueError /\
    snd (load_known_faces self face_data) = Raise ValueError /\
    known_embeddings_normalized (fst (load_known_faces self face_data))
    = known_embeddings_normalized self)).
Proof.
  destruct (np_array (map row_encoding face_data)) as [M|e] eqn:Harr.
  - apply np_array_ok in Harr as HM. subst M.
    rewrite (load_known_faces_ok self face_data Harr). simpl.
    repeat split. left. split; reflexivity.
  - assert (e = ValueError) as ->.
    { unfold np_array in Harr. destruct (map row_encoding face_data);
        [discriminate|]. case_match; congruence. }
    unfold load_known_faces. rewrite append_all_spec.
    destruct (map row_encoding face_data) as [|r rs] eqn:Hencs; [discriminate|].
    rewrite Harr. simpl. repeat split. right. repeat split.
Qed.

(** X9.  [_capture_and_register] changes nothing and warns when the name is
    empty, when no frame has been captured, or when the captured frame
    yields no embedding.  Otherwise it inserts the user, under the next id,
    and reloads the registry from the database: afterwards the id, name and
    encoding lists of the face module mirror the users table row for row,
    whether or not the reload succeeded.  The reload succeeds, and success
    is reported, exactly when all stored embeddings (the new one included)
    have one length; if not, the user has been inserted all the same, an
    error is reported, and the module still holds its old normalized
    matrix. *)
Theorem capture_and_register_outcomes (self : Registrar)
    (name department photo_path : string) :
  (name = "" \/ captured_frame self = None \/
   (exists frame, captured_frame self = Some frame /\
                  encode_face_from_frame frame = None) ->
   fst (_capture_and_register self name department photo_path) = self /\
   exists text,
     snd (_capture_and_register self name department photo_path) = ShowWarning text) /\
  (forall frame encoding,
     name <> "" ->
     captured_frame self = Some frame ->
     encode_face_from_frame frame = Some encoding ->
     exists self',
       fst (_capture_and_register self name department photo_path) = self' /\
       store self' = fst (add_user (store self) name encoding department photo_path) /\
       get_all_face_encodings (store self')
       = (get_all_face_encodings (store self)
            ++ [(users_seq (store self) + 1, name, encoding)])%list /\
       known_face_ids (face_module self') = map usr_id (users (store self')) /\
       known_face_names (face_module self') = map usr_name (users (store self')) /\
       known_face_encodings (face_module self')
       = map usr_face_encoding (users (store self')) /\
       ((np_array (map usr_face_encoding (users (store self')))
         = Ok (map usr_face_encoding (users (store self'))) /\
         snd (_capture_and_register self name department photo_path)
         = ShowInfo (name ++ "님의 얼굴이 등록되었습니다!")%string /\
         face_module self'
         = loaded_module (tolerance (face_module self))
                         (get_all_face_encodings (store self'))) \/
        (np_array (map usr_face_encoding (users (store self'))) = Raise ValueError /\
         snd (_capture_and_register self name department photo_path)
         = ShowError ValueError /\
         known_embeddings_normalized (face_module self')
         = known_embeddings_normalized (face_module self)))).
Proof.
  split.
  - intros Hearly. unfold _capture_and_register.
    destruct (String.eqb name "") eqn:Hname; [simpl; eauto|].
    destruct Hearly as [->|[Hcap|(frame & Hcap & Henc)]].
    + discriminate.
    + rewrite Hcap. simpl. eauto.
    + rewrite Hcap, Henc. simpl. eauto.
  - intros frame encoding Hname Hcap Henc.
    unfold _capture_and_register.
    rewrite (proj2 (String.eqb_neq name "") Hname), Hcap, Henc.
    unfold add_user, _load_face_data. simpl.
    set (store' := {| users := _; users_seq := _; attendance_db := _ |}).
    pose proof (load_known_faces_outcome (face_module self)
                  (get_all_face_encodings store')) as Hout.
    destruct (load_known_faces (face_module self) (get_all_face_encodings store'))
      as [fm r] eqn:Hload.
    simpl in Hout. destruct Hout as (Hencs & Hnames & Hids & _ & Hcase).
    assert (Hm1 : map row_encoding (get_all_face_encodings store')
                  = map usr_face_encoding (users store'))
      by (unfold get_all_face_encodings; rewrite map_map; reflexivity).
    assert (Hm2 : map row_name (get_all_face_encodings store')
                  = map usr_name (users store'))
      by (unfold get_all_face_encodings; rewrite map_map; reflexivity).
    assert (Hm3 : map row_id (get_all_face_encodings store')
                  = map usr_id (users store'))
      by (unfold get_all_face_encodings; rewrite map_map; reflexivity).
    rewrite Hm1 in *. rewrite Hm2 in Hnames. rewrite Hm3 in Hids.
    destruct r as [[]|e].
    + eexists. split; [reflexivity|]. simpl.
      split; [reflexivity|].
      split; [unfold get_all_face_encodings, store'; simpl; rewrite map_app;
              reflexivity|].
      split; [exact Hids|]. split; [exact Hnames|]. split; [exact Hencs|].
      destruct Hcase as [[Harr Heq]|(_ & Habs & _)]; [|discriminate].
      left. split; [exact Harr|]. split; [reflexivity|]. congruence.
    + eexists. split; [reflexivity|]. simpl.
      split; [reflexivity|].
      split; [unfold get_all_face_encodings, store'; simpl; rewrite map_app;
              reflexivity|].
      split; [exact Hids|]. split; [exact Hnames|]. split; [exact Hencs|].
      destruct Hcase as [[_ Heq]|(Harr & Hr & Hnorm)]; [discriminate|].
      right. simpl in Hr. split; [exact Harr|]. split; [congruence | exact Hnorm].
Qed.

Lemma capture_and_register_outcomes_witness :
  snd (_capture_and_register (MoreExamples.registrar_with [1; 0]%float)
                             "A" "dev" "a.jpg")
  = ShowInfo "A님의 얼굴이 등록되었습니다!".
Proof.
  destruct (proj2 (capture_and_register_outcomes
                     (MoreExamples.registrar_with [1; 0]%float) "A" "dev" "a.jpg")
                  [Examples.face_of [1; 0]%float] [1; 0]%float)
    as (self' & Hself & _ & _ & _ & _ & _ & [(_ & Hinfo & _)|(Habs & _)]).
  - discriminate.
  - reflexivity.
  - reflexivity.
  - exact Hinfo.
  - exfalso. rewrite <- Hself in Habs. revert Habs. vm_compute. discriminate.
Defined.

End Registration.

(* ===================================================================== *)
(** * Further properties of the v1 camera loop                            *)
(* ===================================================================== *)

Section CameraMore.
Import Database DatabaseUsers Np FaceRecognition V1 V1Outcome.

Lemma record_attendance_wf (db : DatabaseManager) (A : Z) (ct : string)
    (d : date) (now : datetime) :
  attendance_wf db -> attendance_wf (fst (record_attendance db A ct d now)).
Proof.
  intros Hwf.
  destruct (record_attendance_cases db A ct d now)
    as [[-> _] | [(_ & Hnone & db' & m & Hins & ->) | (_ & row & m & _ & _ & ->)]].
  - exact Hwf.
  - exact (attendance_wf_insert db db' A d now Hwf Hnone Hins).
  - apply attendance_wf_update, Hwf.
Qed.

Lemma process_attendance_wf (self : FaceAttendanceApp) (face : FaceInfo)
    (clk : clock) :
  attendance_wf (db self) ->
  attendance_wf (db (fst (_process_attendance self face clk))).
Proof.
  intros Hwf. unfold _process_attendance.
  destruct (should_trigger _ _ _ _) as [[] cd]; [|exact Hwf].
  destruct (user_id face) as [u|]; [|exact Hwf].
  pose proof (record_attendance_wf (db self) u "in" (date_today clk)
                (datetime_now clk) Hwf) as Hwf'.
  simpl db. destruct (record_attendance _ _ _ _ _) as [db' [[[] msg]|e]];
    exact Hwf'.
Qed.

Lemma attendance_loop_wf (small_faces : list FaceInfo) (self : FaceAttendanceApp)
    (h : heap) (scale_factor : float) (clk : nat -> clock) (k : nat)
    (calls : list FaceInfo) :
  attendance_wf (db self) ->
  attendance_wf
    (db (fst (fst (fst (attendance_loop self h scale_factor small_faces clk k
                                        calls))))).
Proof.
  revert self h k calls.
  induction small_faces as [|face rest IH]; intros self h k calls Hwf; simpl.
  - exact Hwf.
  - destruct (scale_face scale_factor face) as [scaled|e]; [|exact Hwf].
    destruct (recognized face); [|apply IH, Hwf].
    pose proof (process_attendance_wf self face (clk k) Hwf) as Hwf'.
    destruct (_process_attendance self face (clk k)) as [self1 [u|e]];
      [apply IH, Hwf' | exact Hwf'].
Qed.

Lemma update_camera_wf (self : FaceAttendanceApp) (h : heap)
    (frame : option (list Face)) (clk : nat -> clock) :
  attendance_wf (db self) ->
  attendance_wf (db (app_of (_update_camera self h frame clk))).
Proof.
  intros Hwf. unfold app_of, _update_camera.
  repeat case_match; subst; simpl; try exact Hwf.
  match goal with
  | H : attendance_loop ?s ?hh ?sf ?fs ?c ?k ?cs = _ |- _ =>
      pose proof (attendance_loop_wf fs s hh sf c k cs Hwf) as Hloop;
      rewrite H in Hloop; exact Hloop
  end.
Qed.

Lemma unique_key_count (db : DatabaseManager) (A : Z) (d : date) :
  NoDup (map (fun r => (att_user_id r, att_date r)) (attendance db)) ->
  (length (List.filter (row_matches A d) (attendance db)) <= 1)%nat.
Proof.
  induction (attendance db) as [|r rows IH]; simpl; intros Hnd; [lia|].
  apply NoDup_cons in Hnd as [Hr Hnd]. specialize (IH Hnd).
  destruct (row_matches A d r) eqn:Hm; [|exact IH]. simpl.
  assert (Hempty : List.filter (row_matches A d) rows = []).
  { destruct (List.filter (row_matches A d) rows) as [|r' l] eqn:Hf;
      [reflexivity|]. exfalso. apply Hr.
    assert (Hin : In r' (List.filter (row_matches A d) rows))
      by (rewrite Hf; left; reflexivity).
    apply filter_In in Hin as [Hin Hm'].
    apply row_matches_key in Hm, Hm'. rewrite Hm, <- Hm'.
    apply list_elem_of_In. apply in_map_iff. exists r'. auto. }
  rewrite Hempty. simpl. lia.
Qed.

(** X11.  However long the camera runs, and whatever it sees, the ledger
    never holds two records for one identity on one day: starting from a
    well-formed attendance table, the table after every tick of the loop is
    well formed, so for every identity and day at most one row exists. *)
Theorem camera_loop_never_duplicates_a_record (self : FaceAttendanceApp)
    (h : heap) (ticks : list (option (list Face) * (nat -> clock))) (i : nat)
    (out : FaceAttendanceApp * heap * list FaceInfo * option exn) :
  attendance_wf (db self) ->
  run self h ticks !! i = Some out ->
  attendance_wf (db (app_of out)) /\
  forall A d,
    (length (List.filter (row_matches A d) (attendance (db (app_of out)))) <= 1)%nat.
Proof.
  intros Hwf Hout.
  assert (Hres : attendance_wf (db (app_of out))).
  { revert self h i Hwf Hout.
    induction ticks as [|[frame clk] rest IH]; intros self h i Hwf Hout.
    - destruct i; discriminate.
    - simpl in Hout.
      pose proof (update_camera_wf self h frame clk Hwf) as Hstep.
      destruct (_update_camera self h frame clk) as [[[s1 h1] c1] e1].
      destruct i as [|j]; simpl in Hout.
      + injection Hout as <-. exact Hstep.
      + exact (IH s1 h1 j Hstep Hout). }
  split; [exact Hres|].
  intros A d. apply unique_key_count. exact (proj1 Hres).
Qed.

Lemma camera_loop_never_duplicates_a_record_witness :
  exists out,
    run (Examples.app_with 1 0.5) ∅
        (map (fun t => (Some (fst t), snd t)) Examples.three_frames) !! 2%nat
    = Some out /\
    attendance_wf (db (app_of out)).
Proof.
  eexists. split; [reflexivity|].
  refine (proj1 (camera_loop_never_duplicates_a_record (Examples.app_with 1 0.5) ∅
                   (map (fun t => (Some (fst t), snd t)) Examples.three_frames)
                   2 _ _ _)).
  - repeat split; constructor.
  - reflexivity.
Defined.

(** X12.  In registration mode a tick never touches the ledger, the
    cooldown map or the result label, and never calls
    [_process_attendance], whatever the frame holds and whether or not the
    tick ends in an exception. *)
Theorem registration_mode_never_records (self : FaceAttendanceApp) (h : heap)
    (frame : option (list Face)) (clk : nat -> clock) :
  current_mode self <> "attendance" ->
  db (app_of (_update_camera self h frame clk)) = db self /\
  recognition_cooldown (app_of (_update_camera self h frame clk))
  = recognition_cooldown self /\
  result_label (app_of (_update_camera self h frame clk)) = result_label self /\
  handed_faces (_update_camera self h frame clk) = [].
Proof.
  intros Hmode. apply String.eqb_neq in Hmode.
  unfold app_of, handed_faces, _update_camera. simpl. rewrite Hmode.
  repeat case_match; subst; simpl; repeat split.
Qed.

Lemma registration_mode_never_records_witness :
  handed_faces
    (_update_camera (mkApp Examples.empty_db (loaded_module 0.5 Examples.registry_a5)
                           true "register" ∅ 0 1 0%nat 0.5%float "")
                    ∅ (Some [Examples.face_of Examples.query_050])
                    Examples.clock_at)
  = [].
Proof.
  refine (proj2 (proj2 (proj2 (registration_mode_never_records
    (mkApp Examples.empty_db (loaded_module 0.5 Examples.registry_a5)
           true "register" ∅ 0 1 0%nat 0.5%float "")
    ∅ (Some [Examples.face_of Examples.query_050]) Examples.clock_at _)))).
  discriminate.
Defined.

(** X10.  A second sighting inside the cooldown window is ignored
    altogether.  Once [_process_attendance] has gone through for an identity
    at time [t1], a call for a face of the same identity at a time [t2] with
    [t2 - t1 < 5] (v1) or [t2 - t1 < 10] (v2) returns at once: no ledger
    call, no label or overlay change, and the recorded time stays [t1]. *)
Theorem second_sighting_within_window_is_ignored (face face' : FaceInfo)
    (clk1 clk2 : clock) (u : Z) :
  user_id face = Some u ->
  user_id face' = Some u ->
  (forall self : FaceAttendanceApp,
     fst (should_trigger (recognition_cooldown self) (Some u) (time_time clk1)
                         5%float) = true ->
     PrimFloat.ltb (PrimFloat.sub (time_time clk2) (time_time clk1)) 5%float = true ->
     _process_attendance (fst (_process_attendance self face clk1)) face' clk2
     = (fst (_process_attendance self face clk1), Ok tt)) /\
  (forall self : V2.ModernFaceApp,
     fst (should_trigger (V2.recognition_cooldown self) (Some u) (time_time clk1)
                         10%float) = true ->
     PrimFloat.ltb (PrimFloat.sub (time_time clk2) (time_time clk1)) 10%float = true ->
     V2._process_attendance (fst (V2._process_attendance self face clk1)) face' clk2
     = (fst (V2._process_attendance self face clk1), Ok tt)).
Proof.
  intros Hu Hu'. split.
  - intros self Hgo Hlt. rewrite <- Hu in Hgo.
    destruct (v1_process_attendance_open self face clk1 u Hu Hgo)
      as (self1 & Hp & Hcd & _).
    rewrite Hp. simpl fst.
    apply v1_process_attendance_gated. rewrite Hu', Hcd.
    unfold should_trigger. rewrite lookup_insert_eq, Hlt. reflexivity.
  - intros self Hgo Hlt. rewrite <- Hu in Hgo.
    destruct (v2_process_attendance_open self face clk1 u Hu Hgo)
      as (self1 & Hp & Hcd & _).
    rewrite Hp. simpl fst.
    apply v2_process_attendance_gated. rewrite Hu', Hcd.
    unfold should_trigger. rewrite lookup_insert_eq, Hlt. reflexivity.
Qed.

Lemma second_sighting_within_window_is_ignored_witness :
  _process_attendance
    (fst (_process_attendance (Examples.app_with 1 0.5) MoreExamples.seen_a
                              (Examples.clock_at 0%nat)))
    MoreExamples.seen_a MoreExamples.two_seconds_later
  = (fst (_process_attendance (Examples.app_with 1 0.5) MoreExamples.seen_a
                              (Examples.clock_at 0%nat)), Ok tt).
Proof.
  refine (proj1 (second_sighting_within_window_is_ignored
                   MoreExamples.seen_a MoreExamples.seen_a
                   (Examples.clock_at 0%nat) MoreExamples.two_seconds_later 1 _ _)
                (Examples.app_with 1 0.5) _ _); reflexivity.
Defined.

(** ** How often the loop recomputes *)

Lemma div_succ (x n : Z) :
  1 <= n ->
  (x + 1) / n = x / n + (if (x + 1) mod n =? 0 then 1 else 0).
Proof.
  intros Hn. destruct ((x + 1) mod n =? 0) eqn:Hm.
  - apply Z.eqb_eq in Hm. Z.div_mod_to_equations. nia.
  - apply Z.eqb_neq in Hm. Z.div_mod_to_equations. nia.
Qed.

Lemma update_camera_attended (self : FaceAttendanceApp) (h : heap)
    (faces : list Face) (clk : nat -> clock) :
  is_running self = true ->
  1 <= process_every_n_frames self ->
  attended (_update_camera self h (Some faces) clk) = true ->
  (frame_count self + 1) mod process_every_n_frames self = 0.
Proof.
  intros Hrun HN Hatt.
  destruct (Z.eq_dec ((frame_count self + 1) mod process_every_n_frames self) 0)
    as [Hz|Hnz]; [exact Hz|].
  rewrite (update_camera_skip self h faces clk Hrun ltac:(lia) Hnz) in Hatt.
  discriminate.
Qed.

(** X13.  Attendance processing is throttled by [process_every_n_frames],
    not by the frame rate: over a stream of [k] frames starting at frame
    count [c], with [N = process_every_n_frames >= 1], the number of ticks
    that call [_process_attendance] at all is at most the number of
    multiples of [N] among [c + 1 .. c + k], that is
    [(c + k) / N - c / N]. *)
Theorem attendance_ticks_are_throttled (stream : list (list Face * (nat -> clock)))
    (self : FaceAttendanceApp) (h : heap) :
  is_running self = true ->
  1 <= process_every_n_frames self ->
  Z.of_nat (length (List.filter attended
              (run self h (map (fun t => (Some (fst t), snd t)) stream))))
  <= (frame_count self + Z.of_nat (length stream)) / process_every_n_frames self
     - frame_count self / process_every_n_frames self.
Proof.
  revert self h.
  induction stream as [|[faces clk] rest IH]; intros self h Hrun HN.
  - simpl. rewrite Z.add_0_r. lia.
  - simpl map. simpl run.
    pose proof (update_camera_attended self h faces clk Hrun HN) as Hatt.
    destruct (_update_camera self h (Some faces) clk) as [[[s1 h1] c1] e1] eqn:Hstep.
    destruct (update_camera_counts _ _ _ _ _ _ _ _ Hrun Hstep)
      as [Hfc (_ & Hr & _ & HNeq & _)].
    assert (Hrun1 : is_running s1 = true) by congruence.
    assert (HN1 : 1 <= process_every_n_frames s1) by lia.
    specialize (IH s1 h1 Hrun1 HN1).
    rewrite Hfc, <- HNeq in IH.
    pose proof (div_succ (frame_count self) (process_every_n_frames self) HN) as Hdiv.
    replace (frame_count self + Z.of_nat (length ((faces, clk) :: rest)))
      with (frame_count self + 1 + Z.of_nat (length rest))
      by (simpl length; lia).
    simpl List.filter.
    destruct (attended (s1, h1, c1, e1)) eqn:Ha.
    + rewrite (Hatt eq_refl) in Hdiv. simpl in Hdiv. simpl length. lia.
    + destruct ((frame_count self + 1) mod process_every_n_frames self =? 0); lia.
Qed.

Lemma attendance_ticks_are_throttled_witness :
  Z.of_nat (length (List.filter attended
              (run (Examples.app_with 3 0.5) ∅
                   (map (fun t => (Some (fst t), snd t)) Examples.three_frames))))
  <= 1.
Proof.
  refine (attendance_ticks_are_throttled Examples.three_frames
            (Examples.app_with 3 0.5) ∅ _ _).
  - reflexivity.
  - simpl. lia.
Defined.

(** X14.  A recognition failure on a recomputation frame costs the frame,
    not the cache.  If [recognize_faces] raises (in particular [ValueError]
    for an embedding of the wrong dimension, against a loaded non-empty
    registry), the tick ends in the handler with that exception; only the
    frame counter has advanced: [last_faces] is still bound to the same list
    object, the store, the ledger and the cooldown map are untouched, and
    no face reached [_process_attendance]. *)
Theorem failed_recognition_keeps_the_cache (self : FaceAttendanceApp) (h : heap)
    (faces : list Face) (clk : nat -> clock) :
  is_running self = true ->
  process_every_n_frames self <> 0 ->
  (frame_count self + 1) mod process_every_n_frames self = 0 ->
  PrimFloat.ltb 0%float (recognition_scale self) = true ->
  current_mode self = "attendance" ->
  (forall e,
     recognize_faces (face_module self) faces = Raise e ->
     _update_camera self h (Some faces) clk
     = (set_frame_count self (frame_count self + 1), h, [], Some e)) /\
  (forall tol row0 rest,
     face_module self = loaded_module tol (row0 :: rest) ->
     np_array (map row_encoding (row0 :: rest))
     = Ok (map row_encoding (row0 :: rest)) ->
     (exists face emb,
        In face faces /\ embedding face = Some emb /\
        length emb <> length (row_encoding row0)) ->
     _update_camera self h (Some faces) clk
     = (set_frame_count self (frame_count self + 1), h, [], Some ValueError)).
Proof.
  intros Hrun HN Hmod Hscale Hmode.
  assert (Hraise : forall e,
    recognize_faces (face_module self) faces = Raise e ->
    _update_camera self h (Some faces) clk
    = (set_frame_count self (frame_count self + 1), h, [], Some e)).
  { intros e Hrec. unfold _update_camera. rewrite Hrun. simpl.
    apply Z.eqb_neq in HN. apply Z.eqb_eq in Hmod.
    rewrite HN, Hmod, Hscale, Hmode, Hrec. reflexivity. }
  split; [exact Hraise|].
  intros tol row0 rest Hfm Harr Hbad. apply Hraise. rewrite Hfm.
  exact (proj1 (recognize_faces_loaded_dimension tol row0 rest faces Harr) Hbad).
Qed.

Lemma failed_recognition_keeps_the_cache_witness :
  _update_camera (Examples.app_with 1 0.5) ∅
                 (Some [Examples.face_of [1; 0]%float]) Examples.clock_at
  = (set_frame_count (Examples.app_with 1 0.5) 1, ∅, [], Some ValueError).
Proof.
  refine (proj2 (failed_recognition_keeps_the_cache (Examples.app_with 1 0.5) ∅
                   [Examples.face_of [1; 0]%float] Examples.clock_at _ _ _ _ _)
                0.5%float (1, "A", [1; 0; 0; 0; 0]%float) [] _ _ _).
  - reflexivity.
  - discriminate.
  - reflexivity.
  - reflexivity.
  - reflexivity.
  - reflexivity.
  - reflexivity.
  - exists (Examples.face_of [1; 0]%float), [1; 0]%float.
    split; [left; reflexivity|]. split; [reflexivity | simpl; lia].
Defined.

End CameraMore.

(* ===================================================================== *)
(** * Properties of the v2 front end                                      *)
(* ===================================================================== *)

Section V2More.
Import Database Np FaceRecognition V2Camera.

Lemma tl_skipn {A : Type} (k : nat) (l : list A) : tl (skipn k l) = skipn (S k) l.
Proof.
  revert l. induction k as [|k IH]; intros l.
  - destruct l as [|x [|y l]]; reflexivity.
  - destruct l as [|x l]; [reflexivity|]. exact (IH l).
Qed.

Lemma add_log_item_window (items : list (string * string)) (it : string * string) :
  _add_log_item (skipn (length items - 20) items) (fst it) (snd it)
  = skipn (length (items ++ [it]) - 20) (items ++ [it])%list.
Proof.
  unfold _add_log_item. destruct it as [nm t]. simpl fst. simpl snd.
  rewrite !length_app, length_skipn. simpl length.
  destruct (Nat.ltb 20 (length items - (length items - 20) + 1)) eqn:Hlt.
  - apply Nat.ltb_lt in Hlt.
    assert (Hge : (20 <= length items)%nat) by lia.
    replace (length items + 1 - 20)%nat with (S (length items - 20)) by lia.
    rewrite <- tl_skipn, skipn_app.
    replace (length items - 20 - length items)%nat with 0%nat by lia.
    simpl skipn.
    destruct (skipn (length items - 20) items) as [|y ys] eqn:Hs.
    + exfalso. apply (f_equal (@length _)) in Hs.
      rewrite length_skipn in Hs. simpl in Hs. lia.
    + reflexivity.
  - apply Nat.ltb_ge in Hlt.
    replace (length items + 1 - 20)%nat with 0%nat by lia.
    replace (length items - 20)%nat with 0%nat by lia.
    reflexivity.
Qed.

(** X15.  The attendance log shows the most recent twenty entries.  After
    any sequence of [_add_log_item] calls on an empty log, the cards are the
    last twenty items added (all of them when fewer were added), oldest
    first; so the log never holds more than twenty cards. *)
Theorem log_shows_the_last_twenty (items : list (string * string)) :
  fold_left (fun cards it => _add_log_item cards (fst it) (snd it)) items []
  = skipn (length items - 20) items /\
  (length (fold_left (fun cards it => _add_log_item cards (fst it) (snd it))
                     items []) <= 20)%nat.
Proof.
  assert (H : fold_left (fun cards it => _add_log_item cards (fst it) (snd it))
                        items []
              = skipn (length items - 20) items).
  { induction items as [|it items IH] using rev_ind; [reflexivity|].
    rewrite fold_left_app. simpl. rewrite IH. apply add_log_item_window. }
  split; [exact H|]. rewrite H, length_skipn. lia.
Qed.

(** ** The v2 tick *)

Lemma v2_attendance_loop_returns (faces : list FaceInfo) (a : V2.ModernFaceApp)
    (clk : nat -> clock) (k : nat) :
  (forall info, In info faces -> name info <> "Unknown" -> is_Some (user_id info)) ->
  exists a', attendance_loop a faces clk k = (a', Ok tt).
Proof.
  revert a k. induction faces as [|face rest IH]; intros a k Hids; simpl.
  - eauto.
  - assert (Hrest : forall info, In info rest -> name info <> "Unknown" ->
                                 is_Some (user_id info)).
    { intros info Hin. apply Hids. right. exact Hin. }
    destruct (String.eqb (name face) "Unknown") eqn:Hn; simpl.
    + apply IH, Hrest.
    + apply String.eqb_neq in Hn.
      destruct (Hids face (or_introl eq_refl) Hn) as [u Hu].
      destruct (fst (should_trigger (V2.recognition_cooldown a) (user_id face)
                                    (time_time (clk k)) 10%float)) eqn:Hgo.
      * destruct (v2_process_attendance_open a face (clk k) u Hu Hgo)
          as (a' & Hp & _).
        rewrite Hp. apply IH, Hrest.
      * rewrite (v2_process_attendance_gated a face (clk k) Hgo). apply IH, Hrest.
Qed.

(** X16.  One tick of the v2 camera loop, while running and given a frame.
    On the administrator tab it only detects: the object is unchanged and
    the detections are drawn.  Elsewhere recognition runs only when
    [int(time.time() * 10) % 3 == 0]; on other ticks the cached
    [last_faces] are drawn and nothing else happens.  On a recognition tick
    against a loaded non-empty registry, with embeddings of the registry's
    dimension, no exception leaves the method: [last_faces] becomes the
    result of [recognize_faces], which is drawn, and every entry with a name
    other than ["Unknown"] has gone through [_process_attendance] (each of
    them carries a [user_id], so the ledger call cannot fail). *)
Theorem v2_tick (self : Camera) (faces : list Face) (current_tab : string)
    (now : float) (clk : nat -> clock) :
  is_running self = true ->
  (current_tab = "관리자 모드" ->
   _update_camera_frame self (Some faces) current_tab now clk
   = (self, detect_faces faces, Ok tt)) /\
  (current_tab <> "관리자 모드" ->
   forall tenths,
     py_int (PrimFloat.mul now 10%float) = Ok tenths ->
     (tenths mod 3 <> 0 ->
      _update_camera_frame self (Some faces) current_tab now clk
      = (self, last_faces self, Ok tt)) /\
     (tenths mod 3 = 0 ->
      forall tol row0 rest,
        face_module self = loaded_module tol (row0 :: rest) ->
        np_array (map row_encoding (row0 :: rest))
        = Ok (map row_encoding (row0 :: rest)) ->
        (forall face emb, In face faces -> embedding face = Some emb ->
                          length emb = length (row_encoding row0)) ->
        exists result a,
          recognize_faces (face_module self) faces = Ok result /\
          attendance_loop (app self) result clk 0%nat = (a, Ok tt) /\
          _update_camera_frame self (Some faces) current_tab now clk
          = ({| app := a; face_module := face_module self;
                last_faces := result; is_running := is_running self |},
             result, Ok tt))).
Proof.
  intros Hrun. split.
  - intros ->. unfold _update_camera_frame. rewrite Hrun. reflexivity.
  - intros Htab tenths Hint. apply String.eqb_neq in Htab. split.
    + intros Hmod. apply Z.eqb_neq in Hmod.
      unfold _update_camera_frame. rewrite Hrun. simpl.
      rewrite Htab, Hint, Hmod. reflexivity.
    + intros Hmod tol row0 rest Hfm Harr Hdims. apply Z.eqb_eq in Hmod.
      destruct (proj2 (recognize_faces_loaded_dimension tol row0 rest faces Harr)
                      Hdims) as (result & Hres & _ & Hids).
      destruct (v2_attendance_loop_returns result (app self) clk 0%nat Hids)
        as [a Hloop].
      exists result, a. rewrite Hfm. split; [exact Hres|]. split; [exact Hloop|].
      unfold _update_camera_frame. rewrite Hrun. simpl.
      rewrite Htab, Hint, Hmod, Hfm, Hres, Hloop. reflexivity.
Qed.

Lemma v2_tick_witness :
  _update_camera_frame MoreExamples.v2_camera
    (Some [Examples.face_of Examples.query_050]) "관리자 모드" 1700000000%float
    Examples.clock_at
  = (MoreExamples.v2_camera, detect_faces [Examples.face_of Examples.query_050],
     Ok tt).
Proof.
  refine (proj1 (v2_tick MoreExamples.v2_camera
                   [Examples.face_of Examples.query_050] "관리자 모드"
                   1700000000%float Examples.clock_at _) _); reflexivity.
Defined.

End V2More.
